(** * chessnote: board state, move checker, notation parser, history recorder

    A shallow embedding of the Python package [chessnote]
    (ChessState.py, ChessChecker.py, ChessParser.py, ChessRecorder.py and
    the rotate flag of utils.py), followed by the properties of its
    specification.

    Conventions of the embedding.
    - A Python [str] is the list of its Unicode code points ([pystr]).
    - A Python [dict] is an association list in insertion order with
      unique keys ([pydict]): iteration order is observable in
      [ChessParser.parse_cmd].
    - A function that may raise returns a [result]; a method that mutates
      [self] is a state transformer [SE] that returns the (possibly
      mutated) object together with the result, so that what is left
      behind by a raising call can be stated.
    - The process-wide default of [utils.get_rotate_flag] is an explicit
      argument [g].
    - Exception messages keep the constant part of the source's message. *)

From Stdlib Require Import ZArith NArith List Bool String Ascii Lia.
Import ListNotations.
Open Scope Z_scope.

(** ** Python values *)

Definition pystr := list N.

(** An ASCII literal as a Python string. *)
Definition py (x : string) : pystr := map N_of_ascii (list_ascii_of_string x).

Fixpoint pystr_eqb (a b : pystr) : bool :=
  match a, b with
  | [], [] => true
  | x :: a', y :: b' => N.eqb x y && pystr_eqb a' b'
  | _, _ => false
  end.

(** [bool(s)] for a string: non-empty. *)
Definition truthy (x : pystr) : bool :=
  match x with [] => false | _ => true end.

(** [x in (a, b, ...)] for strings. *)
Definition str_among (x : pystr) (l : list pystr) : bool :=
  existsb (pystr_eqb x) l.

(** Case of the ASCII letters. The strings whose case the code asks for
    are board pieces and values of the parser's tables: a board only holds
    substrings of [_VALID_PIECES], which are ASCII. *)
Definition is_upper_char (c : N) : bool := (65 <=? c)%N && (c <=? 90)%N.
Definition is_lower_char (c : N) : bool := (97 <=? c)%N && (c <=? 122)%N.

(** [str.isupper]: some cased character, and no lowercase one. *)
Definition isupper (x : pystr) : bool :=
  existsb is_upper_char x && negb (existsb is_lower_char x).

(** [str.islower]: some cased character, and no uppercase one. *)
Definition islower (x : pystr) : bool :=
  existsb is_lower_char x && negb (existsb is_upper_char x).

Definition upper_char (c : N) : N := if is_lower_char c then (c - 32)%N else c.
Definition lower_char (c : N) : N := if is_upper_char c then (c + 32)%N else c.
Definition upper (x : pystr) : pystr := map upper_char x.
Definition lower (x : pystr) : pystr := map lower_char x.

(** [str.swapcase], on the ASCII letters as above. *)
Definition swapcase_char (c : N) : N :=
  if is_upper_char c then (c + 32)%N
  else if is_lower_char c then (c - 32)%N
  else c.
Definition swapcase (x : pystr) : pystr := map swapcase_char x.

(** Unicode decimal digits (general category Nd, Unicode 14.0 as shipped
    with CPython 3.11): sixty-six runs of ten consecutive code points, the
    digits 0 to 9 in order, listed by the code point of their zero. These
    are the characters that the regular expression [\d] matches and that
    [int] reads. *)
Definition decimal_zeros : list N :=
  [ 0x30; 0x660; 0x6f0; 0x7c0; 0x966; 0x9e6; 0xa66; 0xae6; 0xb66; 0xbe6;
    0xc66; 0xce6; 0xd66; 0xde6; 0xe50; 0xed0; 0xf20; 0x1040; 0x1090; 0x17e0;
    0x1810; 0x1946; 0x19d0; 0x1a80; 0x1a90; 0x1b50; 0x1bb0; 0x1c40; 0x1c50;
    0xa620; 0xa8d0; 0xa900; 0xa9d0; 0xa9f0; 0xaa50; 0xabf0; 0xff10; 0x104a0;
    0x10d30; 0x11066; 0x110f0; 0x11136; 0x111d0; 0x112f0; 0x11450; 0x114d0;
    0x11650; 0x116c0; 0x11730; 0x118e0; 0x11950; 0x11c50; 0x11d50; 0x11da0;
    0x16a60; 0x16ac0; 0x16b50; 0x1d7ce; 0x1d7d8; 0x1d7e2; 0x1d7ec; 0x1d7f6;
    0x1e140; 0x1e2f0; 0x1e950; 0x1fbf0 ]%N.

Definition decimal_value (c : N) : option Z :=
  match find (fun z => (z <=? c) && (c <? z + 10))%N decimal_zeros with
  | Some z => Some (Z.of_N (c - z))
  | None => None
  end.

Definition is_decimal (c : N) : bool :=
  match decimal_value c with Some _ => true | None => false end.

(** [int(x)] for a string [x] with [x.isdigit()]: the number when every
    character is a decimal digit. On the characters that [str.isdigit]
    accepts beyond those (superscripts, circled digits), [int] raises
    [ValueError]. *)
Fixpoint digits_value (acc : Z) (x : pystr) : option Z :=
  match x with
  | [] => Some acc
  | c :: x' =>
      match decimal_value c with
      | Some d => digits_value (10 * acc + d) x'
      | None => None
      end
  end.

Definition int_of_digits (x : pystr) : option Z :=
  match x with
  | [] => None
  | _ => digits_value 0 x
  end.

(** [l.sort(key=key)]: a stable sort. *)
Fixpoint insert_by {A} (key : A -> Z) (a : A) (l : list A) : list A :=
  match l with
  | [] => [a]
  | b :: l' => if key a <=? key b then a :: l else b :: insert_by key a l'
  end.

Definition sort_by {A} (key : A -> Z) (l : list A) : list A :=
  fold_right (insert_by key) [] l.

(** [range(start, stop, step)] for a non-zero step. *)
Definition py_range (start stop step : Z) : list Z :=
  let n :=
    if 0 <? step then (stop - start + step - 1) / step
    else (start - stop - step - 1) / (- step) in
  map (fun i => start + Z.of_nat i * step) (seq 0 (Z.to_nat n)).

(** Dynamically typed values, as far as the code inspects them:
    [isinstance(_, tuple)], [isinstance(_, int)] (which [bool] passes) and
    [isinstance(_, str)]. [POther] stands for every other object
    (float, list, None, ...). *)
#[warnings="-register-all"]
Inductive pyval :=
| PBool (b : bool)
| PInt (z : Z)
| PStr (x : pystr)
| PTuple (l : list pyval)
| POther.

Inductive exn :=
| ValueError (msg : string)
| KeyError (msg : string)
| IndexError
| TypeError (msg : string)
| SyntaxError.

Inductive result (A : Type) :=
| Ok (a : A)
| Raise (e : exn).
Arguments Ok {A} a.
Arguments Raise {A} e.

Definition rbind {A B} (c : result A) (k : A -> result B) : result B :=
  match c with
  | Ok a => k a
  | Raise e => Raise e
  end.

Declare Scope py_scope.
Delimit Scope py_scope with py.
Notation "x <- c ;; k" := (rbind c (fun x => k))
  (at level 61, c at next level, right associativity) : py_scope.
Notation "' p <- c ;; k" := (rbind c (fun x => let 'p := x in k))
  (at level 61, p pattern, c at next level, right associativity) : py_scope.
Notation "c ;;; k" := (rbind c (fun _ => k))
  (at level 61, right associativity) : py_scope.
Open Scope py_scope.

(** Methods that mutate their receiver. *)
Definition SE (S A : Type) := S -> S * result A.

Definition ret {S A} (a : A) : SE S A := fun s => (s, Ok a).
Definition raise {S A} (e : exn) : SE S A := fun s => (s, Raise e).
Definition reads {S A} (f : S -> result A) : SE S A := fun s => (s, f s).
Definition sbind {S A B} (c : SE S A) (k : A -> SE S B) : SE S B :=
  fun s =>
    match c s with
    | (s', Ok a) => k a s'
    | (s', Raise e) => (s', Raise e)
    end.

Notation "x <~ c ;; k" := (sbind c (fun x => k))
  (at level 61, c at next level, right associativity) : py_scope.
Notation "c ;;~ k" := (sbind c (fun _ => k))
  (at level 61, right associativity) : py_scope.

(** [if not cond: raise ValueError(msg)]. *)
Definition require (cond : bool) (msg : string) : result unit :=
  if cond then Ok tt else Raise (ValueError msg).

(** [x[i]] for a string: the one-character string at index [i >= 0]. *)
Definition char_at (x : pystr) (i : nat) : result pystr :=
  match nth_error x i with
  | Some c => Ok [c]
  | None => Raise IndexError
  end.

Definition is_ok {A} (r : result A) : bool :=
  match r with Ok _ => true | Raise _ => false end.

(** ** Insertion-ordered dictionaries *)

Section Dict.
Context {K V : Type} (eqb : K -> K -> bool).

Definition pydict := list (K * V).

Fixpoint dict_get (k : K) (d : pydict) : option V :=
  match d with
  | [] => None
  | (k', v) :: d' => if eqb k k' then Some v else dict_get k d'
  end.

Definition dict_mem (k : K) (d : pydict) : bool :=
  match dict_get k d with Some _ => true | None => false end.

(** [d[k] = v]: an existing key keeps its place, a new one goes last. *)
Fixpoint dict_set (k : K) (v : V) (d : pydict) : pydict :=
  match d with
  | [] => [(k, v)]
  | (k', v') :: d' =>
      if eqb k k' then (k', v) :: d' else (k', v') :: dict_set k v d'
  end.

(** [del d[k]] for a key that is present. *)
Fixpoint dict_del (k : K) (d : pydict) : pydict :=
  match d with
  | [] => []
  | (k', v') :: d' => if eqb k k' then d' else (k', v') :: dict_del k d'
  end.

Definition dict_keys (d : pydict) : list K := map fst d.
End Dict.
Arguments pydict : clear implicits.

(** ** Positions *)

Definition Pos := (Z * Z)%type.
Definition Arrow := (Pos * Pos)%type.

Definition pos_eqb (p q : Pos) : bool :=
  (fst p =? fst q) && (snd p =? snd q).

(** The tuple object of a position. *)
Definition pos_obj (p : Pos) : pyval := PTuple [PInt (fst p); PInt (snd p)].

(** [isinstance(v, int)] with the integer it denotes. *)
Definition as_int (v : pyval) : option Z :=
  match v with
  | PInt z => Some z
  | PBool b => Some (if b then 1 else 0)
  | _ => None
  end.

(** ** utils.py: rotate flag *)

(** [rotate_flag or get_rotate_flag()] for [rotate_flag : bool | None]. *)
Definition or_default (rotate_flag : option bool) (g : bool) : bool :=
  match rotate_flag with
  | Some true => true
  | Some false => g
  | None => g
  end.

(** ** Library calls of [normalize_cmds]

    [ChessParser.normalize_cmds] prepares its text with two regular
    expressions and [str.strip]. Their results depend on the Unicode
    classes of word and space characters; the three calls are taken as
    given functions:
    - [sub_turn_numbers text] is
      [re.sub(r"\b\d+(\.{1,3}|[...])?", " ", text)],
    - [split_separators text] is [re.split(r"[\s,...;...]+", text)],
    - [strip p] is [p.strip()]. *)
Record TextOps := {
  sub_turn_numbers : pystr -> pystr;
  split_separators : pystr -> list pystr;
  strip : pystr -> pystr
}.

(** ** Colours and sides *)

Inductive Color := red | black.
Inductive Side := up | down.

Definition color_eqb (a b : Color) : bool :=
  match a, b with
  | red, red | black, black => true
  | _, _ => false
  end.

Definition side_eqb (a b : Side) : bool :=
  match a, b with
  | up, up | down, down => true
  | _, _ => false
  end.

(** ["red" if piece.isupper() else "black"]: the colour of a piece is the
    case of its symbol. *)
Definition piece_color (piece : pystr) : Color :=
  if isupper piece then red else black.

(** ** ChessState.py *)

Module ChessState.

Definition _ROWS_NUM : Z := 10.
Definition _COLS_NUM : Z := 9.
Definition _VALID_PIECES : pystr := py "RrHhEeAaCcPpKk".

(** The board: the dictionary [_pieces]. *)
Definition t := pydict Pos pystr.

Definition _DEFALUT_STATE : t :=
  [ ((0, 0), py "R"); ((1, 0), py "H"); ((2, 0), py "E"); ((3, 0), py "A");
    ((4, 0), py "K"); ((5, 0), py "A"); ((6, 0), py "E"); ((7, 0), py "H");
    ((8, 0), py "R"); ((1, 2), py "C"); ((7, 2), py "C"); ((0, 3), py "P");
    ((2, 3), py "P"); ((4, 3), py "P"); ((6, 3), py "P"); ((8, 3), py "P");
    ((0, 6), py "p"); ((2, 6), py "p"); ((4, 6), py "p"); ((6, 6), py "p");
    ((8, 6), py "p"); ((1, 7), py "c"); ((7, 7), py "c"); ((0, 9), py "r");
    ((1, 9), py "h"); ((2, 9), py "e"); ((3, 9), py "a"); ((4, 9), py "k");
    ((5, 9), py "a"); ((6, 9), py "e"); ((7, 9), py "h"); ((8, 9), py "r") ].

Definition in_range (p : Pos) : bool :=
  (0 <=? fst p) && (fst p <? _COLS_NUM) && (0 <=? snd p) && (snd p <? _ROWS_NUM).

Definition _check_key (key : pyval) : result Pos :=
  match key with
  | PTuple [a; b] =>
      match as_int a, as_int b with
      | Some x, Some y =>
          if in_range (x, y) then Ok (x, y)
          else Raise (KeyError "Invalid key: out of board range")
      | _, _ => Raise (KeyError "Invalid key: must be (x,y) tuple of ints")
      end
  | _ => Raise (KeyError "Invalid key: must be (x,y) tuple of ints")
  end.

(** [a in b] for strings: [a] occurs in [b] as a substring. *)
Fixpoint is_prefix (a b : pystr) : bool :=
  match a, b with
  | [], _ => true
  | x :: a', y :: b' => N.eqb x y && is_prefix a' b'
  | _ :: _, [] => false
  end.

Fixpoint str_in (a b : pystr) : bool :=
  is_prefix a b || match b with [] => false | _ :: b' => str_in a b' end.

Definition _check_piece (piece : pyval) : result pystr :=
  match piece with
  | PStr x =>
      if str_in x _VALID_PIECES then Ok x
      else Raise (ValueError "Invalid piece")
  | _ => Raise (ValueError "Piece value must be a string")
  end.

Definition __getitem__ (self : t) (key : pyval) : result pystr :=
  k <- _check_key key ;;
  match dict_get pos_eqb k self with
  | Some v => Ok v
  | None => Raise (KeyError "")
  end.

Definition __setitem__ (key value : pyval) : SE t unit :=
  fun self =>
    match _check_key key with
    | Raise e => (self, Raise e)
    | Ok k =>
        match _check_piece value with
        | Raise e => (self, Raise e)
        | Ok v => (dict_set pos_eqb k v self, Ok tt)
        end
    end.

Definition __delitem__ (key : pyval) : SE t unit :=
  fun self =>
    match _check_key key with
    | Raise e => (self, Raise e)
    | Ok k =>
        if dict_mem pos_eqb k self
        then (dict_del pos_eqb k self, Ok tt)
        else (self, Raise (KeyError ""))
    end.

(** [Mapping.__contains__]: [self[key]] did not raise [KeyError]. *)
Definition __contains__ (self : t) (key : pyval) : bool :=
  is_ok (__getitem__ self key).

(** [Mapping.get(key, None)]. *)
Definition get (self : t) (key : pyval) : option pystr :=
  match __getitem__ self key with
  | Ok v => Some v
  | Raise _ => None
  end.

(** [Mapping.items()]: every key of [_pieces] is looked up through
    [__getitem__]. *)
Fixpoint items_of (self : t) (keys : list Pos) : result (list (Pos * pystr)) :=
  match keys with
  | [] => Ok []
  | k :: keys' =>
      v <- __getitem__ self (pos_obj k) ;;
      rest <- items_of self keys' ;;
      Ok ((k, v) :: rest)
  end.

Definition items (self : t) : result (list (Pos * pystr)) :=
  items_of self (dict_keys self).

Definition move (start end_ : Pos) : SE t unit :=
  fun self =>
    if negb (dict_mem pos_eqb start self)
    then raise (ValueError "No piece at start") self
    else
      (piece <~ reads (fun s => __getitem__ s (pos_obj start)) ;;
       __setitem__ (pos_obj end_) (PStr piece) ;;~
       __delitem__ (pos_obj start)) self.

Definition rotate_pieces (self : t) : t :=
  fold_left
    (fun new_pieces kv =>
       let '((x, y), piece) := kv in
       dict_set pos_eqb (8 - x, 9 - y) piece new_pieces)
    self [].

Definition swap_pieces (self : t) : t :=
fold_left
  (fun new_pieces kv => dict_set pos_eqb (fst kv) (swapcase (snd kv)) new_pieces)
  self [].

Definition __len__ (self : t) : Z := Z.of_nat (List.length self).

Definition deepcopy (self : t) : t := self.

(** [ChessState(empty, rotate)]; [g] is [get_rotate_flag()]. The
    constructor rebinds the local name [self] to the value returned by
    [rotate_pieces], which is the same object, rotated in place. *)
Definition __init__ (g : bool) (empty : bool) (rotate : option bool) : t :=
  let pieces := if empty then [] else _DEFALUT_STATE in
  match rotate with
  | None => if g then rotate_pieces pieces else pieces
  | Some r => if r then rotate_pieces pieces else pieces
  end.

(** [Mapping.__eq__]: the two boards hold the same items. *)
Definition eq (a b : t) : Prop :=
  forall p, dict_get pos_eqb p a = dict_get pos_eqb p b.

(** The invariants of a board built through the validated interface. *)
Definition keys_in_range (self : t) : Prop :=
  forall p v, In (p, v) self -> in_range p = true.

Definition alphabet : list pystr :=
  map (fun c => [c]) _VALID_PIECES.

Definition values_in_alphabet (self : t) : Prop :=
  forall p v, In (p, v) self -> In v alphabet.

Definition wf (self : t) : Prop := NoDup (dict_keys self).

(** What [_check_piece] lets onto a board: the substrings of
    [_VALID_PIECES]. *)
Definition values_checked (self : t) : Prop :=
  forall p v, In (p, v) self -> str_in v _VALID_PIECES = true.

(** A board as the validated interface keeps it. *)
Definition valid (self : t) : Prop :=
  wf self /\ keys_in_range self /\ values_checked self.

End ChessState.

(** ** ChessState.py: ChessStateIO *)

Module ChessStateIO.


Fixpoint uint_digits (d : Decimal.uint) : pystr :=
  match d with
  | Decimal.Nil => []
  | Decimal.D0 d' => 48%N :: uint_digits d'
  | Decimal.D1 d' => 49%N :: uint_digits d'
  | Decimal.D2 d' => 50%N :: uint_digits d'
  | Decimal.D3 d' => 51%N :: uint_digits d'
  | Decimal.D4 d' => 52%N :: uint_digits d'
  | Decimal.D5 d' => 53%N :: uint_digits d'
  | Decimal.D6 d' => 54%N :: uint_digits d'
  | Decimal.D7 d' => 55%N :: uint_digits d'
  | Decimal.D8 d' => 56%N :: uint_digits d'
  | Decimal.D9 d' => 57%N :: uint_digits d'
  end.

(** [repr(z)] for an integer: its decimal numeral. *)
Definition repr_int (z : Z) : pystr :=
  match Z.to_int z with
  | Decimal.Pos d => uint_digits d
  | Decimal.Neg d => py "-" ++ uint_digits d
  end.

(** [str(pos)] for a pair of integers, e.g. [(0, 1)]. *)
Definition str_pos (pos : Pos) : pystr :=
  py "(" ++ repr_int (fst pos) ++ py ", " ++ repr_int (snd pos) ++ py ")".

(** [{str(pos): piece for pos, piece in state._pieces.items()}]. A key of
    the board is a pair of integers here and is printed as [str_pos]
    prints it. [_check_key] also lets a pair of booleans through, which
    [str] prints as [(True, False)]; such a key object is not
    represented. *)
Definition save_to_dict (state : ChessState.t) : pydict pystr pyval :=
  fold_left
    (fun d kv => dict_set pystr_eqb (str_pos (fst kv)) (PStr (snd kv)) d)
    state [].

Section Load.
(** [ast.literal_eval] of the Python standard library. *)
Variable literal_eval : pystr -> result pyval.

Fixpoint load_items (data : pydict pystr pyval) : SE ChessState.t unit :=
  match data with
  | [] => ret tt
  | (key, piece) :: data' =>
      pos <~ reads (fun _ => literal_eval key) ;;
      ChessState.__setitem__ pos piece ;;~
      load_items data'
  end.

(** [g] is [get_rotate_flag()], read by [ChessState(empty=True)]. *)
Definition load_from_dict (g : bool) (data : pydict pystr pyval)
  : result ChessState.t :=
  let state := ChessState.__init__ g true None in
  match load_items data state with
  | (state', Ok _) => Ok state'
  | (_, Raise e) => Raise e
  end.
End Load.

End ChessStateIO.

(** ** ChessChecker.py *)

Module ChessChecker.

(** [(a, b) in pairs] for pairs of integers. *)
Definition pair_among (p : Z * Z) (pairs : list (Z * Z)) : bool :=
  existsb (pos_eqb p) pairs.

Definition _count_between (cur_state : ChessState.t) (start end_ : Pos)
  : result Z :=
  let '(sx, sy) := start in
  let '(ex, ey) := end_ in
  if sx =? ex then
    let step := if sy <? ey then 1 else -1 in
    Ok (fold_left
          (fun cnt y =>
             if ChessState.__contains__ cur_state (pos_obj (sx, y))
             then cnt + 1 else cnt)
          (py_range (sy + step) ey step) 0)
  else if sy =? ey then
    let step := if sx <? ex then 1 else -1 in
    Ok (fold_left
          (fun cnt x =>
             if ChessState.__contains__ cur_state (pos_obj (x, sy))
             then cnt + 1 else cnt)
          (py_range (sx + step) ex step) 0)
  else Raise (ValueError "Must be aligned on row/col").

Definition on_down_side (color : Color) (rotate_flag : bool) : bool :=
  (color_eqb color red && negb rotate_flag)
  || (color_eqb color black && rotate_flag).

Definition _check_in_palace (pos : Pos) (color : Color) (rotate_flag : bool)
  : bool :=
  if on_down_side color rotate_flag
  then (3 <=? fst pos) && (fst pos <=? 5) && (0 <=? snd pos) && (snd pos <=? 2)
  else (3 <=? fst pos) && (fst pos <=? 5) && (7 <=? snd pos) && (snd pos <=? 9).

Definition _check_in_side (pos : Pos) (color : Color) (rotate_flag : bool)
  : bool :=
  if on_down_side color rotate_flag
  then snd pos <=? 4
  else 5 <=? snd pos.

Definition check_move (cur_state : ChessState.t) (start end_ : Pos)
  (rotate_flag : bool) : result bool :=
  (* basic sanity checks *)
  require (ChessState.__contains__ cur_state (pos_obj start))
    "No piece at start" ;;;
  require (negb (pos_eqb start end_)) "Start and end cannot be the same" ;;;
  piece <- ChessState.__getitem__ cur_state (pos_obj start) ;;
  (* disallow capturing own piece *)
  (if ChessState.__contains__ cur_state (pos_obj end_) then
     target <- ChessState.__getitem__ cur_state (pos_obj end_) ;;
     require (negb ((isupper piece && isupper target)
                    || (islower piece && islower target)))
       "Cannot capture own piece"
   else Ok tt) ;;;
  let color := if isupper piece then red else black in
  (* determine side *)
  let side := if on_down_side color rotate_flag then down else up in
  let '(sx, sy) := start in
  let '(ex, ey) := end_ in
  let dx := ex - sx in
  let dy := ey - sy in
  (if str_among piece [py "R"; py "r"] then (* Rook *)
     require ((dx =? 0) || (dy =? 0)) "Rook must move straight" ;;;
     cnt <- _count_between cur_state start end_ ;;
     require (cnt =? 0) "Rook path blocked"
   else if str_among piece [py "H"; py "h"] then (* Knight *)
     require (pair_among (Z.abs dx, Z.abs dy) [(1, 2); (2, 1)])
       "Knight must move in ri-shape" ;;;
     let block :=
       if Z.abs dx =? 2 then (sx + dx / 2, sy) else (sx, sy + dy / 2) in
     require (negb (ChessState.__contains__ cur_state (pos_obj block)))
       "Knight's leg blocked"
   else if str_among piece [py "E"; py "e"] then (* Elephant *)
     require (pos_eqb (Z.abs dx, Z.abs dy) (2, 2))
       "Elephant must move 2 diagonally" ;;;
     let eye := (sx + dx / 2, sy + dy / 2) in
     require (negb (ChessState.__contains__ cur_state (pos_obj eye)))
       "Elephant's eye blocked" ;;;
     require (_check_in_side end_ color rotate_flag)
       "Elephant cannot cross the river"
   else if str_among piece [py "A"; py "a"] then (* Advisor *)
     require (pos_eqb (Z.abs dx, Z.abs dy) (1, 1))
       "Advisor must move 1 diagonally" ;;;
     require (_check_in_palace end_ color rotate_flag)
       "Advisor must stay inside palace"
   else if str_among piece [py "K"; py "k"] then (* King *)
     require (pair_among (Z.abs dx, Z.abs dy) [(1, 0); (0, 1)])
       "King must move 1 step orthogonally" ;;;
     require (_check_in_palace end_ color rotate_flag)
       "King must stay inside palace"
   else if str_among piece [py "C"; py "c"] then (* Cannon *)
     require ((dx =? 0) || (dy =? 0)) "Cannon must move straight" ;;;
     cnt_between <- _count_between cur_state start end_ ;;
     if ChessState.__contains__ cur_state (pos_obj end_) then
       require (cnt_between =? 1)
         "Cannon must jump exactly one piece when capturing"
     else
       require (cnt_between =? 0) "Cannon path blocked"
   else (* Pawn *)
     require (pair_among (Z.abs dx, Z.abs dy) [(1, 0); (0, 1)])
       "Pawn must move 1 step" ;;;
     (* cannot move backward *)
     require (negb ((side_eqb side up && (0 <? dy))
                    || (side_eqb side down && (dy <? 0))))
       "Pawn cannot move backward" ;;;
     (* before crossing river, only forward *)
     if _check_in_side end_ color rotate_flag then
       require (dx =? 0) "Pawn cannot move sideways before crossing river"
     else Ok tt) ;;;
  Ok true.

End ChessChecker.

(** ** ChessParser.py *)

Module ChessParser.

(** The glyphs of the notation, by code point. *)
Definition g_che : N := 0x8f66.      (* U+8F66, red rook *)
Definition g_ma : N := 0x9a6c.       (* U+9A6C, red horse *)
Definition g_xiang : N := 0x76f8.    (* U+76F8, red elephant *)
Definition g_shi : N := 0x4ed5.      (* U+4ED5, red advisor *)
Definition g_shuai : N := 0x5e05.    (* U+5E05, red king *)
Definition g_pao : N := 0x70ae.      (* U+70AE, red cannon *)
Definition g_bing : N := 0x5175.     (* U+5175, red pawn *)
Definition g_che' : N := 0x8eca.     (* U+8ECA, black rook *)
Definition g_ma' : N := 0x99ac.      (* U+99AC, black horse *)
Definition g_xiang' : N := 0x8c61.   (* U+8C61, black elephant *)
Definition g_shi' : N := 0x58eb.     (* U+58EB, black advisor *)
Definition g_jiang : N := 0x5c06.    (* U+5C06, black king *)
Definition g_pao' : N := 0x7832.     (* U+7832, black cannon *)
Definition g_zu : N := 0x5352.       (* U+5352, black pawn *)
Definition zh1 : N := 0x4e00.        (* U+4E00, one *)
Definition zh2 : N := 0x4e8c.        (* U+4E8C, two *)
Definition zh3 : N := 0x4e09.        (* U+4E09, three *)
Definition zh4 : N := 0x56db.        (* U+56DB, four *)
Definition zh5 : N := 0x4e94.        (* U+4E94, five *)
Definition zh6 : N := 0x516d.        (* U+516D, six *)
Definition zh7 : N := 0x4e03.        (* U+4E03, seven *)
Definition zh8 : N := 0x516b.        (* U+516B, eight *)
Definition zh9 : N := 0x4e5d.        (* U+4E5D, nine *)
Definition zh10 : N := 0x5341.       (* U+5341, ten *)
Definition g_qian : N := 0x524d.     (* U+524D, front *)
Definition g_zhong : N := 0x4e2d.    (* U+4E2D, middle *)
Definition g_hou : N := 0x540e.      (* U+540E, back *)
Definition g_ping : N := 0x5e73.     (* U+5E73, traverse *)
Definition g_jin : N := 0x8fdb.      (* U+8FDB, advance *)
Definition g_tui : N := 0x9000.      (* U+9000, retreat *)

Definition detect_color (cmd : pystr) : result Color :=
  if existsb is_decimal cmd then Ok black
  else if existsb
            (fun c => existsb (N.eqb c)
               [zh1; zh2; zh3; zh4; zh5; zh6; zh7; zh8; zh9; zh10])
            cmd
  then Ok red
  else Raise (ValueError "Cannot determine color").

Definition detect_side (color : Color) (rotate_flag : bool) : Side :=
  if negb rotate_flag then
    if color_eqb color red then down else up
  else
    if color_eqb color black then down else up.

Definition RED_PIECES : pydict pystr pystr :=
  [ ([g_che], py "R"); ([g_ma], py "H"); ([g_xiang], py "E");
    ([g_shi], py "A"); ([g_shuai], py "K"); ([g_pao], py "C");
    ([g_bing], py "P") ].

Definition BLACK_PIECES : pydict pystr pystr :=
  [ ([g_che'], py "r"); ([g_ma'], py "h"); ([g_xiang'], py "e");
    ([g_shi'], py "a"); ([g_jiang], py "k"); ([g_pao'], py "c");
    ([g_zu], py "p") ].

Definition parse_piece_char (piece_ch : pystr) (color : Color)
  (strict_flag : bool) : result pystr :=
  if strict_flag then
    let piece :=
      if color_eqb color red then dict_get pystr_eqb piece_ch RED_PIECES
      else dict_get pystr_eqb piece_ch BLACK_PIECES in
    match piece with
    | Some piece => Ok piece
    | None => Raise (ValueError "Invalid piece [strict]")
    end
  else
    let piece :=
      match dict_get pystr_eqb piece_ch RED_PIECES with
      | Some piece => Some piece
      | None => dict_get pystr_eqb piece_ch BLACK_PIECES
      end in
    match piece with
    | Some piece => Ok (if color_eqb color red then upper piece else lower piece)
    | None => Raise (ValueError "Invalid piece")
    end.

Definition CHINESE_IDX : pydict pystr Z :=
  [ ([zh1], 1); ([zh2], 2); ([zh3], 3); ([zh4], 4); ([zh5], 5);
    ([zh6], 6); ([zh7], 7); ([zh8], 8); ([zh9], 9) ].

Definition parse_col_idx (col_ch : pystr) (color : Color) (side : Side)
  : result Z :=
  col <-
    (if color_eqb color red then
       match dict_get pystr_eqb col_ch CHINESE_IDX with
       | Some n => Ok (n - 1)
       | None => Raise (ValueError "Red column must be Chinese numerals")
       end
     else
       match int_of_digits col_ch with
       | Some n =>
           let idx := n - 1 in
           if (0 <=? idx) && (idx <=? 8) then Ok idx
           else Raise (ValueError "Black column must be in 1-9")
       | None => Raise (ValueError "Black column must be numeric")
       end) ;;
  Ok (if side_eqb side down then 8 - col else col).

Definition CHINESE_NUM : pydict pystr Z := CHINESE_IDX.

Definition parse_row_delta (delta_ch : pystr) (color : Color) (side : Side)
  : result Z :=
  delta <-
    (if color_eqb color red then
       match dict_get pystr_eqb delta_ch CHINESE_NUM with
       | Some n => Ok n
       | None => Raise (ValueError "Red step must be in Chinese numerals")
       end
     else
       match int_of_digits delta_ch with
       | Some idx =>
           if (0 <=? idx) && (idx <=? 9) then Ok idx
           else Raise (ValueError "Black step must be in 1-9")
       | None => Raise (ValueError "Invalid black step")
       end) ;;
  Ok (if side_eqb side up then - delta else delta).

Definition HARD_MODE_KEYWORDS : list pystr := [[g_qian]; [g_zhong]; [g_hou]].

(** [state_map.setdefault(v, []).append(pos)]. *)
Definition setdefault_append (v : pystr) (pos : Pos)
  (state_map : pydict pystr (list Pos)) : pydict pystr (list Pos) :=
  match dict_get pystr_eqb v state_map with
  | Some l => dict_set pystr_eqb v (l ++ [pos]) state_map
  | None => dict_set pystr_eqb v [pos] state_map
  end.

Definition build_state_map (items : list (Pos * pystr))
  : pydict pystr (list Pos) :=
  fold_left (fun m kv => setdefault_append (snd kv) (fst kv) m) items [].

(** The starting position of a command without a front/middle/back mark. *)
Definition start_default (state_map : pydict pystr (list Pos))
  (piece col_ch : pystr) (color : Color) (side : Side) : result Pos :=
  match dict_get pystr_eqb piece state_map with
  | None => Raise (ValueError "Source piece not found")
  | Some positions =>
      start_col <- parse_col_idx col_ch color side ;;
      match find (fun p => fst p =? start_col) positions with
      | Some start => Ok start
      | None => Raise (ValueError "Source piece not found at column")
      end
  end.

(** The starting position of a command with a front/middle/back mark. *)
Definition start_hard (state_map : pydict pystr (list Pos))
  (piece mark : pystr) (side : Side) : result Pos :=
  match dict_get pystr_eqb piece state_map with
  | None => Raise (KeyError "")
  | Some positions =>
      let cols := nodup Z.eq_dec (map fst positions) in
      require (negb (1 <? Z.of_nat (List.length cols))) "not in same column" ;;;
      let positions :=
        if side_eqb side down then sort_by (fun p => - snd p) positions
        else sort_by (fun p => snd p) positions in
      if pystr_eqb mark [g_qian] then
        require (negb (Z.of_nat (List.length positions) <? 2))
          "front requires >=2 pieces" ;;;
        match nth_error positions 0 with
        | Some start => Ok start
        | None => Raise IndexError
        end
      else if pystr_eqb mark [g_hou] then
        require (negb (Z.of_nat (List.length positions) <? 2))
          "back requires >=2 pieces" ;;;
        match nth_error (rev positions) 0 with
        | Some start => Ok start
        | None => Raise IndexError
        end
      else
        require (negb (Z.of_nat (List.length positions) <? 3))
          "middle requires >=3 pieces" ;;;
        match nth_error positions 1 with
        | Some start => Ok start
        | None => Raise IndexError
        end
  end.

(** The destination, once the piece and its starting position are known. *)
Definition end_of (piece op_type op_arg_ch : pystr) (color : Color)
  (side : Side) (start : Pos) : result Pos :=
  if str_among (lower piece) [py "k"; py "r"; py "c"; py "p"] then
    if pystr_eqb op_type [g_ping] then
      col <- parse_col_idx op_arg_ch color side ;;
      Ok (col, snd start)
    else if pystr_eqb op_type [g_jin] then
      delta <- parse_row_delta op_arg_ch color side ;;
      let end_row := snd start + delta in
      require ((0 <=? end_row) && (end_row <=? 9)) "Row out of range" ;;;
      Ok (fst start, end_row)
    else if pystr_eqb op_type [g_tui] then
      delta <- parse_row_delta op_arg_ch color side ;;
      let end_row := snd start - delta in
      require ((0 <=? end_row) && (end_row <=? 9)) "Row out of range" ;;;
      Ok (fst start, end_row)
    else Raise (ValueError "Invalid operator")
  else if str_among (lower piece) [py "a"; py "e"] then
    end_col <- parse_col_idx op_arg_ch color side ;;
    let delta_unit :=
      if pystr_eqb (lower piece) (py "a")
      then (if color_eqb color red then [zh1] else py "1")
      else (if color_eqb color red then [zh2] else py "2") in
    end_row <-
      (if pystr_eqb op_type [g_jin] then
         delta <- parse_row_delta delta_unit color side ;;
         Ok (snd start + delta)
       else if pystr_eqb op_type [g_tui] then
         delta <- parse_row_delta delta_unit color side ;;
         Ok (snd start - delta)
       else Raise (ValueError "Invalid operator")) ;;
    Ok (end_col, end_row)
  else
    end_col <- parse_col_idx op_arg_ch color side ;;
    delta_unit <-
      (if Z.abs (end_col - fst start) =? 1
       then Ok (if color_eqb color red then [zh2] else py "2")
       else if Z.abs (end_col - fst start) =? 2
       then Ok (if color_eqb color red then [zh1] else py "1")
       else Raise (ValueError "Invalid horse move")) ;;
    end_row <-
      (if pystr_eqb op_type [g_jin] then
         delta <- parse_row_delta delta_unit color side ;;
         Ok (snd start + delta)
       else if pystr_eqb op_type [g_tui] then
         delta <- parse_row_delta delta_unit color side ;;
         Ok (snd start - delta)
       else Raise (ValueError "Invalid operator")) ;;
    Ok (end_col, end_row).

(** [parse_cmd(state, cmd, rotate_flag=..., strict_flag=...)]; [g] is
    [get_rotate_flag()]. In a command that starts with a mark the name
    [col_ch] is not bound; it is the empty string here and is not read. *)
Definition parse_cmd (g : bool) (state : ChessState.t) (cmd : pystr)
  (rotate_flag : option bool) (strict_flag : bool) : result Arrow :=
  let rotate_flag := or_default rotate_flag g in
  (* Build reverse map from state *)
  items <- ChessState.items state ;;
  let state_map := build_state_map items in
  (* Extract tokens *)
  c0 <- char_at cmd 0 ;;
  let hard := str_among c0 HARD_MODE_KEYWORDS in
  tokens <-
    (if hard then
       piece_ch <- char_at cmd 1 ;;
       op_type <- char_at cmd 2 ;;
       op_arg_ch <- char_at cmd 3 ;;
       Ok (piece_ch, [], op_type, op_arg_ch)
     else
       piece_ch <- char_at cmd 0 ;;
       col_ch <- char_at cmd 1 ;;
       op_type <- char_at cmd 2 ;;
       op_arg_ch <- char_at cmd 3 ;;
       Ok (piece_ch, col_ch, op_type, op_arg_ch)) ;;
  let '(piece_ch, col_ch, op_type, op_arg_ch) := tokens in
  color <- detect_color cmd ;;
  let side := detect_side color rotate_flag in
  piece <- parse_piece_char piece_ch color strict_flag ;;
  (* Determine starting position *)
  start <-
    (if negb hard then start_default state_map piece col_ch color side
     else start_hard state_map piece c0 side) ;;
  (* Determine ending position *)
  end_ <- end_of piece op_type op_arg_ch color side start ;;
  Ok (start, end_).

(** The alternation loop of [normalize_cmds]. *)
Fixpoint check_alternation (expected_color : Color) (cmds : list pystr)
  : result (list pystr) :=
  match cmds with
  | [] => Ok []
  | cmd :: cmds' =>
      color <- detect_color cmd ;;
      require (color_eqb color expected_color) "Alternation error" ;;;
      checked <-
        check_alternation
          (if color_eqb expected_color black then red else black) cmds' ;;
      Ok (cmd :: checked)
  end.

Definition normalize_cmds (ops : TextOps) (text : pystr)
  : result (list pystr) :=
  let text := sub_turn_numbers ops text in
  let parts := split_separators ops text in
  let cmds := map (strip ops) (filter (fun p => truthy (strip ops p)) parts) in
  match cmds with
  | [] => Ok []
  | cmd0 :: _ =>
      expected_color <- detect_color cmd0 ;;
      check_alternation expected_color cmds
  end.

End ChessParser.

(** ** ChessRecorder.py *)

Module ChessRecorder.

(** The dictionary [extra_info]: its keys are ["color"] and ["desc"]. *)
Record ExtraInfo := {
  info_color : option Color;
  info_desc : option pystr
}.

Definition no_info : ExtraInfo := {| info_color := None; info_desc := None |}.

Record ChessNode := {
  state : ChessState.t;
  trace : option Arrow;
  extra_info : ExtraInfo
}.

(** [ChessNode(state, trace, extra_info)]. *)
Definition new_node (state : ChessState.t) (trace : option Arrow)
  (extra_info : option ExtraInfo) : ChessNode :=
  {| state := ChessState.deepcopy state;
     trace := trace;
     extra_info := match extra_info with Some i => i | None => no_info end |}.

(** [ChessNodeDeque]: the deque [_queue], first node first. *)
Definition ChessNodeDeque := list ChessNode.

Definition new_deque (state : ChessState.t) (trace : option Arrow)
  (extra_info : option ExtraInfo) : ChessNodeDeque :=
  [new_node state trace extra_info].

Definition append (state : ChessState.t) (trace : option Arrow)
  (extra_info : option ExtraInfo) (q : ChessNodeDeque) : ChessNodeDeque :=
  q ++ [new_node state trace extra_info].

(** [ChessNodeDeque.pop]: the deque after the call. *)
Definition pop (q : ChessNodeDeque) : ChessNodeDeque :=
  if 1 <? Z.of_nat (List.length q) then removelast q else q.

(** [_queue[-1]]. *)
Definition back (q : ChessNodeDeque) : result ChessNode :=
  match rev q with
  | node :: _ => Ok node
  | [] => Raise IndexError
  end.

Record t := {
  _history : ChessNodeDeque;
  _rotate_flag : bool;
  _checkpoints : pydict pystr Z
}.

Definition with_history (self : t) (q : ChessNodeDeque) : t :=
  {| _history := q;
     _rotate_flag := _rotate_flag self;
     _checkpoints := _checkpoints self |}.

(** [ChessRecorder(state, rotate_flag)]; [g] is [get_rotate_flag()]. *)
Definition __init__ (g : bool) (state : option ChessState.t)
  (rotate_flag : option bool) : t :=
  let state :=
    match state with
    | None => ChessState.__init__ g false rotate_flag
    | Some st => st
    end in
  {| _history := new_deque state None None;
     _rotate_flag := or_default rotate_flag g;
     _checkpoints := [] |}.

Definition rotate : SE t unit :=
  fun self =>
    ({| _history := _history self;
        _rotate_flag := negb (_rotate_flag self);
        _checkpoints := _checkpoints self |}, Ok tt).

Definition same_color (pre_color : option Color) (color : Color) : bool :=
  match pre_color with
  | Some c => color_eqb c color
  | None => false
  end.

Definition move (start end_ : Pos) (desc : option pystr) : SE t unit :=
  fun self =>
    match back (_history self) with
    | Raise e => (self, Raise e)
    | Ok node =>
        match ChessChecker.check_move (state node) start end_
                (_rotate_flag self) with
        | Raise _ => (self, Raise (ValueError "Invalid move detected"))
        | Ok _ =>
            (* check color *)
            match ChessState.__getitem__ (state node) (pos_obj start) with
            | Raise e => (self, Raise e)
            | Ok piece =>
                let color := piece_color piece in
                let pre_color := info_color (extra_info node) in
                if same_color pre_color color then
                  (self, Raise (ValueError "The color of the current player is the same as the previous player."))
                else
                  let new_state := ChessState.deepcopy (state node) in
                  match ChessState.move start end_ new_state with
                  | (_, Raise e) => (self, Raise e)
                  | (new_state, Ok _) =>
                      let extra_info :=
                        {| info_color := Some color;
                           info_desc :=
                             match desc with
                             | Some d => if truthy d then Some d else None
                             | None => None
                             end |} in
                      (with_history self
                         (append new_state (Some (start, end_))
                            (Some extra_info) (_history self)),
                       Ok tt)
                  end
            end
        end
    end.

(** The argument [cmds] of [exec]: a string, a list or tuple of
    strings, or an object of another type. *)
Inductive Cmds :=
| CmdsStr (text : pystr)
| CmdsSeq (cmds : list pystr)
| CmdsOther.

(** One turn of the loop of [exec]. *)
Definition exec_cmd (g : bool) (strict_flag : bool) (cmd : pystr)
  : SE t unit :=
  fun self =>
    match back (_history self) with
    | Raise e => (self, Raise e)
    | Ok node =>
        match ChessParser.parse_cmd g (state node) cmd
                (Some (_rotate_flag self)) strict_flag with
        | Raise (ValueError _) =>
            (self, Raise (ValueError "Invalid cmd detected"))
        | Raise e => (self, Raise e)
        | Ok (start, end_) => move start end_ (Some cmd) self
        end
    end.

Fixpoint exec_loop (g : bool) (strict_flag : bool) (cmds : list pystr)
  : SE t unit :=
  match cmds with
  | [] => ret tt
  | cmd :: cmds' =>
      exec_cmd g strict_flag cmd ;;~ exec_loop g strict_flag cmds'
  end.

Definition exec (ops : TextOps) (g : bool) (cmds : Cmds)
  (strict_flag : bool) : SE t unit :=
  cmds <~
    reads (fun _ =>
      match cmds with
      | CmdsStr text => ChessParser.normalize_cmds ops text
      | CmdsSeq cmds => Ok cmds
      | CmdsOther => Raise (TypeError "Unsupported cmds type")
      end) ;;
  exec_loop g strict_flag (filter truthy cmds).

Definition set_checkpoint (name : pystr) : SE t unit :=
  fun self =>
    ({| _history := _history self;
        _rotate_flag := _rotate_flag self;
        _checkpoints :=
          dict_set pystr_eqb name (Z.of_nat (List.length (_history self)))
            (_checkpoints self) |}, Ok tt).

(** [while len(self._history) > target_len: self._history.pop()], run
    for at most [fuel] tests of the condition. *)
Fixpoint pop_while_longer (fuel : nat) (target_len : Z) (q : ChessNodeDeque)
  : option ChessNodeDeque :=
  match fuel with
  | O => None
  | S fuel' =>
      if target_len <? Z.of_nat (List.length q)
      then pop_while_longer fuel' target_len (pop q)
      else Some q
  end.

(** [None]: the loop has not ended within [fuel] tests. *)
Definition rollback_to_checkpoint (fuel : nat) (name : pystr) (self : t)
  : option (t * result unit) :=
  match dict_get pystr_eqb name (_checkpoints self) with
  | None => Some (self, Raise (KeyError "Checkpoint not found"))
  | Some target_len =>
      match pop_while_longer fuel target_len (_history self) with
      | Some q => Some (with_history self q, Ok tt)
      | None => None
      end
  end.

Fixpoint pop_times (n : nat) (q : ChessNodeDeque) : ChessNodeDeque :=
  match n with
  | O => q
  | S n' => pop_times n' (pop q)
  end.

Definition rollback (steps : Z) : SE t unit :=
  fun self =>
    if steps <? 0 then
      (self, Raise (ValueError "Steps must be non-negative"))
    else
      (with_history self (pop_times (Z.to_nat steps) (_history self)), Ok tt).

Definition last (self : t) : result ChessState.t :=
  node <- back (_history self) ;;
  Ok (ChessState.deepcopy (state node)).

(** [_queue[0]]. *)
Definition front (q : ChessNodeDeque) : result ChessNode :=
  match q with
  | node :: _ => Ok node
  | [] => Raise IndexError
  end.

(** [ChessNodeDeque.deepcopy]: a deque of nodes built anew from the fields
    of the nodes of [q]. *)
Definition deque_deepcopy (q : ChessNodeDeque) : result ChessNodeDeque :=
  root <- front q ;;
  let new_history := new_deque (state root) None None in
  Ok (map (fun node =>
             new_node (state node) (trace node) (Some (extra_info node)))
        q).

(** [ChessRecorder.deepcopy]; [g] is [get_rotate_flag()], read by the
    constructor. *)
Definition deepcopy (g : bool) (self : t) : result t :=
  root <- front (_history self) ;;
  let new_rec := __init__ g (Some (state root)) (Some (_rotate_flag self)) in
  new_history <- deque_deepcopy (_history self) ;;
  Ok {| _history := new_history;
        _rotate_flag := _rotate_flag new_rec;
        _checkpoints := _checkpoints self |}.

(** [ChessRecorder.derive]; [g] is [get_rotate_flag()]. *)
Definition derive (g : bool) (self : t) : result t :=
  st <- last self ;;
  Ok (__init__ g (Some st) (Some (_rotate_flag self))).

(** The methods that act on a recorder, as a caller may sequence them. *)
Inductive Call :=
| CallMove (start end_ : Pos) (desc : option pystr)
| CallExec (g : bool) (cmds : Cmds) (strict_flag : bool)
| CallSetCheckpoint (name : pystr)
| CallRollbackToCheckpoint (fuel : nat) (name : pystr)
| CallRollback (steps : Z)
| CallRotate.

Definition call (ops : TextOps) (c : Call) (self : t)
  : option (t * result unit) :=
  match c with
  | CallMove start end_ desc => Some (move start end_ desc self)
  | CallExec g cmds strict_flag => Some (exec ops g cmds strict_flag self)
  | CallSetCheckpoint name => Some (set_checkpoint name self)
  | CallRollbackToCheckpoint fuel name => rollback_to_checkpoint fuel name self
  | CallRollback steps => Some (rollback steps self)
  | CallRotate => Some (rotate self)
  end.

(** The recorders a program can hold: a constructed one, and whatever a
    method call leaves behind, whether it returned or raised. *)
Inductive reachable (ops : TextOps) : t -> Prop :=
| reach_init g state rotate_flag :
    reachable ops (__init__ g state rotate_flag)
| reach_call c self self' res :
    reachable ops self ->
    call ops c self = Some (self', res) ->
    reachable ops self'.

(** What a call added: [self'] is [self] with the nodes [added] at the
    tail of its history. *)
Definition extends (self self' : t) (added : list ChessNode) : Prop :=
  _history self' = _history self ++ added
  /\ _rotate_flag self' = _rotate_flag self
  /\ _checkpoints self' = _checkpoints self.

(** A sequence of calls, whatever each of them returns or raises. *)
Fixpoint calls (ops : TextOps) (cs : list Call) (self : t) : option t :=
  match cs with
  | [] => Some self
  | c :: cs' =>
      match call ops c self with
      | Some (self', _) => calls ops cs' self'
      | None => None
      end
  end.

Definition is_move_or_exec (c : Call) : Prop :=
  match c with
  | CallMove _ _ _ | CallExec _ _ _ => True
  | _ => False
  end.

(** Consecutive nodes that both carry a trace record different colours. *)
Fixpoint alternates (q : ChessNodeDeque) : Prop :=
  match q with
  | n1 :: (n2 :: _) as q' =>
      (trace n1 <> None -> trace n2 <> None ->
       info_color (extra_info n1) <> info_color (extra_info n2))
      /\ alternates q'
  | _ => True
  end.

End ChessRecorder.

(** * Notions of the specification *)

(** The position [(x, y)] seen from the opposite side of the board. *)
Definition relabel (p : Pos) : Pos := (8 - fst p, 9 - snd p).

Definition relabel_item (kv : Pos * pystr) : Pos * pystr :=
  (relabel (fst kv), snd kv).

(** A list of positions without repetition, as a test. *)
Fixpoint distinct (l : list Pos) : bool :=
  match l with
  | [] => true
  | p :: l' => negb (existsb (pos_eqb p) l') && distinct l'
  end.

(** The side a piece plays from: red is at the bottom of an unrotated
    board, black at the bottom of a rotated one. *)
Definition resolved_side (piece : pystr) (rotate_flag : bool) : Side :=
  if ChessChecker.on_down_side (piece_color piece) rotate_flag
  then down else up.

(** The rows of a side's own river half. *)
Definition own_river_half (side : Side) (row : Z) : Prop :=
  match side with
  | down => 0 <= row <= 4
  | up => 5 <= row <= 9
  end.

(** A row displacement that takes a piece back towards its own edge. *)
Definition backward (side : Side) (dy : Z) : Prop :=
  match side with
  | down => dy < 0
  | up => 0 < dy
  end.

Definition orthogonal_step (dx dy : Z) : Prop :=
  (Z.abs dx = 1 /\ Z.abs dy = 0) \/ (Z.abs dx = 0 /\ Z.abs dy = 1).

(** The square [end_] holds a piece of the colour of [piece]. *)
Definition captures_own (s : ChessState.t) (piece : pystr) (end_ : Pos) : Prop :=
  exists target,
    ChessState.__getitem__ s (pos_obj end_) = Ok target
    /\ (isupper piece && isupper target) || (islower piece && islower target)
       = true.

(** The library calls of [normalize_cmds] on a text that is one bare
    command, without turn number, separator or surrounding space: the
    substitution and [strip] return the text and the split returns it
    alone. *)
Definition bare_ops : TextOps :=
  {| sub_turn_numbers := fun text => text;
     split_separators := fun text => [text];
     strip := fun p => p |}.

(** The command "cannon two traverse five" of the red side. *)
Definition pao_er_ping_wu : pystr :=
  [ChessParser.g_pao; ChessParser.zh2; ChessParser.g_ping; ChessParser.zh5].

(** A value that is a tuple of two integers. *)
Definition is_int_pair (v : pyval) : Prop :=
  exists a b x y, v = PTuple [a; b] /\ as_int a = Some x /\ as_int b = Some y.

(** The entry that [save_to_dict] writes for an item of the board. *)
Definition token_item (kv : Pos * pystr) : pystr * pyval :=
  (ChessStateIO.str_pos (fst kv), PStr (snd kv)).

(** [ast.literal_eval] on the tokens that [save_to_dict] writes for a
    board, a parenthesised pair of one-digit numbers such as [(4, 0)]; this
    reading raises on any other text. *)
Definition literal_eval_digits (x : pystr) : result pyval :=
  match x with
  | [o; a; c; sp; b; cl] =>
      if ((o =? 40) && (c =? 44) && (sp =? 32) && (cl =? 41)
          && (48 <=? a) && (a <=? 57) && (48 <=? b) && (b <=? 57))%N
      then Ok (PTuple [PInt (Z.of_N (a - 48)); PInt (Z.of_N (b - 48))])
      else Raise SyntaxError
  | _ => Raise SyntaxError
  end.

(** The command "rook nine traverse eight" of the red side, and a board
    where the red rook stands next to the red horse. *)
Definition che_jiu_ping_ba : pystr :=
  [ChessParser.g_che; ChessParser.zh9; ChessParser.g_ping; ChessParser.zh8].

Definition rook_beside_horse : ChessState.t :=
  [((0, 0), py "R"); ((1, 0), py "H")].

(** ** Further notions *)

(** The item that [swap_pieces] makes of an item of the board. *)
Definition swap_item (kv : Pos * pystr) : Pos * pystr :=
  (fst kv, swapcase (snd kv)).

(** A square strictly between two squares of one column or of one row. *)
Definition strictly_between (a b p : Pos) : Prop :=
  (fst a = fst b /\ fst p = fst a
   /\ (snd a < snd p < snd b \/ snd b < snd p < snd a))
  \/ (snd a = snd b /\ snd p = snd a
      /\ (fst a < fst p < fst b \/ fst b < fst p < fst a)).

(** The square next to [start] on the long side of a horse move. *)
Definition knight_leg (start end_ : Pos) : Pos :=
  if Z.abs (fst end_ - fst start) =? 2
  then (fst start + Z.sgn (fst end_ - fst start), snd start)
  else (fst start, snd start + Z.sgn (snd end_ - snd start)).

(** The square diagonally next to [start] on the way of an elephant. *)
Definition elephant_eye (start end_ : Pos) : Pos :=
  (fst start + Z.sgn (fst end_ - fst start),
   snd start + Z.sgn (snd end_ - snd start)).

(** The palace of a side. *)
Definition in_palace (side : Side) (p : Pos) : Prop :=
  3 <= fst p <= 5
  /\ match side with
     | down => 0 <= snd p <= 2
     | up => 7 <= snd p <= 9
     end.

(** The rows on a side's bank of the river, as [_check_in_side] tests
    them. *)
Definition on_own_bank (side : Side) (row : Z) : Prop :=
  match side with
  | down => row <= 4
  | up => 5 <= row
  end.

(** The range walked from [a] towards [b], excluding both. *)
Definition walk (a b : Z) : list Z :=
  let step := if a <? b then 1 else -1 in
  py_range (a + step) b step.

(** The opposite colour, and a list of commands whose colours alternate
    from [c] on. *)
Definition other_color (c : Color) : Color :=
  match c with red => black | black => red end.

Fixpoint colors_alternate (c : Color) (cmds : list pystr) : Prop :=
  match cmds with
  | [] => True
  | cmd :: cmds' =>
      ChessParser.detect_color cmd = Ok c /\ colors_alternate (other_color c) cmds'
  end.

(** A node that holds a valid board. *)
Definition node_valid (n : ChessRecorder.ChessNode) : Prop :=
  ChessState.valid (ChessRecorder.state n).

(** Every node after the first is made from the node before it by an
    accepted move, which it records. *)
Fixpoint replays (q : ChessRecorder.ChessNodeDeque) : Prop :=
  match q with
  | n1 :: (n2 :: _) as q' =>
      (exists start end_ flag piece,
          ChessRecorder.trace n2 = Some (start, end_)
          /\ ChessChecker.check_move (ChessRecorder.state n1) start end_ flag
             = Ok true
          /\ ChessState.__getitem__ (ChessRecorder.state n1) (pos_obj start)
             = Ok piece
          /\ ChessRecorder.info_color (ChessRecorder.extra_info n2)
             = Some (piece_color piece)
          /\ ChessState.move start end_ (ChessRecorder.state n1)
             = (ChessRecorder.state n2, Ok tt))
      /\ replays q'
  | _ => True
  end.

(** Nodes that carry the given commands, in order, as descriptions. *)
Fixpoint tagged (cmds : list pystr) (added : list ChessRecorder.ChessNode)
  : Prop :=
  match cmds, added with
  | [], [] => True
  | cmd :: cmds', n :: added' =>
      ChessRecorder.info_desc (ChessRecorder.extra_info n) = Some cmd
      /\ ChessRecorder.trace n <> None
      /\ tagged cmds' added'
  | _, _ => False
  end.

(** The first node of a history is the one the constructor made. *)
Definition root_is_initial (q : ChessRecorder.ChessNodeDeque) : Prop :=
  match q with
  | root :: _ => ChessRecorder.trace root = None /\ ChessRecorder.extra_info root = ChessRecorder.no_info
  | [] => False
  end.


(** [f] applied to what a call returns; an exception passes through. *)
Definition rmap {A B} (f : A -> B) (r : result A) : result B :=
  x <- r ;; Ok (f x).

(** The other side of the board. *)
Definition opposite (side : Side) : Side :=
  match side with up => down | down => up end.

(** An arrow as it reads once the board is turned round. *)
Definition relabel_arrow (a : Arrow) : Arrow := (relabel (fst a), relabel (snd a)).

(** The reverse map of [parse_cmd], with every position relabelled. *)
Definition relabel_lists (m : pydict pystr (list Pos)) : pydict pystr (list Pos) :=
  map (fun kv => (fst kv, map relabel (snd kv))) m.


(** What [parse_cmd] has established of a move it returns, by kind of
    piece: a king, rook, cannon or pawn ends on the board, in the row or
    in the column of its start; an advisor changes row by one and an
    elephant by two; a horse makes an L. *)
Definition parser_shape (piece : pystr) (start end_ : Pos) : Prop :=
  let dx := fst end_ - fst start in
  let dy := snd end_ - snd start in
  if str_among (lower piece) [py "k"; py "r"; py "c"; py "p"] then
    ChessState.in_range end_ = true /\ (dx = 0 \/ dy = 0)
  else if str_among (lower piece) [py "a"; py "e"] then
    0 <= fst end_ <= 8
    /\ Z.abs dy = (if pystr_eqb (lower piece) (py "a") then 1 else 2)
  else
    0 <= fst end_ <= 8
    /\ ((Z.abs dx = 1 /\ Z.abs dy = 2) \/ (Z.abs dx = 2 /\ Z.abs dy = 1)).

(** What [check_move] still asks of such a move, beside distinct squares
    and no piece of the mover's colour on the destination. *)
Definition left_to_checker (s : ChessState.t) (piece : pystr) (rf : bool)
  (start end_ : Pos) : Prop :=
  let dx := fst end_ - fst start in
  let dy := snd end_ - snd start in
  let side := resolved_side piece rf in
  if str_among piece [py "R"; py "r"] then
    ChessChecker._count_between s start end_ = Ok 0
  else if str_among piece [py "H"; py "h"] then
    ChessState.__contains__ s (pos_obj (knight_leg start end_)) = false
  else if str_among piece [py "E"; py "e"] then
    Z.abs dx = 2
    /\ ChessState.__contains__ s (pos_obj (elephant_eye start end_)) = false
    /\ on_own_bank side (snd end_)
  else if str_among piece [py "A"; py "a"] then
    Z.abs dx = 1 /\ in_palace side end_
  else if str_among piece [py "K"; py "k"] then
    orthogonal_step dx dy /\ in_palace side end_
  else if str_among piece [py "C"; py "c"] then
    ChessChecker._count_between s start end_
    = Ok (if ChessState.__contains__ s (pos_obj end_) then 1 else 0)
  else
    orthogonal_step dx dy
    /\ ~ backward side dy
    /\ (on_own_bank side (snd end_) -> dx = 0).

(** An entry that [load_from_dict] lets through: its key evaluates to a
    value that [_check_key] reads as a position, and its piece is a string
    that [_check_piece] lets through. *)
Definition entry_accepted (literal_eval : pystr -> result pyval)
  (kv : pystr * pyval) : Prop :=
  exists k p v,
    literal_eval (fst kv) = Ok k
    /\ ChessState._check_key k = Ok p
    /\ snd kv = PStr v
    /\ ChessState.str_in v ChessState._VALID_PIECES = true.

(** A game in progress: the red pawn of the first column has advanced,
    and then the black one. *)
Definition after_red_pawn : ChessRecorder.t :=
  fst (ChessRecorder.move (0, 3) (0, 4) None
         (ChessRecorder.__init__ false None None)).

Definition after_black_pawn : ChessRecorder.t :=
  fst (ChessRecorder.move (0, 6) (0, 5) None after_red_pawn).

(** The same game with a checkpoint set between the two moves. *)
Definition checkpoint_then_move : ChessRecorder.t :=
  fst (ChessRecorder.move (0, 6) (0, 5) None
         (fst (ChessRecorder.set_checkpoint (py "a") after_red_pawn))).

(** * Properties *)

(** ** Equality tests *)

Lemma pos_eqb_eq (p q : Pos) : pos_eqb p q = true <-> p = q.
Proof.
  destruct p as [a b], q as [c d]; unfold pos_eqb; cbn [fst snd].
  rewrite andb_true_iff, !Z.eqb_eq. split.
  - intros [-> ->]; reflexivity.
  - intros H; inversion H; auto.
Qed.

Lemma pos_eqb_refl (p : Pos) : pos_eqb p p = true.
Proof. apply pos_eqb_eq; reflexivity. Qed.

Lemma pos_eqb_neq (p q : Pos) : pos_eqb p q = false <-> p <> q.
Proof.
  rewrite <- pos_eqb_eq. destruct (pos_eqb p q); split; congruence.
Qed.

Lemma pystr_eqb_eq (a b : pystr) : pystr_eqb a b = true <-> a = b.
Proof.
  revert b; induction a as [|x a IH]; intros [|y b]; cbn; try (split; congruence).
  rewrite andb_true_iff, N.eqb_eq, IH. split.
  - intros [-> ->]; reflexivity.
  - intros H; inversion H; auto.
Qed.

(** ** Dictionaries *)

Section DictFacts.
Context {K V : Type} (eqb : K -> K -> bool).
Hypothesis eqb_eq : forall a b, eqb a b = true <-> a = b.

Let dict := pydict K V.

Lemma eqb_same (a : K) : eqb a a = true.
Proof. apply eqb_eq; reflexivity. Qed.

Lemma eqb_diff (a b : K) : a <> b -> eqb a b = false.
Proof.
  intros H. destruct (eqb a b) eqn:E; [|reflexivity].
  apply eqb_eq in E; contradiction.
Qed.

Lemma dict_get_none (k : K) (d : dict) :
  dict_get eqb k d = None <-> ~ In k (dict_keys d).
Proof.
  induction d as [|[k' v'] d IH]; cbn.
  - tauto.
  - destruct (eqb k k') eqn:E.
    + apply eqb_eq in E; subst. split; [discriminate | intros H; elim H; auto].
    + rewrite IH. split.
      * intros H [->|H']; [rewrite eqb_same in E; discriminate | auto].
      * intros H H'; apply H; auto.
Qed.

Lemma dict_get_in (k : K) (v : V) (d : dict) :
  dict_get eqb k d = Some v -> In (k, v) d.
Proof.
  induction d as [|[k' v'] d IH]; cbn; [discriminate|].
  destruct (eqb k k') eqn:E.
  - apply eqb_eq in E; subst. intros [= ->]; auto.
  - auto.
Qed.

Lemma in_dict_get (k : K) (v : V) (d : dict) :
  NoDup (dict_keys d) -> In (k, v) d -> dict_get eqb k d = Some v.
Proof.
  induction d as [|[k' v'] d IH]; cbn; [tauto|].
  intros ND [E|H]; inversion ND as [|? ? Hn ND']; subst.
  - inversion E; subst. rewrite eqb_same; reflexivity.
  - destruct (eqb k k') eqn:E.
    + apply eqb_eq in E; subst. elim Hn.
      change k' with (fst (k', v)). apply in_map; assumption.
    + auto.
Qed.

Lemma dict_set_fresh (k : K) (v : V) (d : dict) :
  ~ In k (dict_keys d) -> dict_set eqb k v d = d ++ [(k, v)].
Proof.
  induction d as [|[k' v'] d IH]; cbn; [reflexivity|].
  intros H. rewrite eqb_diff by (intros ->; apply H; auto).
  rewrite IH by tauto. reflexivity.
Qed.

Lemma dict_get_set_same (k : K) (v : V) (d : dict) :
  dict_get eqb k (dict_set eqb k v d) = Some v.
Proof.
  induction d as [|[k' v'] d IH]; cbn.
  - rewrite eqb_same; reflexivity.
  - destruct (eqb k k') eqn:E; cbn; rewrite E; auto.
Qed.

Lemma dict_get_set_other (k k0 : K) (v : V) (d : dict) :
  k0 <> k -> dict_get eqb k0 (dict_set eqb k v d) = dict_get eqb k0 d.
Proof.
  intros Hne. induction d as [|[k' v'] d IH]; cbn.
  - rewrite eqb_diff by assumption; reflexivity.
  - destruct (eqb k k') eqn:E; cbn.
    + apply eqb_eq in E; subst. rewrite eqb_diff by assumption; reflexivity.
    + destruct (eqb k0 k'); auto.
Qed.

Lemma dict_keys_set (k : K) (v : V) (d : dict) :
  dict_keys (dict_set eqb k v d)
  = if dict_mem eqb k d then dict_keys d else dict_keys d ++ [k].
Proof.
  unfold dict_mem, dict_keys.
  induction d as [|[k' v'] d IH]; cbn; [reflexivity|].
  destruct (eqb k k') eqn:E; cbn; [reflexivity|].
  rewrite IH. destruct (dict_get eqb k d); reflexivity.
Qed.

Lemma dict_set_nodup (k : K) (v : V) (d : dict) :
  NoDup (dict_keys d) -> NoDup (dict_keys (dict_set eqb k v d)).
Proof.
  intros ND. rewrite dict_keys_set. unfold dict_mem.
  destruct (dict_get eqb k d) eqn:E; [assumption|].
  apply dict_get_none in E.
  apply NoDup_app; [assumption | repeat constructor; intros [] | ].
  intros x Hx [<-|[]]; contradiction.
Qed.

Lemma dict_get_del_same (k : K) (d : dict) :
  NoDup (dict_keys d) -> dict_get eqb k (dict_del eqb k d) = None.
Proof.
  induction d as [|[k' v'] d IH]; cbn; [reflexivity|].
  intros ND; inversion ND as [|? ? Hn ND']; subst.
  destruct (eqb k k') eqn:E; cbn.
  - apply eqb_eq in E; subst. apply dict_get_none; assumption.
  - rewrite E; auto.
Qed.

Lemma dict_get_del_other (k k0 : K) (d : dict) :
  k0 <> k -> dict_get eqb k0 (dict_del eqb k d) = dict_get eqb k0 d.
Proof.
  intros Hne. induction d as [|[k' v'] d IH]; cbn; [reflexivity|].
  destruct (eqb k k') eqn:E; cbn.
  - apply eqb_eq in E; subst. rewrite eqb_diff by assumption; reflexivity.
  - destruct (eqb k0 k'); auto.
Qed.
End DictFacts.

(** ** ChessState *)

Lemma check_key_pos (p : Pos) :
  ChessState._check_key (pos_obj p)
  = if ChessState.in_range p then Ok p
    else Raise (KeyError "Invalid key: out of board range").
Proof. destruct p; reflexivity. Qed.

Lemma getitem_pos (s : ChessState.t) (p : Pos) :
  ChessState.__getitem__ s (pos_obj p)
  = if ChessState.in_range p then
      match dict_get pos_eqb p s with
      | Some v => Ok v
      | None => Raise (KeyError "")
      end
    else Raise (KeyError "Invalid key: out of board range").
Proof.
  unfold ChessState.__getitem__. rewrite check_key_pos.
  destruct (ChessState.in_range p); reflexivity.
Qed.

Lemma getitem_ok (s : ChessState.t) (p : Pos) (v : pystr) :
  ChessState.__getitem__ s (pos_obj p) = Ok v <->
  ChessState.in_range p = true /\ dict_get pos_eqb p s = Some v.
Proof.
  rewrite getitem_pos. destruct (ChessState.in_range p).
  - destruct (dict_get pos_eqb p s); split;
      [intros [= ->]; auto | intros [_ [= ->]]; auto | discriminate | intros [_ H]; discriminate].
  - split; [discriminate | intros [H _]; discriminate].
Qed.

Lemma contains_pos (s : ChessState.t) (p : Pos) :
  ChessState.__contains__ s (pos_obj p)
  = ChessState.in_range p && dict_mem pos_eqb p s.
Proof.
  unfold ChessState.__contains__, dict_mem. rewrite getitem_pos.
  destruct (ChessState.in_range p); [|reflexivity].
  destruct (dict_get pos_eqb p s); reflexivity.
Qed.

(** [move] raises, and leaves the board as it was, when [start] holds no
    piece. *)
Lemma move_unoccupied (s : ChessState.t) (start end_ : Pos) :
  dict_mem pos_eqb start s = false ->
  ChessState.move start end_ s = (s, Raise (ValueError "No piece at start")).
Proof. intros H. unfold ChessState.move. rewrite H. reflexivity. Qed.

(** Between two different squares of the board [move] relocates the piece:
    it ends on [end_], whatever stood there is overwritten, [start] is left
    empty and no other square changes. *)
Lemma move_relocates (s : ChessState.t) (start end_ : Pos) (piece : pystr) :
  ChessState.wf s ->
  ChessState.in_range start = true ->
  ChessState.in_range end_ = true ->
  start <> end_ ->
  dict_get pos_eqb start s = Some piece ->
  ChessState.str_in piece ChessState._VALID_PIECES = true ->
  exists s',
    ChessState.move start end_ s = (s', Ok tt)
    /\ dict_get pos_eqb end_ s' = Some piece
    /\ dict_get pos_eqb start s' = None
    /\ forall p, p <> start -> p <> end_ ->
                 dict_get pos_eqb p s' = dict_get pos_eqb p s.
Proof.
  intros Hwf Hs He Hne Hget Hvalid.
  exists (dict_del pos_eqb start (dict_set pos_eqb end_ piece s)).
  assert (Hmem : dict_mem pos_eqb start (dict_set pos_eqb end_ piece s) = true).
  { unfold dict_mem.
    rewrite (dict_get_set_other pos_eqb pos_eqb_eq) by assumption.
    rewrite Hget; reflexivity. }
  split; [|split; [|split]].
  - unfold ChessState.move, dict_mem. rewrite Hget. cbn [negb].
    unfold sbind, reads. rewrite getitem_pos, Hs, Hget.
    unfold ChessState.__setitem__. rewrite check_key_pos, He.
    cbn [ChessState._check_piece]. rewrite Hvalid.
    unfold ChessState.__delitem__. rewrite check_key_pos, Hs, Hmem.
    reflexivity.
  - rewrite (dict_get_del_other pos_eqb pos_eqb_eq) by congruence.
    apply (dict_get_set_same pos_eqb pos_eqb_eq).
  - apply (dict_get_del_same pos_eqb pos_eqb_eq).
    apply (dict_set_nodup pos_eqb pos_eqb_eq); assumption.
  - intros p Hp1 Hp2.
    rewrite (dict_get_del_other pos_eqb pos_eqb_eq) by assumption.
    apply (dict_get_set_other pos_eqb pos_eqb_eq); assumption.
Qed.

(** C2. [ChessState.move] with [start = end_] on an occupied square returns
    normally and the piece is gone: [self[end] = self[start]] rewrites the
    square and [del self[start]] then empties it, where a move is to leave
    the piece formerly at [start] on [end_]. *)
Theorem move_onto_same_square_drops_piece :
  ChessState.move (0, 0) (0, 0) [((0, 0), py "R")] = ([], Ok tt).
Proof. reflexivity. Qed.

(** *** Rotation *)

Lemma relabel_involutive (p : Pos) : relabel (relabel p) = p.
Proof. destruct p as [x y]; unfold relabel; cbn [fst snd]. f_equal; lia. Qed.

Lemma relabel_injective (p q : Pos) : relabel p = relabel q -> p = q.
Proof.
  intros H. rewrite <- (relabel_involutive p), <- (relabel_involutive q).
  congruence.
Qed.

Lemma NoDup_map_relabel (l : list Pos) : NoDup l -> NoDup (map relabel l).
Proof.
  induction 1 as [|p l Hn ND IH]; cbn; constructor; [|assumption].
  rewrite in_map_iff. intros [q [Hq Hin]].
  apply relabel_injective in Hq; subst; contradiction.
Qed.

Lemma rotate_fold (l acc : ChessState.t) :
  NoDup (dict_keys acc ++ map relabel (dict_keys l)) ->
  fold_left
    (fun new_pieces kv =>
       let '((x, y), piece) := kv in
       dict_set pos_eqb (8 - x, 9 - y) piece new_pieces)
    l acc
  = acc ++ map relabel_item l.
Proof.
  revert acc. induction l as [|[[x y] v] l IH]; intros acc ND; cbn.
  - rewrite app_nil_r; reflexivity.
  - cbn in ND. pose proof (NoDup_remove_2 _ _ _ ND) as Hfresh.
    rewrite (dict_set_fresh pos_eqb pos_eqb_eq)
      by (intros H; apply Hfresh; apply in_or_app; auto).
    rewrite IH.
    + rewrite <- app_assoc; reflexivity.
    + unfold dict_keys in *. rewrite map_app, <- app_assoc. exact ND.
Qed.

Lemma rotate_pieces_map (s : ChessState.t) :
  ChessState.wf s -> ChessState.rotate_pieces s = map relabel_item s.
Proof.
  intros Hwf. unfold ChessState.rotate_pieces.
  rewrite rotate_fold; [reflexivity|].
  cbn. apply NoDup_map_relabel; exact Hwf.
Qed.

Lemma keys_relabel (s : ChessState.t) :
  dict_keys (map relabel_item s) = map relabel (dict_keys s).
Proof.
  unfold dict_keys. rewrite !map_map. reflexivity.
Qed.

Lemma dict_get_relabel (s : ChessState.t) (p : Pos) :
  dict_get pos_eqb (relabel p) (map relabel_item s) = dict_get pos_eqb p s.
Proof.
  induction s as [|[k v] s IH]; cbn; [reflexivity|].
  destruct (pos_eqb p k) eqn:E.
  - apply pos_eqb_eq in E; subst. rewrite pos_eqb_refl; reflexivity.
  - assert (pos_eqb (relabel p) (relabel k) = false) as ->; [|exact IH].
    apply pos_eqb_neq. apply pos_eqb_neq in E.
    intros H; apply E, relabel_injective, H.
Qed.

(** C9. [rotate_pieces] relabels every occupied position [(x, y)] as
    [(8 - x, 9 - y)] and keeps its piece symbol (and the iteration order);
    applied twice it gives back the board it started from. *)
Theorem rotate_pieces_involution (s : ChessState.t) :
  ChessState.wf s ->
  ChessState.rotate_pieces s = map relabel_item s
  /\ (forall x y,
        dict_get pos_eqb (8 - x, 9 - y) (ChessState.rotate_pieces s)
        = dict_get pos_eqb (x, y) s)
  /\ ChessState.rotate_pieces (ChessState.rotate_pieces s) = s.
Proof.
  intros Hwf. pose proof (rotate_pieces_map s Hwf) as Hmap.
  split; [exact Hmap|split].
  - intros x y. rewrite Hmap. apply (dict_get_relabel s (x, y)).
  - rewrite Hmap, rotate_pieces_map.
    + rewrite map_map. rewrite <- (map_id s) at 2. apply map_ext.
      intros [k v]; unfold relabel_item; cbn [fst snd].
      rewrite relabel_involutive; reflexivity.
    + unfold ChessState.wf. rewrite keys_relabel.
      apply NoDup_map_relabel; exact Hwf.
Qed.

Lemma distinct_NoDup (l : list Pos) : distinct l = true -> NoDup l.
Proof.
  induction l as [|p l IH]; cbn; [constructor|].
  rewrite andb_true_iff, negb_true_iff. intros [H1 H2].
  constructor; [|auto].
  intros Hin. assert (existsb (pos_eqb p) l = true) as E; [|congruence].
  apply existsb_exists. exists p; split; [assumption | apply pos_eqb_refl].
Qed.

Lemma rotate_pieces_involution_witness :
  ChessState.wf ChessState._DEFALUT_STATE
  /\ ChessState.rotate_pieces
       (ChessState.rotate_pieces ChessState._DEFALUT_STATE)
     = ChessState._DEFALUT_STATE.
Proof.
  assert (H : ChessState.wf ChessState._DEFALUT_STATE)
    by (apply distinct_NoDup; vm_compute; reflexivity).
  split; [exact H|].
  exact (proj2 (proj2 (rotate_pieces_involution ChessState._DEFALUT_STATE H))).
Defined.

(** ** ChessChecker *)

Lemma capture_check (s : ChessState.t) (piece : pystr) (end_ : Pos) :
  let c :=
    (if ChessState.__contains__ s (pos_obj end_) then
       target <- ChessState.__getitem__ s (pos_obj end_) ;;
       require (negb ((isupper piece && isupper target)
                      || (islower piece && islower target)))
         "Cannot capture own piece"
     else Ok tt) in
  (c = Ok tt /\ ~ captures_own s piece end_)
  \/ (c = Raise (ValueError "Cannot capture own piece")
      /\ captures_own s piece end_).
Proof.
  cbv zeta. unfold ChessState.__contains__, captures_own.
  destruct (ChessState.__getitem__ s (pos_obj end_)) as [target|e]; cbn.
  - destruct (isupper piece && isupper target || islower piece && islower target) eqn:E; cbn.
    + right. split; [reflexivity|]. exists target; auto.
    + left. split; [reflexivity|]. intros [t [[= <-] H]]. congruence.
  - left. split; [reflexivity|]. intros [t [H _]]; discriminate.
Qed.

Ltac eval_tests :=
  repeat match goal with
    | |- context [str_among (py ?p) ?l] =>
        let b := eval vm_compute in (str_among (py p) l) in
        change (str_among (py p) l) with b
    | |- context [isupper (py ?p)] =>
        let b := eval vm_compute in (isupper (py p)) in
        change (isupper (py p)) with b
    end.

Ltac split_tests :=
  repeat match goal with
    | |- context [?a =? ?b] => destruct (Z.eqb_spec a b)
    | |- context [?a <? ?b] => destruct (Z.ltb_spec a b)
    | |- context [?a <=? ?b] => destruct (Z.leb_spec a b)
    end.

Lemma in_range_bounds (p : Pos) :
  ChessState.in_range p = true <-> 0 <= fst p < 9 /\ 0 <= snd p < 10.
Proof.
  unfold ChessState.in_range, ChessState._COLS_NUM, ChessState._ROWS_NUM.
  rewrite !andb_true_iff, !Z.leb_le, !Z.ltb_lt. lia.
Qed.

(** C7. For a pawn standing on [start], [check_move] accepts the move to
    [end_] exactly when the generic preconditions hold ([start <> end_],
    no piece of the pawn's own colour on [end_]) and the move is a single
    orthogonal step, is not backward for the pawn's side, and stays in its
    column while the pawn is on its own river half (rows 0-4 for the side
    [down], rows 5-9 for [up]). *)
Theorem pawn_rule (s : ChessState.t) (start end_ : Pos) (rf : bool) (piece : pystr) :
  ChessState.__getitem__ s (pos_obj start) = Ok piece ->
  piece = py "P" \/ piece = py "p" ->
  let dx := fst end_ - fst start in
  let dy := snd end_ - snd start in
  let side := resolved_side piece rf in
  ChessChecker.check_move s start end_ rf = Ok true <->
  start <> end_
  /\ ~ captures_own s piece end_
  /\ orthogonal_step dx dy
  /\ ~ backward side dy
  /\ (own_river_half side (snd start) -> dx = 0).
Proof.
  intros Hget Hp dx dy side.
  pose proof (proj1 (getitem_ok _ _ _) Hget) as [Hin _].
  apply in_range_bounds in Hin.
  unfold ChessChecker.check_move.
  unfold ChessState.__contains__ at 1. rewrite Hget. cbn [is_ok require rbind].
  destruct (pos_eqb start end_) eqn:Ese.
  { apply pos_eqb_eq in Ese. cbn. split; [discriminate | intros [H _]; contradiction]. }
  apply pos_eqb_neq in Ese. cbn [negb require rbind].
  destruct (capture_check s piece end_) as [[-> Hc]|[-> Hc]]; cbn [rbind];
    [|split; [discriminate | tauto]].
  subst dx dy side. unfold resolved_side, piece_color.
  destruct start as [sx sy], end_ as [ex ey]. cbn [fst snd] in *.
  assert (Hne : ex <> sx \/ ey <> sy)
    by (destruct (Z.eq_dec ex sx), (Z.eq_dec ey sy); subst; auto; congruence).
  unfold orthogonal_step, backward, own_river_half.
  destruct Hp; subst piece; eval_tests; cbv iota;
    unfold ChessChecker.pair_among, existsb, pos_eqb,
      ChessChecker._check_in_side, ChessChecker.on_down_side;
    destruct rf; cbn [fst snd color_eqb side_eqb negb andb orb];
    split_tests; cbn; split;
    try discriminate; try (intros _; repeat split; try tauto; lia);
    try (intros (_ & _ & H1 & H2 & H3); exfalso; lia).
Qed.

Lemma pawn_rule_witness :
  ChessState.__getitem__ [((0, 3), py "P")] (pos_obj (0, 3)) = Ok (py "P")
  /\ (ChessChecker.check_move [((0, 3), py "P")] (0, 3) (0, 4) false = Ok true
      <->
      (0, 3) <> (0, 4)
      /\ ~ captures_own [((0, 3), py "P")] (py "P") (0, 4)
      /\ orthogonal_step (0 - 0) (4 - 3)
      /\ ~ backward (resolved_side (py "P") false) (4 - 3)
      /\ (own_river_half (resolved_side (py "P") false) 3 -> 0 - 0 = 0)).
Proof.
  split; [reflexivity|].
  apply (pawn_rule [((0, 3), py "P")] (0, 3) (0, 4) false (py "P"));
    [reflexivity | left; reflexivity].
Defined.

(** ** ChessRecorder *)

Section RecorderFacts.
Import ChessRecorder.

Lemma back_app (q : ChessNodeDeque) (n : ChessNode) : back (q ++ [n]) = Ok n.
Proof. unfold back. rewrite rev_app_distr. reflexivity. Qed.

Lemma back_ok (q : ChessNodeDeque) (n : ChessNode) :
back q = Ok n -> exists q', q = q' ++ [n].
Proof.
unfold back. destruct (rev q) as [|m l] eqn:E; [discriminate|].
intros [= ->]. exists (rev l).
rewrite <- (rev_involutive q), E. reflexivity.
Qed.

Lemma back_nil_raises (q : ChessNodeDeque) (e : exn) :
back q = Raise e -> q = [].
Proof.
unfold back. destruct (rev q) as [|m l] eqn:E; [|discriminate].
intros _. rewrite <- (rev_involutive q), E. reflexivity.
Qed.

Lemma pop_app (q : ChessNodeDeque) (n : ChessNode) :
q <> [] -> pop (q ++ [n]) = q.
Proof.
intros Hq. unfold pop. rewrite length_app, removelast_last. cbn.
destruct q; [contradiction|]. cbn [List.length].
destruct (Z.ltb_spec 1 (Z.of_nat (S (List.length q) + 1))); [reflexivity|lia].
Qed.

Lemma pop_single (n : ChessNode) : pop [n] = [n].
Proof. reflexivity. Qed.

Lemma pop_nil : pop [] = [].
Proof. reflexivity. Qed.

(** [pop] either removes the last node of a deque of two or more nodes,
  or leaves a shorter deque alone. *)
Lemma pop_cases (q : ChessNodeDeque) :
(exists q' n, q' <> [] /\ q = q' ++ [n] /\ pop q = q')
\/ ((List.length q <= 1)%nat /\ pop q = q).
Proof.
destruct (rev q) as [|n l] eqn:E.
- right. rewrite <- (rev_involutive q), E. cbn. auto.
- assert (Hq : q = rev l ++ [n])
    by (rewrite <- (rev_involutive q), E; reflexivity).
  destruct (rev l) as [|m l'] eqn:E'.
  + right. subst q. cbn. auto.
  + left. exists (m :: l'), n. subst q.
    split; [discriminate|]. split; [reflexivity|].
    apply pop_app; discriminate.
Qed.

Lemma pop_length (q : ChessNodeDeque) :
List.length (pop q) = if (1 <? List.length q)%nat then pred (List.length q)
                      else List.length q.
Proof.
destruct (Nat.ltb_spec 1 (List.length q)) as [H|H];
  destruct (pop_cases q) as [(q' & n & Hq' & -> & ->)|[Hle ->]];
  rewrite ?length_app in *; cbn [List.length] in *; try lia.
destruct q'; [contradiction|cbn [List.length] in *; lia].
Qed.

Lemma pop_prefix (q : ChessNodeDeque) :
pop q = firstn (List.length (pop q)) q.
Proof.
destruct (pop_cases q) as [(q' & n & Hq' & -> & ->)|[Hle ->]].
- rewrite firstn_app, firstn_all, Nat.sub_diag. cbn. rewrite app_nil_r; reflexivity.
- rewrite firstn_all; reflexivity.
Qed.

Lemma pop_times_length (n : nat) (q : ChessNodeDeque) :
(1 <= List.length q)%nat ->
List.length (pop_times n q) = Nat.max 1 (List.length q - n).
Proof.
revert q. induction n as [|n IH]; intros q Hq; cbn [pop_times].
- lia.
- rewrite IH; rewrite pop_length;
    destruct (Nat.ltb_spec 1 (List.length q)); lia.
Qed.

Lemma pop_times_prefix (n : nat) (q : ChessNodeDeque) :
pop_times n q = firstn (List.length (pop_times n q)) q.
Proof.
revert q. induction n as [|n IH]; intros q; cbn [pop_times].
- rewrite firstn_all; reflexivity.
- pose proof (IH (pop q)) as H.
  set (L := List.length (pop_times n (pop q))) in *.
  assert (HL : (L <= List.length (pop q))%nat).
  { subst L. rewrite H at 1. rewrite length_firstn. lia. }
  rewrite H. rewrite (pop_prefix q) at 1.
  rewrite firstn_firstn. f_equal. lia.
Qed.

Lemma extends_refl (self : t) : extends self self [].
Proof. unfold extends. rewrite app_nil_r. auto. Qed.

Lemma extends_trans (a b c : t) (l1 l2 : list ChessNode) :
extends a b l1 -> extends b c l2 -> extends a c (l1 ++ l2).
Proof.
unfold extends. intros (H1 & H2 & H3) (H4 & H5 & H6).
rewrite H4, H1, app_assoc. repeat split; congruence.
Qed.

(** The two outcomes of [move]: one node is appended, whose colour differs
  from the colour recorded in the last node; or the call raises and the
  recorder is as before. *)
Lemma move_cases (start end_ : Pos) (desc : option pystr) (self : t) :
(exists node piece new self',
    back (_history self) = Ok node
    /\ ChessState.__getitem__ (state node) (pos_obj start) = Ok piece
    /\ same_color (info_color (extra_info node)) (piece_color piece) = false
    /\ trace new = Some (start, end_)
    /\ info_color (extra_info new) = Some (piece_color piece)
    /\ extends self self' [new]
    /\ move start end_ desc self = (self', Ok tt))
\/ (exists e, move start end_ desc self = (self, Raise e)).
Proof.
unfold move.
destruct (back (_history self)) as [node|e] eqn:Eb; [|right; eauto].
destruct (ChessChecker.check_move _ _ _ _); [|right; eauto].
destruct (ChessState.__getitem__ _ _) as [piece|e] eqn:Eg; [|right; eauto].
destruct (same_color _ _) eqn:Ec; [right; eauto|].
destruct (ChessState.move _ _ _) as [new_state [[]|e]]; [|right; eauto].
left.
exists node, piece,
  (new_node new_state (Some (start, end_))
     (Some {| info_color := Some (piece_color piece);
              info_desc :=
                match desc with
                | Some d => if truthy d then Some d else None
                | None => None
                end |})),
  (with_history self
     (append new_state (Some (start, end_))
        (Some {| info_color := Some (piece_color piece);
                 info_desc :=
                   match desc with
                   | Some d => if truthy d then Some d else None
                   | None => None
                   end |}) (_history self))).
unfold extends. repeat split; try assumption; reflexivity.
Qed.

Lemma exec_cmd_cases (g strict : bool) (cmd : pystr) (self : t) :
(exists node piece new self',
    back (_history self) = Ok node
    /\ same_color (info_color (extra_info node)) (piece_color piece) = false
    /\ trace new <> None
    /\ info_color (extra_info new) = Some (piece_color piece)
    /\ extends self self' [new]
    /\ exec_cmd g strict cmd self = (self', Ok tt))
\/ (exists e, exec_cmd g strict cmd self = (self, Raise e)).
Proof.
unfold exec_cmd.
destruct (back (_history self)) as [node|e] eqn:Eb; [|right; eauto].
destruct (ChessParser.parse_cmd _ _ _ _ _) as [[start end_]|[]];
  try (right; eauto; fail).
destruct (move_cases start end_ (Some cmd) self)
  as [(node' & piece & new & self' & H1 & H2 & H3 & H4 & H5 & H6 & H7)|[e H]].
- left. exists node', piece, new, self'.
  destruct H6 as (E1 & E2 & E3).
  unfold extends. repeat split; try assumption; congruence.
- right; eauto.
Qed.

Lemma same_color_false (pre : option Color) (c : Color) :
same_color pre c = false -> pre <> Some c.
Proof.
intros H ->. cbn in H. destruct c; discriminate.
Qed.

(** *** Alternation *)

Lemma alternates_app_one (q : ChessNodeDeque) (node n : ChessNode) :
alternates (q ++ [node]) ->
info_color (extra_info node) <> info_color (extra_info n) ->
alternates ((q ++ [node]) ++ [n]).
Proof.
intros Hq Hc. induction q as [|a q IH].
- cbn. split; [intros _ _; exact Hc | exact I].
- destruct q as [|b q].
  + cbn in *. destruct Hq as [H1 _].
    split; [exact H1|]. split; [intros _ _; exact Hc | exact I].
  + cbn [app alternates] in *. destruct Hq as [H1 H2].
    split; [exact H1 | exact (IH H2)].
Qed.

Lemma alternates_prefix (q1 q2 : ChessNodeDeque) :
alternates (q1 ++ q2) -> alternates q1.
Proof.
induction q1 as [|a q1 IH]; [intros _; exact I|].
destruct q1 as [|b q1]; [intros _; exact I|].
cbn [app alternates] in *. intros [H1 H2].
split; [exact H1 | exact (IH H2)].
Qed.

Lemma alternates_pop (q : ChessNodeDeque) : alternates q -> alternates (pop q).
Proof.
destruct (pop_cases q) as [(q' & n & Hq' & -> & ->)|[Hle ->]]; [|auto].
apply alternates_prefix.
Qed.

Lemma alternates_pop_times (n : nat) (q : ChessNodeDeque) :
alternates q -> alternates (pop_times n q).
Proof.
revert q. induction n; intros q H; cbn; auto using alternates_pop.
Qed.

Lemma alternates_pop_while (fuel : nat) (target : Z) (q q' : ChessNodeDeque) :
pop_while_longer fuel target q = Some q' -> alternates q -> alternates q'.
Proof.
revert q. induction fuel as [|fuel IH]; intros q; cbn; [discriminate|].
destruct (target <? _).
- intros H Hq. apply (IH _ H). apply alternates_pop; assumption.
- intros [= <-]; auto.
Qed.

Lemma alternates_move (start end_ : Pos) (desc : option pystr) (self self' : t)
(res : result unit) :
move start end_ desc self = (self', res) ->
alternates (_history self) -> alternates (_history self').
Proof.
intros Hm Hq.
destruct (move_cases start end_ desc self)
  as [(node & piece & new & s1 & H1 & H2 & H3 & H4 & H5 & H6 & H7)|[e H]].
- rewrite H7 in Hm. injection Hm as <- <-.
  destruct H6 as (-> & _ & _). apply back_ok in H1. destruct H1 as [q' Hq'].
  rewrite Hq' in *. apply alternates_app_one; [assumption|].
  rewrite H5. apply same_color_false; assumption.
- rewrite H in Hm. injection Hm as <- <-. assumption.
Qed.

Lemma alternates_exec_cmd (g strict : bool) (cmd : pystr) (self self' : t)
(res : result unit) :
exec_cmd g strict cmd self = (self', res) ->
alternates (_history self) -> alternates (_history self').
Proof.
unfold exec_cmd.
destruct (back (_history self)) as [node|e]; [|intros [= <- <-]; auto].
destruct (ChessParser.parse_cmd _ _ _ _ _) as [[start end_]|[]];
  try (intros [= <- <-]; auto; fail).
apply alternates_move.
Qed.

Lemma alternates_exec_loop (g strict : bool) (cmds : list pystr) (self self' : t)
(res : result unit) :
exec_loop g strict cmds self = (self', res) ->
alternates (_history self) -> alternates (_history self').
Proof.
revert self. induction cmds as [|cmd cmds IH]; intros self; cbn.
- intros [= <- <-]; auto.
- unfold sbind.
  destruct (exec_cmd g strict cmd self) as [s1 [[]|e]] eqn:E.
  + intros H Hq. apply (IH _ H). eapply alternates_exec_cmd; eassumption.
  + intros [= <- <-] Hq. eapply alternates_exec_cmd; eassumption.
Qed.

Lemma alternates_call (ops : TextOps) (c : Call) (self self' : t)
(res : result unit) :
call ops c self = Some (self', res) ->
alternates (_history self) -> alternates (_history self').
Proof.
destruct c as [start end_ desc|g cmds strict|name|fuel name|steps|]; cbn.
- intros [= H]. eapply alternates_move; eassumption.
- unfold exec, sbind, reads. intros [= H]. revert H.
  destruct cmds as [text|l|];
    [destruct (ChessParser.normalize_cmds ops text)| |];
    try (intros [= <- <-]; auto; fail);
    apply alternates_exec_loop.
- intros [= <- <-]; auto.
- unfold rollback_to_checkpoint.
  destruct (dict_get _ _ _); [|intros [= <- <-]; auto].
  destruct (pop_while_longer _ _ _) eqn:E; [|discriminate].
  intros [= <- <-] Hq. cbn. eapply alternates_pop_while; eassumption.
- unfold rollback. destruct (steps <? 0); intros [= <- <-]; auto.
  cbn. apply alternates_pop_times.
- intros [= <- <-]; auto.
Qed.

(** C3. In every recorder reached from the constructor by [move], [exec],
  [set_checkpoint], [rollback_to_checkpoint], [rollback] and [rotate],
  whether the calls returned or raised, two consecutive history nodes
  that both carry a trace record different mover colours; and [move]
  raises, leaving the recorder as it was, when the colour of the piece on
  [start] is the colour recorded in the last node. *)
Theorem alternation_invariant (ops : TextOps) :
(forall self, reachable ops self -> alternates (_history self))
/\ (forall self start end_ desc node piece,
      back (_history self) = Ok node ->
      ChessState.__getitem__ (state node) (pos_obj start) = Ok piece ->
      info_color (extra_info node) = Some (piece_color piece) ->
      exists e, move start end_ desc self = (self, Raise e)).
Proof.
split.
- induction 1 as [g st rf|c self self' res Hr IH Hc].
  + cbn. exact I.
  + eapply alternates_call; eassumption.
- intros self start end_ desc node piece Hb Hg Hc.
  destruct (move_cases start end_ desc self)
    as [(node' & piece' & new & s1 & H1 & H2 & H3 & _)|H]; [|exact H].
  exfalso. rewrite Hb in H1. injection H1 as <-.
  rewrite Hg in H2. injection H2 as <-.
  rewrite Hc in H3. cbn in H3. destruct (piece_color piece); discriminate.
Qed.

(** *** What the calls do to the history *)

Lemma exec_cmd_raise (g strict : bool) (cmd : pystr) (self self' : t) (e : exn) :
exec_cmd g strict cmd self = (self', Raise e) -> self' = self.
Proof.
intros H.
destruct (exec_cmd_cases g strict cmd self)
  as [(node & piece & new & s1 & _ & _ & _ & _ & _ & H')|[e' H']];
  rewrite H' in H; congruence.
Qed.

Lemma exec_cmd_ok (g strict : bool) (cmd : pystr) (self self' : t) :
exec_cmd g strict cmd self = (self', Ok tt) ->
exists new, extends self self' [new] /\ _history self <> [].
Proof.
intros H.
destruct (exec_cmd_cases g strict cmd self)
  as [(node & piece & new & s1 & Hb & _ & _ & _ & He & H')|[e' H']];
  rewrite H' in H; [|discriminate].
injection H as <-. exists new. split; [assumption|].
intros E. rewrite E in Hb. discriminate.
Qed.

Lemma exec_loop_app (g strict : bool) (pre rest : list pystr) (self : t) :
exec_loop g strict (pre ++ rest) self
= match exec_loop g strict pre self with
  | (self1, Ok _) => exec_loop g strict rest self1
  | (self1, Raise e) => (self1, Raise e)
  end.
Proof.
revert self. induction pre as [|cmd pre IH]; intros self; cbn; [reflexivity|].
unfold sbind. destruct (exec_cmd g strict cmd self) as [s1 [[]|e]]; auto.
Qed.

(** A run of the loop of [exec] appends one node for each command it
  completes, and nothing else. *)
Lemma exec_loop_extends (g strict : bool) (cmds : list pystr) (self self' : t)
(res : result unit) :
exec_loop g strict cmds self = (self', res) ->
exists added,
  extends self self' added
  /\ (_history self = [] -> added = [])
  /\ (res = Ok tt -> List.length added = List.length cmds).
Proof.
revert self. induction cmds as [|cmd cmds IH]; intros self; cbn.
- intros [= <- <-]. exists []. split; [apply extends_refl|auto].
- unfold sbind. destruct (exec_cmd g strict cmd self) as [s1 [[]|e]] eqn:E.
  + intros H. destruct (IH _ H) as (added & He & Hn & Hl).
    destruct (exec_cmd_ok _ _ _ _ _ E) as (new & He1 & Hne).
    exists ([new] ++ added). split; [eapply extends_trans; eassumption|].
    split; [contradiction|]. intros Hr. cbn. rewrite (Hl Hr). reflexivity.
  + intros [= <- <-]. apply exec_cmd_raise in E. subst s1.
    exists []. split; [apply extends_refl|]. split; [auto|discriminate].
Qed.

Lemma move_extends (start end_ : Pos) (desc : option pystr) (self self' : t)
(res : result unit) :
move start end_ desc self = (self', res) ->
exists added, extends self self' added /\ (_history self = [] -> added = []).
Proof.
intros Hm.
destruct (move_cases start end_ desc self)
  as [(node & piece & new & s1 & H1 & _ & _ & _ & _ & H6 & H7)|[e H]];
  rewrite ?H7, ?H in Hm; injection Hm as <- <-.
- exists [new]. split; [assumption|]. intros E. rewrite E in H1. discriminate.
- exists []. split; [apply extends_refl|auto].
Qed.

Lemma exec_extends (ops : TextOps) (g : bool) (cmds : Cmds) (strict : bool)
(self self' : t) (res : result unit) :
exec ops g cmds strict self = (self', res) ->
exists added, extends self self' added /\ (_history self = [] -> added = []).
Proof.
unfold exec, sbind, reads.
destruct cmds as [text|l|];
  [destruct (ChessParser.normalize_cmds ops text)| |];
  try (intros [= <- <-]; exists []; split; [apply extends_refl|auto]; fail);
  intros H; destruct (exec_loop_extends _ _ _ _ _ _ H) as (added & H1 & H2 & _);
  eauto.
Qed.

Lemma calls_extend (ops : TextOps) (cs : list Call) (self : t) :
Forall is_move_or_exec cs ->
exists self' added,
  calls ops cs self = Some self'
  /\ extends self self' added
  /\ (_history self = [] -> added = []).
Proof.
intros Hcs. revert self. induction Hcs as [|c cs Hc Hcs IH]; intros self.
- exists self, []. split; [reflexivity|]. split; [apply extends_refl|auto].
- assert (exists s1 res added,
            call ops c self = Some (s1, res)
            /\ extends self s1 added /\ (_history self = [] -> added = []))
    as (s1 & res & added & Hcall & He & Hn).
  { destruct c as [start end_ desc|g cmds strict| | | |];
      try contradiction; cbn [call].
    - destruct (move start end_ desc self) as [s1 res] eqn:E.
      destruct (move_extends _ _ _ _ _ _ E) as (added & H1 & H2).
      exists s1, res, added. split; [reflexivity|]. split; assumption.
    - destruct (exec ops g cmds strict self) as [s1 res] eqn:E.
      destruct (exec_extends _ _ _ _ _ _ _ E) as (added & H1 & H2).
      exists s1, res, added. split; [reflexivity|]. split; assumption. }
  destruct (IH s1) as (s2 & added' & Hcalls & He' & Hn').
  exists s2, (added ++ added'). cbn [calls]. rewrite Hcall.
  split; [assumption|]. split; [eapply extends_trans; eassumption|].
  intros E. rewrite (Hn E) in *. destruct He as (He & _ & _).
  rewrite E in He. cbn in He. rewrite (Hn' He). reflexivity.
Qed.

Lemma pop_while_app (h added : ChessNodeDeque) :
(h = [] -> added = []) ->
forall fuel, (List.length added < fuel)%nat ->
  pop_while_longer fuel (Z.of_nat (List.length h)) (h ++ added) = Some h.
Proof.
induction added as [|n added IH] using rev_ind; intros Hn fuel Hf.
- destruct fuel; [lia|]. cbn. rewrite app_nil_r, Z.ltb_irrefl. reflexivity.
- destruct fuel; [lia|]. cbn [pop_while_longer].
  rewrite length_app in Hf. cbn in Hf.
  assert (Hh : h <> []) by (intros E; apply Hn in E; destruct added; discriminate).
  rewrite app_assoc.
  assert ((Z.of_nat (List.length h)
           <? Z.of_nat (List.length ((h ++ added) ++ [n]))) = true) as ->.
  { apply Z.ltb_lt. rewrite !length_app. cbn. lia. }
  rewrite pop_app by (destruct h; [contradiction|discriminate]).
  apply IH; [intros; contradiction|lia].
Qed.

Lemma with_history_same (self : t) : with_history self (_history self) = self.
Proof. destruct self; reflexivity. Qed.

(** C4. After [set_checkpoint name] and any sequence of [move] and [exec]
  calls (returning or raising), [rollback_to_checkpoint name] ends, and
  gives back the history of checkpoint time: the same nodes, hence the
  same length and the same last state. With a name that has no
  checkpoint it raises and leaves the recorder as it was. *)
Theorem checkpoint_exactness (ops : TextOps) :
(forall self name cs,
    Forall is_move_or_exec cs ->
    exists self1 self2 fuel0,
      set_checkpoint name self = (self1, Ok tt)
      /\ calls ops cs self1 = Some self2
      /\ forall fuel, (fuel0 <= fuel)%nat ->
           exists self3,
             rollback_to_checkpoint fuel name self2 = Some (self3, Ok tt)
             /\ _history self3 = _history self
             /\ List.length (_history self3) = List.length (_history self)
             /\ last self3 = last self)
/\ (forall self name fuel,
      dict_get pystr_eqb name (_checkpoints self) = None ->
      rollback_to_checkpoint fuel name self
      = Some (self, Raise (KeyError "Checkpoint not found"))).
Proof.
split.
- intros self name cs Hcs.
  destruct (calls_extend ops cs (fst (set_checkpoint name self)) Hcs)
    as (self2 & added & Hcalls & (Hh & Hf & Hc) & Hn).
  exists (fst (set_checkpoint name self)), self2, (S (List.length added)).
  split; [reflexivity|]. split; [assumption|].
  intros fuel Hfuel. cbn in Hh, Hc, Hn.
  exists (with_history self2 (_history self)).
  unfold rollback_to_checkpoint. rewrite Hc.
  rewrite (dict_get_set_same pystr_eqb pystr_eqb_eq).
  rewrite Hh, pop_while_app by (auto; lia).
  repeat split; reflexivity.
- intros self name fuel H. unfold rollback_to_checkpoint. rewrite H. reflexivity.
Qed.

(** C5. When the commands that [exec] runs (the non-empty entries of its
  list, or of the normalized text) are [pre], then [cmd], then [post],
  the commands of [pre] all complete and [cmd] raises, [exec] raises
  that exception at once; the recorder it leaves is the one reached
  after [pre], whose history is the initial one followed by exactly one
  node for each command of [pre]. *)
Theorem exec_stops_at_first_failure (ops : TextOps) (g strict : bool)
(cmds : Cmds) (l pre post : list pystr) (cmd : pystr) (self self1 : t)
(e : exn) :
(cmds = CmdsSeq l
 \/ exists text, cmds = CmdsStr text /\ ChessParser.normalize_cmds ops text = Ok l) ->
filter truthy l = pre ++ cmd :: post ->
exec_loop g strict pre self = (self1, Ok tt) ->
snd (exec_cmd g strict cmd self1) = Raise e ->
exec ops g cmds strict self = (self1, Raise e)
/\ exists added,
     extends self self1 added
     /\ List.length added = List.length pre.
Proof.
intros Hcmds Hl Hpre Hcmd. split.
- assert (exec ops g cmds strict self = exec_loop g strict (filter truthy l) self) as ->.
  { unfold exec, sbind, reads.
    destruct Hcmds as [->|(text & -> & ->)]; reflexivity. }
  rewrite Hl, exec_loop_app, Hpre. cbn [exec_loop]. unfold sbind.
  destruct (exec_cmd g strict cmd self1) as [s2 [[]|e']] eqn:E; cbn in Hcmd;
    [discriminate|].
  injection Hcmd as ->. apply exec_cmd_raise in E. subst s2. reflexivity.
- destruct (exec_loop_extends _ _ _ _ _ _ Hpre) as (added & He & _ & Hlen).
  exists added. auto.
Qed.

Lemma pop_nonempty (q : ChessNodeDeque) :
(1 <= List.length q)%nat -> (1 <= List.length (pop q))%nat.
Proof.
intros H. rewrite pop_length.
destruct (Nat.ltb_spec 1 (List.length q)); lia.
Qed.

Lemma pop_while_nonempty (fuel : nat) (target : Z) (q q' : ChessNodeDeque) :
pop_while_longer fuel target q = Some q' ->
(1 <= List.length q)%nat -> (1 <= List.length q')%nat.
Proof.
revert q. induction fuel as [|fuel IH]; intros q; cbn; [discriminate|].
destruct (target <? _).
- intros H Hq. apply (IH _ H). apply pop_nonempty; assumption.
- intros [= <-]; auto.
Qed.

Lemma extends_nonempty (self self' : t) (added : list ChessNode) :
extends self self' added ->
(1 <= List.length (_history self))%nat ->
(1 <= List.length (_history self'))%nat.
Proof.
intros (H & _ & _) Hq. rewrite H, length_app. lia.
Qed.

Lemma call_nonempty (ops : TextOps) (c : Call) (self self' : t)
(res : result unit) :
call ops c self = Some (self', res) ->
(1 <= List.length (_history self))%nat ->
(1 <= List.length (_history self'))%nat.
Proof.
destruct c as [start end_ desc|g cmds strict|name|fuel name|steps|]; cbn.
- intros [= H]. destruct (move_extends _ _ _ _ _ _ H) as (added & He & _).
  eapply extends_nonempty; eassumption.
- intros [= H]. destruct (exec_extends _ _ _ _ _ _ _ H) as (added & He & _).
  eapply extends_nonempty; eassumption.
- intros [= <- <-]; auto.
- unfold rollback_to_checkpoint.
  destruct (dict_get _ _ _); [|intros [= <- <-]; auto].
  destruct (pop_while_longer _ _ _) eqn:E; [|discriminate].
  intros [= <- <-] Hq. cbn. eapply pop_while_nonempty; eassumption.
- unfold rollback. destruct (steps <? 0); intros [= <- <-]; auto.
  cbn. intros Hq. rewrite pop_times_length by assumption. lia.
- intros [= <- <-]; auto.
Qed.

(** C6. [rollback] raises on a negative count and leaves the recorder as
  it was; otherwise it removes [steps] nodes from the tail, or all but
  the first node when there are fewer to remove. On a history of length
  3, [rollback(2)] leaves length 1 and a further [rollback(5)] returns
  without any change. The history of a reachable recorder is never
  empty. *)
Theorem rollback_keeps_root (ops : TextOps) :
(forall self steps,
    steps < 0 ->
    rollback steps self = (self, Raise (ValueError "Steps must be non-negative")))
/\ (forall self steps,
      0 <= steps ->
      (1 <= List.length (_history self))%nat ->
      exists self',
        rollback steps self = (self', Ok tt)
        /\ _history self'
           = firstn (Nat.max 1 (List.length (_history self) - Z.to_nat steps))
               (_history self)
        /\ List.length (_history self')
           = Nat.max 1 (List.length (_history self) - Z.to_nat steps))
/\ (forall self,
      List.length (_history self) = 3%nat ->
      exists self',
        rollback 2 self = (self', Ok tt)
        /\ List.length (_history self') = 1%nat
        /\ rollback 5 self' = (self', Ok tt))
/\ (forall self, reachable ops self -> (1 <= List.length (_history self))%nat).
Proof.
split; [|split; [|split]].
- intros self steps H. unfold rollback.
  destruct (Z.ltb_spec steps 0); [reflexivity|lia].
- intros self steps H Hq. unfold rollback.
  destruct (Z.ltb_spec steps 0); [lia|].
  eexists; split; [reflexivity|]. cbn [_history with_history].
  rewrite <- (pop_times_length _ _ Hq). split; [|reflexivity].
  apply pop_times_prefix.
- intros self H3.
  destruct self as [q rf cp]. cbn in H3.
  destruct q as [|a [|b [|c [|d q]]]]; try discriminate.
  eexists; split; [reflexivity|]. split; reflexivity.
- induction 1 as [g st rf|c self self' res Hr IH Hc].
  + cbn. lia.
  + eapply call_nonempty; eassumption.
Qed.

End RecorderFacts.

(** *** Witnesses on the standard opening board *)

Lemma after_red_pawn_reachable : ChessRecorder.reachable bare_ops after_red_pawn.
Proof.
  apply (ChessRecorder.reach_call bare_ops
           (ChessRecorder.CallMove (0, 3) (0, 4) None)
           (ChessRecorder.__init__ false None None) _ (Ok tt)).
  - apply ChessRecorder.reach_init.
  - vm_compute. reflexivity.
Qed.

Lemma after_black_pawn_reachable :
  ChessRecorder.reachable bare_ops after_black_pawn.
Proof.
  apply (ChessRecorder.reach_call bare_ops
           (ChessRecorder.CallMove (0, 6) (0, 5) None) after_red_pawn _ (Ok tt)).
  - apply after_red_pawn_reachable.
  - vm_compute. reflexivity.
Qed.

Lemma checkpoint_then_move_reachable :
  ChessRecorder.reachable bare_ops checkpoint_then_move.
Proof.
  apply (ChessRecorder.reach_call bare_ops
           (ChessRecorder.CallMove (0, 6) (0, 5) None)
           (fst (ChessRecorder.set_checkpoint (py "a") after_red_pawn)) _ (Ok tt)).
  - apply (ChessRecorder.reach_call bare_ops
             (ChessRecorder.CallSetCheckpoint (py "a")) after_red_pawn _ (Ok tt)).
    + apply after_red_pawn_reachable.
    + reflexivity.
  - vm_compute. reflexivity.
Qed.

Lemma alternation_invariant_witness :
  ChessRecorder.reachable bare_ops after_black_pawn
  /\ map ChessRecorder.trace (ChessRecorder._history after_black_pawn)
     = [None; Some ((0, 3), (0, 4)); Some ((0, 6), (0, 5))]
  /\ map (fun n => ChessRecorder.info_color (ChessRecorder.extra_info n))
       (ChessRecorder._history after_black_pawn)
     = [None; Some red; Some black]
  /\ ChessRecorder.alternates (ChessRecorder._history after_black_pawn)
  /\ exists node,
       ChessRecorder.back (ChessRecorder._history after_red_pawn) = Ok node
       /\ ChessState.__getitem__ (ChessRecorder.state node) (pos_obj (2, 3))
          = Ok (py "P")
       /\ ChessRecorder.info_color (ChessRecorder.extra_info node)
          = Some (piece_color (py "P"))
       /\ exists e,
            ChessRecorder.move (2, 3) (2, 4) None after_red_pawn
            = (after_red_pawn, Raise e).
Proof.
  split; [exact after_black_pawn_reachable|].
  split; [vm_compute; reflexivity|]. split; [vm_compute; reflexivity|].
  split; [exact (proj1 (alternation_invariant bare_ops) _
                   after_black_pawn_reachable)|].
  eexists.
  refine ((fun Hb Hg Hc =>
             conj Hb (conj Hg (conj Hc
               (proj2 (alternation_invariant bare_ops) after_red_pawn
                  (2, 3) (2, 4) None _ (py "P") Hb Hg Hc)))) _ _ _).
  - cbv. reflexivity.
  - vm_compute. reflexivity.
  - vm_compute. reflexivity.
Defined.

Lemma checkpoint_exactness_witness :
  Forall ChessRecorder.is_move_or_exec
    [ChessRecorder.CallMove (0, 3) (0, 4) None]
  /\ exists self1 self2 fuel0,
       ChessRecorder.set_checkpoint (py "a")
         (ChessRecorder.__init__ false None None) = (self1, Ok tt)
       /\ ChessRecorder.calls bare_ops
            [ChessRecorder.CallMove (0, 3) (0, 4) None] self1 = Some self2
       /\ forall fuel, (fuel0 <= fuel)%nat ->
            exists self3,
              ChessRecorder.rollback_to_checkpoint fuel (py "a") self2
              = Some (self3, Ok tt)
              /\ ChessRecorder._history self3
                 = ChessRecorder._history (ChessRecorder.__init__ false None None)
              /\ List.length (ChessRecorder._history self3)
                 = List.length
                     (ChessRecorder._history
                        (ChessRecorder.__init__ false None None))
              /\ ChessRecorder.last self3
                 = ChessRecorder.last (ChessRecorder.__init__ false None None).
Proof.
  assert (H : Forall ChessRecorder.is_move_or_exec
                [ChessRecorder.CallMove (0, 3) (0, 4) None])
    by (repeat constructor).
  split; [exact H|].
  exact (proj1 (checkpoint_exactness bare_ops)
           (ChessRecorder.__init__ false None None) (py "a")
           [ChessRecorder.CallMove (0, 3) (0, 4) None] H).
Defined.

Lemma exec_stops_at_first_failure_witness :
  let self := ChessRecorder.__init__ false None None in
  let self1 := fst (ChessRecorder.exec_loop false false [pao_er_ping_wu] self) in
  ChessRecorder.exec bare_ops false
    (ChessRecorder.CmdsSeq [pao_er_ping_wu; pao_er_ping_wu]) false self
  = (self1, Raise (ValueError "Invalid cmd detected"))
  /\ exists added,
       ChessRecorder.extends self self1 added
       /\ List.length added = 1%nat.
Proof.
  cbv zeta.
  apply (exec_stops_at_first_failure bare_ops false false
           (ChessRecorder.CmdsSeq [pao_er_ping_wu; pao_er_ping_wu])
           [pao_er_ping_wu; pao_er_ping_wu] [pao_er_ping_wu] []
           pao_er_ping_wu).
  - left; reflexivity.
  - reflexivity.
  - vm_compute. reflexivity.
  - vm_compute. reflexivity.
Defined.

Lemma rollback_keeps_root_witness :
  ChessRecorder.reachable bare_ops after_black_pawn
  /\ List.length (ChessRecorder._history after_black_pawn) = 3%nat
  /\ ChessRecorder.rollback (-1) after_black_pawn
     = (after_black_pawn, Raise (ValueError "Steps must be non-negative"))
  /\ (exists self',
         ChessRecorder.rollback 1 after_black_pawn = (self', Ok tt)
         /\ ChessRecorder._history self'
            = firstn (Nat.max 1
                        (List.length (ChessRecorder._history after_black_pawn)
                         - Z.to_nat 1))
                (ChessRecorder._history after_black_pawn)
         /\ List.length (ChessRecorder._history self')
            = Nat.max 1
                (List.length (ChessRecorder._history after_black_pawn)
                 - Z.to_nat 1))
  /\ (exists self',
         ChessRecorder.rollback 2 after_black_pawn = (self', Ok tt)
         /\ List.length (ChessRecorder._history self') = 1%nat
         /\ ChessRecorder.rollback 5 self' = (self', Ok tt))
  /\ (1 <= List.length (ChessRecorder._history after_black_pawn))%nat.
Proof.
  assert (H3 : List.length (ChessRecorder._history after_black_pawn) = 3%nat)
    by (vm_compute; reflexivity).
  assert (H1 : (1 <= List.length (ChessRecorder._history after_black_pawn))%nat)
    by (rewrite H3; lia).
  split; [exact after_black_pawn_reachable|]. split; [exact H3|].
  split; [exact (proj1 (rollback_keeps_root bare_ops) after_black_pawn (-1)
                   ltac:(lia))|].
  split; [exact (proj1 (proj2 (rollback_keeps_root bare_ops))
                   after_black_pawn 1 ltac:(lia) H1)|].
  split; [exact (proj1 (proj2 (proj2 (rollback_keeps_root bare_ops)))
                   after_black_pawn H3)|].
  exact (proj2 (proj2 (proj2 (rollback_keeps_root bare_ops))) _
           after_black_pawn_reachable).
Defined.

(** ** ChessStateIO *)

Lemma pos_obj_injective (p q : Pos) : pos_obj p = pos_obj q -> p = q.
Proof. destruct p, q; cbn. intros [= -> ->]; reflexivity. Qed.

Lemma str_in_char (c : N) (l : pystr) :
  In c l -> ChessState.str_in [c] l = true.
Proof.
  induction l as [|d l IH]; cbn; [tauto|].
  intros [->|H].
  - rewrite N.eqb_refl. reflexivity.
  - rewrite (IH H). apply orb_true_r.
Qed.

Lemma alphabet_valid (v : pystr) :
  In v ChessState.alphabet -> ChessState.str_in v ChessState._VALID_PIECES = true.
Proof.
  unfold ChessState.alphabet. rewrite in_map_iff.
  intros (c & <- & Hc). apply str_in_char; assumption.
Qed.

Lemma is_prefix_chars (a b : pystr) (c : N) :
  ChessState.is_prefix a b = true -> In c a -> In c b.
Proof.
  revert b. induction a as [|x a IH]; intros b; [intros _ []|].
  destruct b as [|y b]; cbn; [discriminate|].
  rewrite andb_true_iff. intros [E H] [->|Hin].
  - left. destruct (N.eqb_spec c y); [congruence|discriminate].
  - right. apply IH; assumption.
Qed.

Lemma str_in_chars (a b : pystr) (c : N) :
  ChessState.str_in a b = true -> In c a -> In c b.
Proof.
  induction b as [|y b IH]; cbn [ChessState.str_in];
    rewrite orb_true_iff; intros [H|H] Hin.
  - eapply is_prefix_chars; eassumption.
  - discriminate.
  - eapply is_prefix_chars; eassumption.
  - right. apply IH; assumption.
Qed.

Lemma check_key_int_pair (k : pyval) (p : Pos) :
  ChessState._check_key k = Ok p -> is_int_pair k.
Proof.
  unfold ChessState._check_key.
  destruct k as [| | |[|a [|b [|]]]|]; try discriminate.
  destruct (as_int a) as [x|] eqn:Ea; [|discriminate].
  destruct (as_int b) as [y|] eqn:Eb; [|discriminate].
  intros _. exists a, b, x, y. auto.
Qed.

Lemma check_piece_ok (piece : pyval) (v : pystr) :
  ChessState._check_piece piece = Ok v <->
  piece = PStr v /\ ChessState.str_in v ChessState._VALID_PIECES = true.
Proof.
  unfold ChessState._check_piece. destruct piece; try (split; [discriminate|intros [H _]; discriminate]).
  destruct (ChessState.str_in x ChessState._VALID_PIECES) eqn:E; split.
  - intros [= <-]. auto.
  - intros [[= <-] _]. reflexivity.
  - discriminate.
  - intros [[= <-] H]. congruence.
Qed.

Section RoundTrip.
Variable literal_eval : pystr -> result pyval.
Hypothesis literal_eval_str_pos :
  forall p, ChessState.in_range p = true ->
            literal_eval (ChessStateIO.str_pos p) = Ok (pos_obj p).

Lemma str_pos_injective (p q : Pos) :
  ChessState.in_range p = true -> ChessState.in_range q = true ->
  ChessStateIO.str_pos p = ChessStateIO.str_pos q -> p = q.
Proof.
  intros Hp Hq E. apply pos_obj_injective.
  apply literal_eval_str_pos in Hp, Hq. congruence.
Qed.

Lemma save_fold (l : ChessState.t) (acc : pydict pystr pyval) :
  ChessState.keys_in_range l ->
  NoDup (dict_keys l) ->
  (forall k, In k (dict_keys l) -> ~ In (ChessStateIO.str_pos k) (dict_keys acc)) ->
  fold_left
    (fun d kv => dict_set pystr_eqb (ChessStateIO.str_pos (fst kv)) (PStr (snd kv)) d)
    l acc
  = acc ++ map token_item l.
Proof.
  revert acc. induction l as [|[k v] l IH]; intros acc Hr ND Hf; cbn.
  - rewrite app_nil_r; reflexivity.
  - inversion ND as [|? ? Hn ND']; subst.
    rewrite (dict_set_fresh pystr_eqb pystr_eqb_eq) by (apply Hf; left; reflexivity).
    rewrite IH.
    + rewrite <- app_assoc. reflexivity.
    + intros p w Hin. apply (Hr p w). right; assumption.
    + assumption.
    + intros k' Hk'. unfold dict_keys. rewrite map_app, in_app_iff.
      intros [H|[H|[]]].
      * apply (Hf k'); [right; assumption|exact H].
      * cbn in H. apply str_pos_injective in H.
        -- subst k'. contradiction.
        -- apply (Hr k v). left; reflexivity.
        -- unfold dict_keys in Hk'. apply in_map_iff in Hk'.
           destruct Hk' as ([k2 v2] & <- & Hin). apply (Hr k2 v2). right; assumption.
Qed.

Lemma save_to_dict_map (s : ChessState.t) :
  ChessState.wf s -> ChessState.keys_in_range s ->
  ChessStateIO.save_to_dict s = map token_item s.
Proof.
  intros Hwf Hr. unfold ChessStateIO.save_to_dict.
  rewrite save_fold; auto.
Qed.

Lemma load_items_tokens (l acc : ChessState.t) :
  ChessState.keys_in_range l ->
  ChessState.values_in_alphabet l ->
  NoDup (dict_keys acc ++ dict_keys l) ->
  ChessStateIO.load_items literal_eval (map token_item l) acc
  = (acc ++ l, Ok tt).
Proof.
  revert acc. induction l as [|[k v] l IH]; intros acc Hr Hv ND.
  - cbn. rewrite app_nil_r; reflexivity.
  - change (map token_item ((k, v) :: l))
      with ((ChessStateIO.str_pos k, PStr v) :: map token_item l).
    cbn [ChessStateIO.load_items]. unfold sbind, reads.
    rewrite literal_eval_str_pos by (apply (Hr k v); left; reflexivity).
    unfold ChessState.__setitem__.
    rewrite check_key_pos, (Hr k v) by (left; reflexivity).
    cbn [ChessState._check_piece].
    rewrite alphabet_valid by (apply (Hv k v); left; reflexivity).
    cbn in ND. pose proof (NoDup_remove_2 _ _ _ ND) as Hfresh.
    rewrite (dict_set_fresh pos_eqb pos_eqb_eq)
      by (intros H; apply Hfresh; apply in_or_app; auto).
    rewrite IH.
    + rewrite <- app_assoc. reflexivity.
    + intros p w Hin. apply (Hr p w). right; assumption.
    + intros p w Hin. apply (Hv p w). right; assumption.
    + unfold dict_keys in *. rewrite map_app, <- app_assoc. exact ND.
Qed.

(** A board whose keys are in range and whose values are symbols of
    the alphabet is read back exactly, items and order, from the
    dictionary that [save_to_dict] writes for it, so the two boards are
    equal. *)
Lemma save_load_round_trip (g : bool) (s : ChessState.t) :
  ChessState.wf s ->
  ChessState.keys_in_range s ->
  ChessState.values_in_alphabet s ->
  exists s',
    ChessStateIO.load_from_dict literal_eval g (ChessStateIO.save_to_dict s)
    = Ok s'
    /\ s' = s
    /\ ChessState.eq s' s.
Proof.
  intros Hwf Hr Hv. exists s.
  split; [|split; [reflexivity|intros p; reflexivity]].
  unfold ChessStateIO.load_from_dict.
  assert (ChessState.__init__ g true None = []) as ->
    by (destruct g; reflexivity).
  rewrite save_to_dict_map, load_items_tokens by assumption.
  reflexivity.
Qed.

Lemma load_items_returns (data : pydict pystr pyval) :
  forall st,
    is_ok (snd (ChessStateIO.load_items literal_eval data st)) = true <->
    Forall (entry_accepted literal_eval) data.
Proof.
  induction data as [|[key piece] data IH]; intros st.
  - cbn. split; [constructor|reflexivity].
  - cbn [ChessStateIO.load_items]. unfold sbind at 1, reads.
    destruct (literal_eval key) as [k|e] eqn:Ek.
    + unfold sbind, ChessState.__setitem__.
      destruct (ChessState._check_key k) as [p|e] eqn:Ec.
      * destruct (ChessState._check_piece piece) as [v|e] eqn:Ep.
        -- rewrite IH. apply check_piece_ok in Ep. destruct Ep as [-> Ev].
           split; [intros H; constructor; [|exact H]|intros H; inversion H; assumption].
           exists k, p, v. auto.
        -- cbn. split; [discriminate|]. intros H. inversion H as [|? ? Ha _]; subst.
           destruct Ha as (k' & p' & v' & E1 & E2 & E3 & E4). cbn [fst snd] in *.
           assert (ChessState._check_piece piece = Ok v')
             by (apply check_piece_ok; auto).
           congruence.
      * cbn. split; [discriminate|]. intros H. inversion H as [|? ? Ha _]; subst.
        destruct Ha as (k' & p' & v' & E1 & E2 & _). cbn [fst snd] in *. congruence.
    + cbn. split; [discriminate|]. intros H. inversion H as [|? ? Ha _]; subst.
      destruct Ha as (k' & p' & v' & E1 & _). cbn [fst snd] in *. congruence.
Qed.

Lemma load_from_dict_returns (g : bool) (data : pydict pystr pyval) :
  is_ok (ChessStateIO.load_from_dict literal_eval g data) = true <->
  Forall (entry_accepted literal_eval) data.
Proof.
  rewrite <- (load_items_returns data (ChessState.__init__ g true None)).
  unfold ChessStateIO.load_from_dict.
  destruct (ChessStateIO.load_items literal_eval data _) as [st' [[]|e]];
    reflexivity.
Qed.

(** C8. [load_from_dict] returns exactly when every entry has a key that
    evaluates to a pair of integers on the board (a boolean counts as an
    integer) and a piece that is a string occurring in [_VALID_PIECES] as
    a substring. So it raises on a token that does not evaluate to a pair
    of integers, or evaluates to a pair off the board, on a piece that is
    not a string, and on a string with a character that is not one of the
    fourteen symbols; but it returns a board holding [Rr], and one
    holding the empty string, neither of which is one of the fourteen
    symbols. *)
Theorem load_from_dict_accepts_substrings :
  (forall g data,
      is_ok (ChessStateIO.load_from_dict literal_eval g data) = true <->
      Forall (entry_accepted literal_eval) data)
  /\ (forall g data key piece,
        In (key, piece) data ->
        (forall v, literal_eval key = Ok v -> ~ is_int_pair v)
        \/ (exists p,
               literal_eval key = Ok (pos_obj p)
               /\ ChessState.in_range p = false)
        \/ (forall v, piece <> PStr v)
        \/ (exists v c,
               piece = PStr v /\ In c v /\ ~ In c ChessState._VALID_PIECES) ->
        exists e, ChessStateIO.load_from_dict literal_eval g data = Raise e)
  /\ (forall g,
        ChessStateIO.load_from_dict literal_eval g
          [(py "(0, 0)", PStr (py "Rr"))]
        = Ok [((0, 0), py "Rr")]
        /\ ChessStateIO.load_from_dict literal_eval g [(py "(0, 0)", PStr [])]
           = Ok [((0, 0), [])])
  /\ ~ In (py "Rr") ChessState.alphabet
  /\ ~ In [] ChessState.alphabet.
Proof.
  split; [exact load_from_dict_returns|]. split; [|split; [|split]].
  - intros g data key piece Hin Hbad.
    destruct (ChessStateIO.load_from_dict literal_eval g data) as [s|e] eqn:El;
      [exfalso|eauto].
    assert (Hall : Forall (entry_accepted literal_eval) data)
      by (apply (load_from_dict_returns g); rewrite El; reflexivity).
    rewrite Forall_forall in Hall. specialize (Hall _ Hin).
    destruct Hall as (k & p & v & E1 & E2 & E3 & E4). cbn [fst snd] in *.
    destruct Hbad as [Hbad|[(q & Hq & Hr)|[Hbad|(v' & c & Hv & Hc & Hn)]]].
    + apply (Hbad k E1). eapply check_key_int_pair; eassumption.
    + assert (k = pos_obj q) by congruence. subst k.
      rewrite check_key_pos, Hr in E2. discriminate.
    + apply (Hbad v E3).
    + assert (v' = v) by congruence. subst v'.
      apply Hn. eapply str_in_chars; eassumption.
  - intros g. unfold ChessStateIO.load_from_dict.
    assert (ChessState.__init__ g true None = []) as ->
      by (destruct g; reflexivity).
    pose proof (literal_eval_str_pos (0, 0) eq_refl) as E.
    change (ChessStateIO.str_pos (0, 0)) with (py "(0, 0)") in E.
    cbn [ChessStateIO.load_items]. unfold sbind, reads. rewrite E.
    split; reflexivity.
  - vm_compute. intros H.
    repeat (destruct H as [H|H]; [discriminate|]). exact H.
  - vm_compute. intros H.
    repeat (destruct H as [H|H]; [discriminate|]). exact H.
Qed.
End RoundTrip.

Lemma literal_eval_digits_str_pos (p : Pos) :
  ChessState.in_range p = true ->
  literal_eval_digits (ChessStateIO.str_pos p) = Ok (pos_obj p).
Proof.
  intros H. apply in_range_bounds in H. destruct p as [x y]. cbn [fst snd] in H.
  assert (Hx : x = 0 \/ x = 1 \/ x = 2 \/ x = 3 \/ x = 4 \/ x = 5 \/ x = 6
               \/ x = 7 \/ x = 8) by lia.
  assert (Hy : y = 0 \/ y = 1 \/ y = 2 \/ y = 3 \/ y = 4 \/ y = 5 \/ y = 6
               \/ y = 7 \/ y = 8 \/ y = 9) by lia.
  clear H.
  repeat (destruct Hx as [->|Hx]); try subst x;
    repeat (destruct Hy as [->|Hy]); try subst y; reflexivity.
Qed.

Lemma load_from_dict_accepts_substrings_witness :
  (forall p, ChessState.in_range p = true ->
             literal_eval_digits (ChessStateIO.str_pos p) = Ok (pos_obj p))
  /\ ChessStateIO.load_from_dict literal_eval_digits false
       [(py "(0, 0)", PStr (py "Rr"))]
     = Ok [((0, 0), py "Rr")]
  /\ ~ In (py "Rr") ChessState.alphabet.
Proof.
  split; [exact literal_eval_digits_str_pos|].
  destruct (load_from_dict_accepts_substrings literal_eval_digits
              literal_eval_digits_str_pos) as (_ & _ & H & Hn & _).
  split; [exact (proj1 (H false))|exact Hn].
Defined.

(** ** ChessParser *)

Lemma rbind_ok {A B} (c : result A) (k : A -> result B) (b : B) :
  rbind c k = Ok b -> exists a, c = Ok a /\ k a = Ok b.
Proof. destruct c as [a|e]; cbn; [eauto|discriminate]. Qed.

Lemma items_of_sound (s : ChessState.t) (keys : list Pos)
  (its : list (Pos * pystr)) :
  ChessState.items_of s keys = Ok its ->
  forall k v, In (k, v) its -> ChessState.__getitem__ s (pos_obj k) = Ok v.
Proof.
  revert its. induction keys as [|k0 keys IH]; intros its; cbn.
  - intros [= <-] k v [].
  - intros H. apply rbind_ok in H. destruct H as (v0 & Hv0 & H).
    apply rbind_ok in H. destruct H as (rest & Hrest & [= <-]).
    intros k v [[= <- <-]|Hin]; [assumption|eauto].
Qed.

Lemma setdefault_append_sound (its : list (Pos * pystr))
  (m : pydict pystr (list Pos)) (v0 : pystr) (p0 : Pos) :
  In (p0, v0) its ->
  (forall v l p, dict_get pystr_eqb v m = Some l -> In p l -> In (p, v) its) ->
  forall v l p,
    dict_get pystr_eqb v (ChessParser.setdefault_append v0 p0 m) = Some l ->
    In p l -> In (p, v) its.
Proof.
  intros H0 Hm v l p. unfold ChessParser.setdefault_append.
  destruct (dict_get pystr_eqb v0 m) as [l0|] eqn:E0;
    (destruct (pystr_eqb v v0) eqn:Ev;
     [apply pystr_eqb_eq in Ev; subst v;
      rewrite (dict_get_set_same pystr_eqb pystr_eqb_eq)
     |rewrite (dict_get_set_other pystr_eqb pystr_eqb_eq)
        by (intros ->; rewrite (proj2 (pystr_eqb_eq v0 v0) eq_refl) in Ev;
            discriminate)]); eauto.
  - intros [= <-] Hin. apply in_app_or in Hin. destruct Hin as [Hin|[<-|[]]]; eauto.
  - intros [= <-] [<-|[]]; assumption.
Qed.

Lemma build_state_map_sound (its : list (Pos * pystr)) (v : pystr)
  (l : list Pos) (p : Pos) :
  dict_get pystr_eqb v (ChessParser.build_state_map its) = Some l ->
  In p l -> In (p, v) its.
Proof.
  unfold ChessParser.build_state_map.
  assert (H : forall todo m,
             (forall kv, In kv todo -> In kv its) ->
             (forall v l p, dict_get pystr_eqb v m = Some l -> In p l -> In (p, v) its) ->
             forall v l p,
               dict_get pystr_eqb v
                 (fold_left (fun m kv => ChessParser.setdefault_append (snd kv) (fst kv) m)
                    todo m) = Some l ->
               In p l -> In (p, v) its).
  { induction todo as [|[p0 v0] todo IH]; intros m Hsub Hm; cbn; [exact Hm|].
    apply IH; [intros kv Hkv; apply Hsub; right; assumption|].
    apply setdefault_append_sound; [apply Hsub; left; reflexivity|exact Hm]. }
  apply (H its []); [auto|]. intros v' l' p'; cbn; discriminate.
Qed.

Lemma insert_by_in {A} (key : A -> Z) (a x : A) (l : list A) :
  In x (insert_by key a l) -> x = a \/ In x l.
Proof.
  induction l as [|b l IH]; cbn.
  - intros [<-|[]]; auto.
  - destruct (key a <=? key b); cbn.
    + intros [<-|H]; auto.
    + intros [<-|H]; auto. destruct (IH H); auto.
Qed.

Lemma sort_by_in {A} (key : A -> Z) (x : A) (l : list A) :
  In x (sort_by key l) -> In x l.
Proof.
  induction l as [|a l IH]; cbn; [auto|].
  intros H. apply insert_by_in in H. destruct H as [->|H]; auto.
Qed.

Lemma start_default_in (m : pydict pystr (list Pos)) (piece col_ch : pystr)
  (color : Color) (side : Side) (start : Pos) :
  ChessParser.start_default m piece col_ch color side = Ok start ->
  exists l, dict_get pystr_eqb piece m = Some l /\ In start l.
Proof.
  unfold ChessParser.start_default.
  destruct (dict_get pystr_eqb piece m) as [l|]; [|discriminate].
  intros H. apply rbind_ok in H. destruct H as (col & _ & H).
  destruct (find (fun p : Z * Z => fst p =? col) l) as [p|] eqn:E;
    [|discriminate].
  injection H as <-. apply find_some in E. exists l. tauto.
Qed.

Lemma start_hard_in (m : pydict pystr (list Pos)) (piece mark : pystr)
  (side : Side) (start : Pos) :
  ChessParser.start_hard m piece mark side = Ok start ->
  exists l, dict_get pystr_eqb piece m = Some l /\ In start l.
Proof.
  unfold ChessParser.start_hard.
  destruct (dict_get pystr_eqb piece m) as [l|]; [|discriminate].
  intros H. apply rbind_ok in H. destruct H as (_ & _ & H).
  exists l. split; [reflexivity|].
  assert (Hsorted : forall x,
             In x (if side_eqb side down then sort_by (fun p => - snd p) l
                   else sort_by (fun p => snd p) l) -> In x l)
    by (intros x; destruct (side_eqb side down); apply sort_by_in).
  revert H Hsorted.
  generalize (if side_eqb side down then sort_by (fun p => - snd p) l
              else sort_by (fun p => snd p) l).
  intros positions H Hsorted. apply Hsorted.
  destruct (pystr_eqb mark [ChessParser.g_qian]);
    [|destruct (pystr_eqb mark [ChessParser.g_hou])];
    apply rbind_ok in H; destruct H as (_ & _ & H).
  - destruct (nth_error positions 0) eqn:E; [|discriminate].
    injection H as <-. eapply nth_error_In; eassumption.
  - destruct (nth_error (rev positions) 0) eqn:E; [|discriminate].
    injection H as <-. apply in_rev. eapply nth_error_In; eassumption.
  - destruct (nth_error positions 1) eqn:E; [|discriminate].
    injection H as <-. eapply nth_error_In; eassumption.
Qed.

(** C1, counterexample. [parse_cmd] accepts "rook nine traverse eight" on
    a board where the square it leads to holds the red horse, and
    [check_move] rejects the pair it returns. *)
Lemma parse_cmd_accepts_own_capture :
  ChessParser.parse_cmd false rook_beside_horse che_jiu_ping_ba (Some false) false
  = Ok ((0, 0), (1, 0))
  /\ ChessChecker.check_move rook_beside_horse (0, 0) (1, 0) false
     = Raise (ValueError "Cannot capture own piece").
Proof. split; vm_compute; reflexivity. Qed.


(** C10. An explicit [rotate_flag=False] is read as no argument at all:
    [parse_cmd] returns or raises the same with [False] and with [None],
    so under a default of [True] the call with [False] is the call with
    [True]; the constructor of [ChessRecorder] stores its flag the same
    way. *)
Theorem explicit_false_is_default (g strict : bool) (state : ChessState.t)
  (cmd : pystr) (init : option ChessState.t) :
  ChessParser.parse_cmd g state cmd (Some false) strict
  = ChessParser.parse_cmd g state cmd None strict
  /\ ChessParser.parse_cmd true state cmd (Some false) strict
     = ChessParser.parse_cmd true state cmd (Some true) strict
  /\ ChessRecorder._rotate_flag (ChessRecorder.__init__ g init (Some false))
     = ChessRecorder._rotate_flag (ChessRecorder.__init__ g init None)
  /\ ChessRecorder._rotate_flag (ChessRecorder.__init__ true init (Some false))
     = true.
Proof. repeat split; reflexivity. Qed.

(** On the opening board, under a default of [True], the red cannon of
    "cannon two traverse five" is looked for on the rotated side although
    the caller passed [False]. *)
Example explicit_false_under_true_default :
  ChessParser.parse_cmd false ChessState._DEFALUT_STATE pao_er_ping_wu
    (Some false) false = Ok ((7, 2), (4, 2))
  /\ ChessParser.parse_cmd true ChessState._DEFALUT_STATE pao_er_ping_wu
       (Some false) false = Ok ((1, 2), (4, 2)).
Proof. split; vm_compute; reflexivity. Qed.

(** * Further properties *)

(** ** Dictionaries, continued *)

Section DictMore.
Context {K V : Type} (eqb : K -> K -> bool).
Hypothesis eqb_eq : forall a b, eqb a b = true <-> a = b.

Lemma in_dict_set (k : K) (v : V) (x : K * V) (d : pydict K V) :
  In x (dict_set eqb k v d) -> x = (k, v) \/ In x d.
Proof.
  induction d as [|[k' v'] d IH]; cbn.
  - intros [<-|[]]; auto.
  - destruct (eqb k k') eqn:E; cbn.
    + apply eqb_eq in E; subst. intros [<-|H]; auto.
    + intros [<-|H]; auto. destruct (IH H); auto.
Qed.

Lemma in_dict_del (k : K) (x : K * V) (d : pydict K V) :
  In x (dict_del eqb k d) -> In x d.
Proof.
  induction d as [|[k' v'] d IH]; cbn; [auto|].
  destruct (eqb k k'); cbn; [auto|]. intros [<-|H]; auto.
Qed.

Lemma dict_del_nodup (k : K) (d : pydict K V) :
  NoDup (dict_keys d) -> NoDup (dict_keys (dict_del eqb k d)).
Proof.
  unfold dict_keys.
  induction d as [|[k' v'] d IH]; cbn; [auto|].
  intros ND; inversion ND as [|? ? Hn ND']; subst.
  destruct (eqb k k'); cbn; [assumption|].
  constructor; [|auto]. intros H. apply Hn.
  apply in_map_iff in H. destruct H as (x & <- & Hx).
  apply in_map. eapply in_dict_del; eassumption.
Qed.

Lemma dict_set_length (k : K) (v : V) (d : pydict K V) :
  List.length (dict_set eqb k v d)
  = if dict_mem eqb k d then List.length d else S (List.length d).
Proof.
  unfold dict_mem. induction d as [|[k' v'] d IH]; cbn; [reflexivity|].
  destruct (eqb k k'); cbn; [reflexivity|].
  rewrite IH. destruct (dict_get eqb k d); reflexivity.
Qed.

Lemma dict_del_length (k : K) (d : pydict K V) :
  dict_mem eqb k d = true ->
  S (List.length (dict_del eqb k d)) = List.length d.
Proof.
  unfold dict_mem. induction d as [|[k' v'] d IH]; cbn; [discriminate|].
  destruct (eqb k k'); cbn; [reflexivity|]. intros H. rewrite IH; auto.
Qed.
End DictMore.

(** ** ChessState, continued *)

Lemma setitem_pos (s : ChessState.t) (p : Pos) (v : pystr) :
  ChessState.__setitem__ (pos_obj p) (PStr v) s
  = if ChessState.in_range p then
      if ChessState.str_in v ChessState._VALID_PIECES
      then (dict_set pos_eqb p v s, Ok tt)
      else (s, Raise (ValueError "Invalid piece"))
    else (s, Raise (KeyError "Invalid key: out of board range")).
Proof.
  unfold ChessState.__setitem__. rewrite check_key_pos.
  destruct (ChessState.in_range p); [|reflexivity].
  cbn [ChessState._check_piece].
  destruct (ChessState.str_in v ChessState._VALID_PIECES); reflexivity.
Qed.

Lemma delitem_pos (s : ChessState.t) (p : Pos) :
  ChessState.__delitem__ (pos_obj p) s
  = if ChessState.in_range p then
      if dict_mem pos_eqb p s then (dict_del pos_eqb p s, Ok tt)
      else (s, Raise (KeyError ""))
    else (s, Raise (KeyError "Invalid key: out of board range")).
Proof.
  unfold ChessState.__delitem__. rewrite check_key_pos.
  destruct (ChessState.in_range p); reflexivity.
Qed.

(** X1. Writing a checked piece on a square of the board returns normally;
    reading the square then gives that piece and every other square reads
    as before. A position off the board or a string that does not
    occur in [_VALID_PIECES] as a substring makes the write raise and leaves the
    board as it was. *)
Theorem setitem_then_getitem (s : ChessState.t) (p : Pos) (v : pystr) :
  (ChessState.in_range p = true ->
   ChessState.str_in v ChessState._VALID_PIECES = true ->
   exists s',
     ChessState.__setitem__ (pos_obj p) (PStr v) s = (s', Ok tt)
     /\ ChessState.__getitem__ s' (pos_obj p) = Ok v
     /\ forall q, q <> p ->
          ChessState.__getitem__ s' (pos_obj q)
          = ChessState.__getitem__ s (pos_obj q))
  /\ (ChessState.in_range p = false
      \/ ChessState.str_in v ChessState._VALID_PIECES = false ->
      exists e, ChessState.__setitem__ (pos_obj p) (PStr v) s = (s, Raise e)).
Proof.
  split.
  - intros Hp Hv. exists (dict_set pos_eqb p v s). rewrite setitem_pos, Hp, Hv.
    split; [reflexivity|]. split.
    + rewrite getitem_pos, Hp, (dict_get_set_same pos_eqb pos_eqb_eq).
      reflexivity.
    + intros q Hq. rewrite !getitem_pos.
      rewrite (dict_get_set_other pos_eqb pos_eqb_eq) by assumption.
      reflexivity.
  - rewrite setitem_pos. intros [->| ->]; [eauto|].
    destruct (ChessState.in_range p); eauto.
Qed.

(** X2. Deleting an occupied square of a board with unique keys returns
    normally, leaves the square unoccupied and every other square as it
    was; deleting a square that is off the board or unoccupied raises
    [KeyError] and leaves the board as it was. *)
Theorem delitem_removes (s : ChessState.t) (p : Pos) :
  (ChessState.wf s ->
   ChessState.__contains__ s (pos_obj p) = true ->
   exists s',
     ChessState.__delitem__ (pos_obj p) s = (s', Ok tt)
     /\ ChessState.__contains__ s' (pos_obj p) = false
     /\ forall q, q <> p ->
          ChessState.__getitem__ s' (pos_obj q)
          = ChessState.__getitem__ s (pos_obj q))
  /\ (ChessState.__contains__ s (pos_obj p) = false ->
      exists msg, ChessState.__delitem__ (pos_obj p) s = (s, Raise (KeyError msg))).
Proof.
  rewrite contains_pos, delitem_pos. split.
  - intros Hwf Hc. apply andb_true_iff in Hc. destruct Hc as [Hp Hm].
    rewrite Hp, Hm. exists (dict_del pos_eqb p s).
    split; [reflexivity|]. split.
    + rewrite contains_pos, Hp. unfold dict_mem.
      rewrite (dict_get_del_same pos_eqb pos_eqb_eq) by assumption. reflexivity.
    + intros q Hq. rewrite !getitem_pos.
      rewrite (dict_get_del_other pos_eqb pos_eqb_eq) by assumption.
      reflexivity.
  - intros Hc. destruct (ChessState.in_range p); [|eauto].
    cbn in Hc. rewrite Hc. eauto.
Qed.

Lemma valid_set (s : ChessState.t) (p : Pos) (v : pystr) :
  ChessState.valid s ->
  ChessState.in_range p = true ->
  ChessState.str_in v ChessState._VALID_PIECES = true ->
  ChessState.valid (dict_set pos_eqb p v s).
Proof.
  intros (Hwf & Hr & Hv) Hp Hpv. split; [|split].
  - apply (dict_set_nodup pos_eqb pos_eqb_eq); assumption.
  - intros q w H. apply (in_dict_set pos_eqb pos_eqb_eq) in H.
    destruct H as [[= -> ->]|H]; [assumption|eapply Hr; eassumption].
  - intros q w H. apply (in_dict_set pos_eqb pos_eqb_eq) in H.
    destruct H as [[= -> ->]|H]; [assumption|eapply Hv; eassumption].
Qed.

Lemma valid_del (s : ChessState.t) (p : Pos) :
  ChessState.valid s -> ChessState.valid (dict_del pos_eqb p s).
Proof.
  intros (Hwf & Hr & Hv). split; [|split].
  - apply dict_del_nodup; assumption.
  - intros q w H. apply in_dict_del in H. eapply Hr; eassumption.
  - intros q w H. apply in_dict_del in H. eapply Hv; eassumption.
Qed.

Lemma setitem_valid (key value : pyval) (s s' : ChessState.t) (r : result unit) :
  ChessState.__setitem__ key value s = (s', r) ->
  ChessState.valid s -> ChessState.valid s'.
Proof.
  unfold ChessState.__setitem__.
  destruct (ChessState._check_key key) as [k|e] eqn:Ek; [|intros [= <- <-]; auto].
  destruct (ChessState._check_piece value) as [v|e] eqn:Ev; [|intros [= <- <-]; auto].
  intros [= <- <-] Hs. apply valid_set; [assumption| |].
  - unfold ChessState._check_key in Ek.
    destruct key as [| | |[|a [|b [|]]]|]; try discriminate.
    destruct (as_int a), (as_int b); try discriminate.
    destruct (ChessState.in_range (z, z0)) eqn:E; [|discriminate].
    injection Ek as <-. exact E.
  - unfold ChessState._check_piece in Ev.
    destruct value; try discriminate.
    destruct (ChessState.str_in x ChessState._VALID_PIECES) eqn:E; [|discriminate].
    injection Ev as <-. exact E.
Qed.

Lemma delitem_valid (key : pyval) (s s' : ChessState.t) (r : result unit) :
  ChessState.__delitem__ key s = (s', r) ->
  ChessState.valid s -> ChessState.valid s'.
Proof.
  unfold ChessState.__delitem__.
  destruct (ChessState._check_key key) as [k|e]; [|intros [= <- <-]; auto].
  destruct (dict_mem pos_eqb k s); intros [= <- <-]; auto using valid_del.
Qed.

Lemma move_valid (start end_ : Pos) (s s' : ChessState.t) (r : result unit) :
  ChessState.move start end_ s = (s', r) ->
  ChessState.valid s -> ChessState.valid s'.
Proof.
  unfold ChessState.move.
  destruct (negb _); [intros [= <- <-]; auto|].
  unfold sbind, reads.
  destruct (ChessState.__getitem__ s (pos_obj start)) as [piece|e];
    [|intros [= <- <-]; auto].
  destruct (ChessState.__setitem__ _ _ s) as [s1 [[]|e]] eqn:E1.
  - intros E2 Hs. eapply delitem_valid; [exact E2|].
    eapply setitem_valid; eassumption.
  - intros [= <- <-] Hs. eapply setitem_valid; eassumption.
Qed.

(** X3. The validated interface keeps a board valid: after [__setitem__],
    [__delitem__] or [move], whether the call returns or raises, the keys
    are still unique and on the board and the values are still strings
    that [_check_piece] lets through. *)
Theorem validated_interface_keeps_board_valid (s : ChessState.t) :
  ChessState.valid s ->
  (forall key value s' r,
      ChessState.__setitem__ key value s = (s', r) -> ChessState.valid s')
  /\ (forall key s' r,
        ChessState.__delitem__ key s = (s', r) -> ChessState.valid s')
  /\ (forall start end_ s' r,
        ChessState.move start end_ s = (s', r) -> ChessState.valid s').
Proof.
  intros Hs. split; [|split].
  - intros key value s' r H. eapply setitem_valid; eassumption.
  - intros key s' r H. eapply delitem_valid; eassumption.
  - intros start end_ s' r H. eapply move_valid; eassumption.
Qed.

(** *** Rotation and colour swap *)

Lemma in_range_relabel (p : Pos) :
  ChessState.in_range (relabel p) = ChessState.in_range p.
Proof.
  destruct p as [x y].
  unfold ChessState.in_range, relabel, ChessState._COLS_NUM, ChessState._ROWS_NUM.
  cbn [fst snd].
  destruct (Z.leb_spec 0 x), (Z.ltb_spec x 9), (Z.leb_spec 0 y), (Z.ltb_spec y 10),
    (Z.leb_spec 0 (8 - x)), (Z.ltb_spec (8 - x) 9), (Z.leb_spec 0 (9 - y)),
    (Z.ltb_spec (9 - y) 10); cbn; try reflexivity; lia.
Qed.

Lemma rotate_pieces_valid (s : ChessState.t) :
  ChessState.valid s -> ChessState.valid (ChessState.rotate_pieces s).
Proof.
  intros (Hwf & Hr & Hv). rewrite (rotate_pieces_map s Hwf).
  split; [|split].
  - unfold ChessState.wf. rewrite keys_relabel.
    apply NoDup_map_relabel; assumption.
  - intros p v H. apply in_map_iff in H. destruct H as ([q w] & [= <- <-] & H).
    cbn [fst]. rewrite in_range_relabel. eapply Hr; eassumption.
  - intros p v H. apply in_map_iff in H. destruct H as ([q w] & [= <- <-] & H).
    cbn [snd]. eapply Hv; eassumption.
Qed.

(** X4. Rotating a valid board gives a valid board with as many pieces. *)
Theorem rotate_pieces_keeps_board_valid (s : ChessState.t) :
  ChessState.valid s ->
  ChessState.valid (ChessState.rotate_pieces s)
  /\ ChessState.__len__ (ChessState.rotate_pieces s) = ChessState.__len__ s.
Proof.
  intros H. split; [apply rotate_pieces_valid; exact H|].
  destruct H as (Hwf & _). rewrite (rotate_pieces_map s Hwf).
  unfold ChessState.__len__. rewrite length_map. reflexivity.
Qed.

Lemma swap_fold (l acc : ChessState.t) :
  NoDup (dict_keys acc ++ dict_keys l) ->
  fold_left
    (fun new_pieces kv =>
       dict_set pos_eqb (fst kv) (swapcase (snd kv)) new_pieces)
    l acc
  = acc ++ map swap_item l.
Proof.
  revert acc. induction l as [|[k v] l IH]; intros acc ND; cbn.
  - rewrite app_nil_r; reflexivity.
  - cbn in ND. pose proof (NoDup_remove_2 _ _ _ ND) as Hfresh.
    rewrite (dict_set_fresh pos_eqb pos_eqb_eq)
      by (intros H; apply Hfresh; apply in_or_app; auto).
    rewrite IH.
    + rewrite <- app_assoc; reflexivity.
    + unfold dict_keys in *. rewrite map_app, <- app_assoc. exact ND.
Qed.

Lemma swap_pieces_map (s : ChessState.t) :
  ChessState.wf s -> ChessState.swap_pieces s = map swap_item s.
Proof.
  intros Hwf. unfold ChessState.swap_pieces.
  rewrite swap_fold; [reflexivity|exact Hwf].
Qed.

Lemma keys_swap (s : ChessState.t) :
  dict_keys (map swap_item s) = dict_keys s.
Proof. unfold dict_keys. rewrite map_map. reflexivity. Qed.

Lemma swapcase_char_involutive (c : N) : swapcase_char (swapcase_char c) = c.
Proof.
  unfold swapcase_char, is_upper_char, is_lower_char.
  destruct (N.leb_spec 65 c), (N.leb_spec c 90), (N.leb_spec 97 c),
    (N.leb_spec c 122); cbn [andb];
    repeat match goal with
      | |- context [(?a <=? ?b)%N] => destruct (N.leb_spec a b)
      end; cbn [andb]; lia.
Qed.

Lemma swapcase_involutive (x : pystr) : swapcase (swapcase x) = x.
Proof.
  unfold swapcase. rewrite map_map. rewrite <- (map_id x) at 2.
  apply map_ext. apply swapcase_char_involutive.
Qed.

Lemma dict_get_swap (s : ChessState.t) (p : Pos) :
  dict_get pos_eqb p (map swap_item s)
  = option_map swapcase (dict_get pos_eqb p s).
Proof.
  induction s as [|[k v] s IH]; cbn; [reflexivity|].
  destruct (pos_eqb p k); [reflexivity|exact IH].
Qed.

(** X5. On a board with unique keys [swap_pieces] keeps every position
    and swaps the case of its symbol; applied twice it gives back the
    board; and it commutes with [rotate_pieces]. *)
Theorem swap_pieces_involution (s : ChessState.t) :
  ChessState.wf s ->
  (forall p,
      dict_get pos_eqb p (ChessState.swap_pieces s)
      = option_map swapcase (dict_get pos_eqb p s))
  /\ ChessState.swap_pieces (ChessState.swap_pieces s) = s
  /\ ChessState.rotate_pieces (ChessState.swap_pieces s)
     = ChessState.swap_pieces (ChessState.rotate_pieces s).
Proof.
  intros Hwf. pose proof (swap_pieces_map s Hwf) as Hmap.
  assert (Hwf' : ChessState.wf (map swap_item s))
    by (unfold ChessState.wf; rewrite keys_swap; exact Hwf).
  split; [|split].
  - intros p. rewrite Hmap. apply dict_get_swap.
  - rewrite Hmap, (swap_pieces_map _ Hwf'), map_map.
    rewrite <- (map_id s) at 2. apply map_ext.
    intros [k v]. unfold swap_item; cbn [fst snd].
    rewrite swapcase_involutive. reflexivity.
  - rewrite Hmap, (rotate_pieces_map _ Hwf'), (rotate_pieces_map _ Hwf).
    rewrite swap_pieces_map.
    + rewrite !map_map. reflexivity.
    + unfold ChessState.wf. rewrite keys_relabel.
      apply NoDup_map_relabel; exact Hwf.
Qed.

Lemma alphabet_swapcase (v : pystr) :
  In v ChessState.alphabet ->
  In (swapcase v) ChessState.alphabet
  /\ piece_color (swapcase v) <> piece_color v.
Proof.
  intros H. cbn in H.
  repeat (destruct H as [<-|H]; [split; [vm_compute; tauto|vm_compute; discriminate]|]).
  contradiction.
Qed.

(** X6. On a board whose values are single symbols of the alphabet,
    [swap_pieces] gives such a board again, valid if the board was, and
    the piece on every occupied square changes colour. A valid board that
    holds a longer substring of the symbols, such as [Rr], is not valid
    after the swap. *)
Theorem swap_pieces_flips_colors :
  (forall s,
      ChessState.valid s ->
      ChessState.values_in_alphabet s ->
      ChessState.valid (ChessState.swap_pieces s)
      /\ ChessState.values_in_alphabet (ChessState.swap_pieces s)
      /\ forall p v,
           dict_get pos_eqb p s = Some v ->
           exists v',
             dict_get pos_eqb p (ChessState.swap_pieces s) = Some v'
             /\ piece_color v' <> piece_color v)
  /\ (ChessState.valid [((0, 0), py "Rr")]
      /\ ~ ChessState.valid (ChessState.swap_pieces [((0, 0), py "Rr")])).
Proof.
  split.
  - intros s (Hwf & Hr & Hv) Ha. rewrite (swap_pieces_map s Hwf).
    assert (Ha' : ChessState.values_in_alphabet (map swap_item s)).
    { intros p v H. apply in_map_iff in H.
      destruct H as ([q w] & [= <- <-] & H). cbn [snd].
      apply alphabet_swapcase. eapply Ha; eassumption. }
    split; [split; [|split]|split].
    + unfold ChessState.wf. rewrite keys_swap. exact Hwf.
    + intros p v H. apply in_map_iff in H.
      destruct H as ([q w] & [= <- <-] & H). cbn [fst]. eapply Hr; eassumption.
    + intros p v H. apply alphabet_valid. eapply Ha'; eassumption.
    + exact Ha'.
    + intros p v H. exists (swapcase v). rewrite dict_get_swap, H.
      split; [reflexivity|].
      apply alphabet_swapcase. apply (Ha p v).
      apply (dict_get_in pos_eqb pos_eqb_eq); assumption.
  - split.
    + split; [|split].
      * repeat constructor. intros [].
      * intros p v [[= <- <-]|[]]. reflexivity.
      * intros p v [[= <- <-]|[]]. reflexivity.
    + intros (_ & _ & Hv). specialize (Hv (0, 0) (py "rR") (or_introl eq_refl)).
      vm_compute in Hv. discriminate.
Qed.

Lemma default_state_valid :
  ChessState.valid ChessState._DEFALUT_STATE
  /\ ChessState.values_in_alphabet ChessState._DEFALUT_STATE.
Proof.
  assert (Ha : ChessState.values_in_alphabet ChessState._DEFALUT_STATE).
  { intros p v Hin. cbn in Hin.
    repeat (destruct Hin as [[= <- <-]|Hin]; [vm_compute; tauto|]).
    contradiction. }
  split; [|exact Ha]. split; [|split].
  - apply distinct_NoDup. vm_compute. reflexivity.
  - intros p v Hin. cbn in Hin.
    repeat (destruct Hin as [[= <- <-]|Hin]; [reflexivity|]). contradiction.
  - intros p v Hin. apply alphabet_valid. eapply Ha; eassumption.
Qed.

(** ** ChessChecker, continued *)

Lemma py_range_up (a b : Z) :
  py_range a b 1 = map (fun i => a + Z.of_nat i) (seq 0 (Z.to_nat (b - a))).
Proof.
  unfold py_range. cbn [Z.ltb Z.compare].
  replace ((b - a + 1 - 1) / 1) with (b - a) by (rewrite Z.div_1_r; lia).
  apply map_ext. intros i. lia.
Qed.

Lemma py_range_down (a b : Z) :
  py_range a b (-1) = map (fun i => a - Z.of_nat i) (seq 0 (Z.to_nat (a - b))).
Proof.
  unfold py_range. cbn [Z.ltb Z.compare Z.opp].
  replace ((a - b - -1 - 1) / 1) with (a - b) by (rewrite Z.div_1_r; lia).
  apply map_ext. intros i. lia.
Qed.

Lemma in_py_range_up (a b y : Z) : In y (py_range a b 1) <-> a <= y < b.
Proof.
  rewrite py_range_up, in_map_iff. split.
  - intros (i & <- & Hi). apply in_seq in Hi. lia.
  - intros H. exists (Z.to_nat (y - a)). split; [lia|]. apply in_seq. lia.
Qed.

Lemma in_py_range_down (a b y : Z) : In y (py_range a b (-1)) <-> b < y <= a.
Proof.
  rewrite py_range_down, in_map_iff. split.
  - intros (i & <- & Hi). apply in_seq in Hi. lia.
  - intros H. exists (Z.to_nat (a - y)). split; [lia|]. apply in_seq. lia.
Qed.

Lemma py_range_rev (a : Z) (n : nat) :
  rev (map (fun i => a + Z.of_nat i) (seq 0 n))
  = map (fun i => a + Z.of_nat n - 1 - Z.of_nat i) (seq 0 n).
Proof.
  revert a. induction n as [|n IH]; intros a; [reflexivity|].
  rewrite seq_S at 2. rewrite map_app. cbn [seq map rev Nat.add].
  rewrite <- seq_shift, map_map.
  rewrite (map_ext (fun i => a + Z.of_nat (S i)) (fun i => (a + 1) + Z.of_nat i))
    by (intros; lia).
  rewrite IH. f_equal.
  - apply map_ext. intros; lia.
  - f_equal. lia.
Qed.

(** The loop of [_count_between] counts the squares of its range that the
    board has occupied. *)
Lemma count_fold (occ : Z -> bool) (l : list Z) (c : Z) :
  fold_left (fun cnt y => if occ y then cnt + 1 else cnt) l c
  = c + Z.of_nat (List.length (filter occ l)).
Proof.
  revert c. induction l as [|y l IH]; intros c; cbn; [lia|].
  rewrite IH. destruct (occ y); cbn [List.length]; lia.
Qed.

Lemma filter_rev_length {A} (f : A -> bool) (l : list A) :
  List.length (filter f (rev l)) = List.length (filter f l).
Proof.
  induction l as [|a l IH]; cbn; [reflexivity|].
  rewrite filter_app, length_app, IH. cbn.
  destruct (f a); cbn; lia.
Qed.

Lemma count_rev (occ : Z -> bool) (l : list Z) :
  fold_left (fun cnt y => if occ y then cnt + 1 else cnt) (rev l) 0
  = fold_left (fun cnt y => if occ y then cnt + 1 else cnt) l 0.
Proof. rewrite !count_fold, filter_rev_length. reflexivity. Qed.

Lemma walk_rev (a b : Z) : walk b a = rev (walk a b).
Proof.
  unfold walk.
  destruct (Z.ltb_spec a b), (Z.ltb_spec b a); try lia.
  - rewrite py_range_up, py_range_down, py_range_rev.
    replace (Z.to_nat (b + -1 - a)) with (Z.to_nat (b - (a + 1))) by lia.
    apply map_ext. intros i. lia.
  - rewrite py_range_up, py_range_down.
    match goal with
    | |- ?l = rev ?r => rewrite <- (rev_involutive l); f_equal
    end.
    rewrite py_range_rev.
    replace (Z.to_nat (a + -1 - b)) with (Z.to_nat (a - (b + 1))) by lia.
    apply map_ext. intros i. lia.
  - assert (a = b) by lia. subst. rewrite !py_range_down.
    replace (Z.to_nat (b + -1 - b)) with 0%nat by lia. reflexivity.
Qed.

Lemma in_walk (a b y : Z) : In y (walk a b) <-> (a < y < b \/ b < y < a).
Proof.
  unfold walk. destruct (Z.ltb_spec a b).
  - rewrite in_py_range_up. lia.
  - rewrite in_py_range_down. lia.
Qed.

Lemma count_between_eq (s : ChessState.t) (start end_ : Pos) :
  ChessChecker._count_between s start end_
  = if fst start =? fst end_ then
      Ok (Z.of_nat (List.length
            (filter (fun y => ChessState.__contains__ s (pos_obj (fst start, y)))
               (walk (snd start) (snd end_)))))
    else if snd start =? snd end_ then
      Ok (Z.of_nat (List.length
            (filter (fun x => ChessState.__contains__ s (pos_obj (x, snd start)))
               (walk (fst start) (fst end_)))))
    else Raise (ValueError "Must be aligned on row/col").
Proof.
  destruct start as [sx sy], end_ as [ex ey].
  unfold ChessChecker._count_between. cbn [fst snd].
  destruct (sx =? ex); [|destruct (sy =? ey); [|reflexivity]];
    rewrite count_fold; reflexivity.
Qed.

Lemma filter_nil_iff {A} (f : A -> bool) (l : list A) :
  List.length (filter f l) = 0%nat <-> forall x, In x l -> f x = false.
Proof.
  induction l as [|a l IH]; cbn; [tauto|].
  destruct (f a) eqn:E; cbn.
  - split; [discriminate|]. intros H. specialize (H a (or_introl eq_refl)). congruence.
  - rewrite IH. split; [intros H x [<-|Hx]; auto|intros H x Hx; auto].
Qed.

(** X7. [_count_between] raises exactly when the two squares share neither
    column nor row. Otherwise it returns a count that is not negative, is
    the same in both directions, and is zero exactly when the board has no
    piece on a square strictly between the two. *)
Theorem count_between_spec (s : ChessState.t) (a b : Pos) :
  (fst a <> fst b /\ snd a <> snd b ->
   ChessChecker._count_between s a b
   = Raise (ValueError "Must be aligned on row/col"))
  /\ (fst a = fst b \/ snd a = snd b ->
      exists n,
        ChessChecker._count_between s a b = Ok n
        /\ 0 <= n
        /\ ChessChecker._count_between s b a = Ok n
        /\ (n = 0 <->
            forall p, strictly_between a b p ->
                      ChessState.__contains__ s (pos_obj p) = false)).
Proof.
  destruct a as [sx sy], b as [ex ey]. cbn [fst snd]. split.
  - intros [H1 H2]. rewrite count_between_eq. cbn [fst snd].
    destruct (Z.eqb_spec sx ex); [contradiction|].
    destruct (Z.eqb_spec sy ey); [contradiction|reflexivity].
  - intros Hal. rewrite !count_between_eq. cbn [fst snd].
    destruct (Z.eqb_spec sx ex) as [->|Hx].
    + rewrite Z.eqb_refl. eexists. split; [reflexivity|]. split; [lia|]. split.
      * rewrite walk_rev, filter_rev_length. reflexivity.
      * rewrite <- Nat2Z.inj_0, Nat2Z.inj_iff, filter_nil_iff.
        unfold strictly_between. cbn [fst snd]. split.
        -- intros H [px py] Hp. cbn [fst snd] in Hp.
           destruct Hp as [(_ & -> & Hy)|(-> & _ & Hxx)]; [|lia].
           apply (H py). apply in_walk. exact Hy.
        -- intros H y Hy. apply in_walk in Hy.
           apply (H (ex, y)). left. cbn. auto.
    + destruct Hal as [Hal| ->]; [contradiction|].
      rewrite Z.eqb_refl. destruct (Z.eqb_spec ex sx); [congruence|].
      eexists. split; [reflexivity|]. split; [lia|]. split.
      * rewrite walk_rev, filter_rev_length. reflexivity.
      * rewrite <- Nat2Z.inj_0, Nat2Z.inj_iff, filter_nil_iff.
        unfold strictly_between. cbn [fst snd]. split.
        -- intros H [px py] Hp. cbn [fst snd] in Hp.
           destruct Hp as [(E & _)|(_ & -> & Hxx)]; [contradiction|].
           apply (H px). apply in_walk. exact Hxx.
        -- intros H x Hxx. apply in_walk in Hxx.
           apply (H (x, ey)). right. cbn. auto.
Qed.

(** The generic preconditions, for a piece standing on [start]. *)
Ltac generic_part s piece end_ Hget :=
  unfold ChessChecker.check_move;
  unfold ChessState.__contains__ at 1; rewrite Hget;
  cbn [is_ok require rbind];
  match goal with
  | |- context [pos_eqb ?a ?b] =>
      let Ese := fresh "Ese" in
      destruct (pos_eqb a b) eqn:Ese;
      [ apply pos_eqb_eq in Ese; cbn; split;
        [discriminate | intros [H _]; contradiction]
      | apply pos_eqb_neq in Ese; cbn [negb require rbind];
        let Hc := fresh "Hc" in
        destruct (capture_check s piece end_) as [[-> Hc]|[-> Hc]];
        cbn [rbind]; [|split; [discriminate | tauto]] ]
  end.

(** Both directions of a rule, once every test of the code is decided. *)
Ltac finish_rule :=
  split;
  [ first
      [ discriminate
      | intros _; repeat split;
        first [assumption | lia | (f_equal; lia) | tauto] ]
  | first
      [ reflexivity
      | let H := fresh in
        intros H; decompose [and] H; exfalso;
        first [lia | congruence | tauto] ] ].

(** X8. For a rook standing on [start], [check_move] accepts the move to
    [end_] exactly when the generic preconditions hold, the two squares
    share a column or a row, and [_count_between] finds no piece between
    them. *)
Theorem rook_rule (s : ChessState.t) (start end_ : Pos) (rf : bool)
  (piece : pystr) :
  ChessState.__getitem__ s (pos_obj start) = Ok piece ->
  piece = py "R" \/ piece = py "r" ->
  ChessChecker.check_move s start end_ rf = Ok true <->
  start <> end_
  /\ ~ captures_own s piece end_
  /\ (fst end_ = fst start \/ snd end_ = snd start)
  /\ ChessChecker._count_between s start end_ = Ok 0.
Proof.
  intros Hget Hp. generic_part s piece end_ Hget.
  destruct start as [sx sy], end_ as [ex ey]. cbn [fst snd].
  destruct (ChessChecker._count_between s (sx, sy) (ex, ey)) as [cnt|e] eqn:Ec;
  destruct Hp; subst piece; eval_tests; cbv iota;
    repeat (split_tests; cbn [rbind require negb andb orb]);
    finish_rule.
Qed.

(** X9. For a cannon standing on [start], [check_move] accepts the move to
    [end_] exactly when the generic preconditions hold, the two squares
    share a column or a row, and [_count_between] finds exactly one piece
    between them if [end_] is occupied, none if it is not. *)
Theorem cannon_rule (s : ChessState.t) (start end_ : Pos) (rf : bool)
  (piece : pystr) :
  ChessState.__getitem__ s (pos_obj start) = Ok piece ->
  piece = py "C" \/ piece = py "c" ->
  ChessChecker.check_move s start end_ rf = Ok true <->
  start <> end_
  /\ ~ captures_own s piece end_
  /\ (fst end_ = fst start \/ snd end_ = snd start)
  /\ ChessChecker._count_between s start end_
     = Ok (if ChessState.__contains__ s (pos_obj end_) then 1 else 0).
Proof.
  intros Hget Hp. generic_part s piece end_ Hget.
  destruct start as [sx sy], end_ as [ex ey]. cbn [fst snd].
  destruct (ChessChecker._count_between s (sx, sy) (ex, ey)) as [cnt|e] eqn:Ec;
  destruct (ChessState.__contains__ s (pos_obj (ex, ey)));
  destruct Hp; subst piece; eval_tests; cbv iota;
    repeat (split_tests; cbn [rbind require negb andb orb]);
    finish_rule.
Qed.

Lemma half_is_sign (d : Z) : Z.abs d = 2 -> d / 2 = Z.sgn d.
Proof.
  intros H. assert (d = 2 \/ d = -2) as [-> | ->] by lia; reflexivity.
Qed.

Lemma knight_shape (a b : Z) :
  ChessChecker.pair_among (a, b) [(1, 2); (2, 1)] = true
  <-> (a = 1 /\ b = 2) \/ (a = 2 /\ b = 1).
Proof.
  unfold ChessChecker.pair_among, existsb, pos_eqb. cbn [fst snd].
  split_tests; cbn; split; try discriminate; try tauto; try lia.
Qed.

Lemma step_shape (a b : Z) :
  ChessChecker.pair_among (a, b) [(1, 0); (0, 1)] = true
  <-> (a = 1 /\ b = 0) \/ (a = 0 /\ b = 1).
Proof.
  unfold ChessChecker.pair_among, existsb, pos_eqb. cbn [fst snd].
  split_tests; cbn; split; try discriminate; try tauto; try lia.
Qed.

Lemma in_palace_spec (p : Pos) (piece : pystr) (rf : bool) :
  ChessChecker._check_in_palace p (piece_color piece) rf = true
  <-> in_palace (resolved_side piece rf) p.
Proof.
  unfold ChessChecker._check_in_palace, in_palace, resolved_side.
  destruct (ChessChecker.on_down_side (piece_color piece) rf);
    rewrite !andb_true_iff, !Z.leb_le; lia.
Qed.

Lemma in_side_spec (p : Pos) (piece : pystr) (rf : bool) :
  ChessChecker._check_in_side p (piece_color piece) rf = true
  <-> on_own_bank (resolved_side piece rf) (snd p).
Proof.
  unfold ChessChecker._check_in_side, on_own_bank, resolved_side.
  destruct (ChessChecker.on_down_side (piece_color piece) rf);
    rewrite Z.leb_le; lia.
Qed.

Lemma require_true (b : bool) (msg : string) {A} (k : result A) :
  b = true -> (require b msg ;;; k) = k.
Proof. intros ->; reflexivity. Qed.

Lemma require_false (b : bool) (msg : string) {A} (k : result A) :
  b = false -> (require b msg ;;; k) = Raise (ValueError msg).
Proof. intros ->; reflexivity. Qed.

(** X10. For a horse standing on [start], [check_move] accepts the move to
    [end_] exactly when the generic preconditions hold, the displacement
    is one column and two rows or two columns and one row, and the square
    next to [start] in the direction of the long side (the leg) is not
    occupied. *)
Theorem knight_rule (s : ChessState.t) (start end_ : Pos) (rf : bool)
  (piece : pystr) :
  ChessState.__getitem__ s (pos_obj start) = Ok piece ->
  piece = py "H" \/ piece = py "h" ->
  let dx := fst end_ - fst start in
  let dy := snd end_ - snd start in
  ChessChecker.check_move s start end_ rf = Ok true <->
  start <> end_
  /\ ~ captures_own s piece end_
  /\ ((Z.abs dx = 1 /\ Z.abs dy = 2) \/ (Z.abs dx = 2 /\ Z.abs dy = 1))
  /\ ChessState.__contains__ s (pos_obj (knight_leg start end_)) = false.
Proof.
  intros Hget Hp dx dy. generic_part s piece end_ Hget.
  destruct start as [sx sy], end_ as [ex ey]. cbn [fst snd] in *.
  unfold knight_leg. cbn [fst snd]. fold dx dy.
  destruct (ChessChecker.pair_among (Z.abs dx, Z.abs dy) [(1, 2); (2, 1)]) eqn:Es.
  - pose proof (proj1 (knight_shape _ _) Es) as Hs.
    assert (Hleg : (if Z.abs dx =? 2 then (sx + dx / 2, sy) else (sx, sy + dy / 2))
                   = (if Z.abs dx =? 2 then (sx + Z.sgn dx, sy)
                      else (sx, sy + Z.sgn dy))).
    { destruct (Z.eqb_spec (Z.abs dx) 2) as [E|E].
      - rewrite (half_is_sign dx E). reflexivity.
      - rewrite (half_is_sign dy) by lia. reflexivity. }
    destruct Hp; subst piece; eval_tests; cbv iota;
      fold dx dy; rewrite ?Es, Hleg; cbn [require rbind];
      destruct (ChessState.__contains__ s _); cbn;
      split; try discriminate; try tauto; intros (_ & _ & _ & H); discriminate.
  - assert (Hs : ~ ((Z.abs dx = 1 /\ Z.abs dy = 2) \/ (Z.abs dx = 2 /\ Z.abs dy = 1)))
      by (rewrite <- knight_shape, Es; discriminate).
    destruct Hp; subst piece; eval_tests; cbv iota;
      fold dx dy; rewrite ?Es; cbn [require rbind];
      split; try discriminate; tauto.
Qed.

(** X11. For an elephant standing on [start], [check_move] accepts the
    move to [end_] exactly when the generic preconditions hold, the
    displacement is two columns and two rows, the square diagonally next
    to [start] on the way (the eye) is not occupied, and the row of [end_]
    is on the elephant's bank of the river: at most 4 for the side [down],
    at least 5 for [up]. *)
Theorem elephant_rule (s : ChessState.t) (start end_ : Pos) (rf : bool)
  (piece : pystr) :
  ChessState.__getitem__ s (pos_obj start) = Ok piece ->
  piece = py "E" \/ piece = py "e" ->
  let dx := fst end_ - fst start in
  let dy := snd end_ - snd start in
  ChessChecker.check_move s start end_ rf = Ok true <->
  start <> end_
  /\ ~ captures_own s piece end_
  /\ (Z.abs dx = 2 /\ Z.abs dy = 2)
  /\ ChessState.__contains__ s (pos_obj (elephant_eye start end_)) = false
  /\ on_own_bank (resolved_side piece rf) (snd end_).
Proof.
  intros Hget Hp dx dy. generic_part s piece end_ Hget.
  pose proof (in_side_spec end_ piece rf) as Hside.
  destruct start as [sx sy], end_ as [ex ey]. cbn [fst snd] in *.
  unfold elephant_eye. cbn [fst snd]. fold dx dy.
  unfold piece_color in Hside.
  destruct (pos_eqb (Z.abs dx, Z.abs dy) (2, 2)) eqn:Es.
  - apply pos_eqb_eq in Es. injection Es as Ex Ey.
    rewrite <- (half_is_sign dx Ex), <- (half_is_sign dy Ey).
    destruct Hp; subst piece; eval_tests; cbv iota;
      fold dx dy; cbn [require rbind];
      destruct (ChessState.__contains__ s _); cbn [negb require rbind];
      try (split; [discriminate|intros (_ & _ & _ & H & _); discriminate]);
      destruct (ChessChecker._check_in_side _ _ _); cbn [require rbind];
      split; try discriminate; try tauto;
      try (intros _; repeat split; try assumption; tauto);
      intros (_ & _ & _ & _ & H); apply Hside in H; discriminate.
  - assert (Hs : ~ (Z.abs dx = 2 /\ Z.abs dy = 2)).
    { intros [E1 E2]. rewrite E1, E2 in Es. discriminate. }
    destruct Hp; subst piece; eval_tests; cbv iota;
      fold dx dy; rewrite ?Es; cbn [require rbind];
      split; try discriminate; tauto.
Qed.

(** X12. A king standing on [start] may move one step along a column or a
    row, an advisor one step diagonally, and either only to a square of
    the palace of its side (columns 3 to 5; rows 0 to 2 for [down], 7 to 9
    for [up]): [check_move] accepts exactly these moves, under the generic
    preconditions. An accepted move of a king or an advisor ends on the
    board. *)
Theorem palace_rule (s : ChessState.t) (start end_ : Pos) (rf : bool)
  (piece : pystr) :
  ChessState.__getitem__ s (pos_obj start) = Ok piece ->
  let dx := fst end_ - fst start in
  let dy := snd end_ - snd start in
  (piece = py "K" \/ piece = py "k" ->
   (ChessChecker.check_move s start end_ rf = Ok true <->
    start <> end_
    /\ ~ captures_own s piece end_
    /\ orthogonal_step dx dy
    /\ in_palace (resolved_side piece rf) end_))
  /\ (piece = py "A" \/ piece = py "a" ->
      (ChessChecker.check_move s start end_ rf = Ok true <->
       start <> end_
       /\ ~ captures_own s piece end_
       /\ (Z.abs dx = 1 /\ Z.abs dy = 1)
       /\ in_palace (resolved_side piece rf) end_))
  /\ (piece = py "K" \/ piece = py "k" \/ piece = py "A" \/ piece = py "a" ->
      ChessChecker.check_move s start end_ rf = Ok true ->
      ChessState.in_range end_ = true).
Proof.
  intros Hget dx dy.
  assert (HK : piece = py "K" \/ piece = py "k" ->
               (ChessChecker.check_move s start end_ rf = Ok true <->
                start <> end_
                /\ ~ captures_own s piece end_
                /\ orthogonal_step dx dy
                /\ in_palace (resolved_side piece rf) end_)).
  { intros Hp. generic_part s piece end_ Hget.
    pose proof (in_palace_spec end_ piece rf) as Hpal.
    destruct start as [sx sy], end_ as [ex ey]. cbn [fst snd] in *.
    fold dx dy. unfold piece_color in Hpal. unfold orthogonal_step.
    rewrite <- step_shape, <- Hpal.
    destruct Hp; subst piece; eval_tests; cbv iota; fold dx dy;
      destruct (ChessChecker.pair_among _ _); cbn [require rbind];
      try (split; [discriminate|intros (_ & _ & H & _); discriminate]);
      destruct (ChessChecker._check_in_palace _ _ _); cbn [require rbind];
      split; try discriminate; try tauto;
      intros (_ & _ & _ & H); discriminate. }
  assert (HA : piece = py "A" \/ piece = py "a" ->
               (ChessChecker.check_move s start end_ rf = Ok true <->
                start <> end_
                /\ ~ captures_own s piece end_
                /\ (Z.abs dx = 1 /\ Z.abs dy = 1)
                /\ in_palace (resolved_side piece rf) end_)).
  { intros Hp. generic_part s piece end_ Hget.
    pose proof (in_palace_spec end_ piece rf) as Hpal.
    destruct start as [sx sy], end_ as [ex ey]. cbn [fst snd] in *.
    fold dx dy. unfold piece_color in Hpal.
    rewrite <- Hpal.
    assert (Hs : pos_eqb (Z.abs dx, Z.abs dy) (1, 1) = true
                 <-> Z.abs dx = 1 /\ Z.abs dy = 1).
    { rewrite pos_eqb_eq. split; [intros [= -> ->]; auto|intros [-> ->]; auto]. }
    rewrite <- Hs.
    destruct Hp; subst piece; eval_tests; cbv iota; fold dx dy;
      destruct (pos_eqb _ _); cbn [require rbind];
      try (split; [discriminate|intros (_ & _ & H & _); discriminate]);
      destruct (ChessChecker._check_in_palace _ _ _); cbn [require rbind];
      split; try discriminate; try tauto;
      intros (_ & _ & _ & H); discriminate. }
  split; [exact HK|]. split; [exact HA|].
  intros Hp Hok.
  assert (Hpal : in_palace (resolved_side piece rf) end_).
  { destruct Hp as [Hp|[Hp|[Hp|Hp]]];
      [apply (proj1 (HK (or_introl Hp)) Hok)
      |apply (proj1 (HK (or_intror Hp)) Hok)
      |apply (proj1 (HA (or_introl Hp)) Hok)
      |apply (proj1 (HA (or_intror Hp)) Hok)]. }
  apply in_range_bounds. unfold in_palace in Hpal.
  destruct (resolved_side piece rf); lia.
Qed.

(** [check_move] never returns [False]: it returns [True] or raises, and it
    returns only when a piece stands on the starting square. *)
Lemma check_move_returns_true (s : ChessState.t) (start end_ : Pos)
  (rf b : bool) :
  ChessChecker.check_move s start end_ rf = Ok b ->
  b = true
  /\ exists piece, ChessState.__getitem__ s (pos_obj start) = Ok piece.
Proof.
  unfold ChessChecker.check_move, ChessState.__contains__ at 1.
  destruct (ChessState.__getitem__ s (pos_obj start)) as [piece|e] eqn:Hget;
    cbn [is_ok require rbind]; [|discriminate].
  destruct (pos_eqb start end_) eqn:Ese; cbn [negb require rbind]; [discriminate|].
  destruct (capture_check s piece end_) as [[-> Hc]|[-> Hc]]; cbn [rbind];
    [|discriminate].
  intros H. destruct start as [sx sy], end_ as [ex ey]. cbv iota in H.
  apply rbind_ok in H. destruct H as (_ & _ & [= <-]).
  split; [reflexivity|]. exists piece. reflexivity.
Qed.

(** X13. Whatever the piece, a move that [check_move] accepts (it then
    returns [True]) starts from an occupied square, ends on another square
    and does not end on a piece of the mover's colour. *)
Theorem check_move_generic_preconditions (s : ChessState.t) (start end_ : Pos)
  (rf b : bool) :
  ChessChecker.check_move s start end_ rf = Ok b ->
  b = true
  /\ start <> end_
  /\ exists piece,
       ChessState.__getitem__ s (pos_obj start) = Ok piece
       /\ ~ captures_own s piece end_.
Proof.
  unfold ChessChecker.check_move, ChessState.__contains__ at 1.
  destruct (ChessState.__getitem__ s (pos_obj start)) as [piece|e] eqn:Hget;
    cbn [is_ok require rbind]; [|discriminate].
  destruct (pos_eqb start end_) eqn:Ese; cbn [negb require rbind]; [discriminate|].
  apply pos_eqb_neq in Ese.
  destruct (capture_check s piece end_) as [[-> Hc]|[-> Hc]]; cbn [rbind];
    [|discriminate].
  intros H. destruct start as [sx sy], end_ as [ex ey]. cbv iota in H.
  apply rbind_ok in H. destruct H as (_ & _ & [= <-]).
  split; [reflexivity|]. split; [assumption|]. exists piece. auto.
Qed.

(** *** The checker on the rotated board *)

Lemma getitem_rotated (s : ChessState.t) (p : Pos) :
  ChessState.__getitem__ (map relabel_item s) (pos_obj (relabel p))
  = ChessState.__getitem__ s (pos_obj p).
Proof. rewrite !getitem_pos, in_range_relabel, dict_get_relabel. reflexivity. Qed.

Lemma contains_rotated (s : ChessState.t) (p : Pos) :
  ChessState.__contains__ (map relabel_item s) (pos_obj (relabel p))
  = ChessState.__contains__ s (pos_obj p).
Proof. unfold ChessState.__contains__. rewrite getitem_rotated. reflexivity. Qed.

Lemma pos_eqb_relabel (p q : Pos) :
  pos_eqb (relabel p) (relabel q) = pos_eqb p q.
Proof.
  destruct (pos_eqb p q) eqn:E.
  - apply pos_eqb_eq in E; subst. apply pos_eqb_refl.
  - apply pos_eqb_neq. apply pos_eqb_neq in E.
    intros H; apply E, relabel_injective, H.
Qed.

Lemma walk_mirror (c a b : Z) :
  walk (c - a) (c - b) = map (fun y => c - y) (walk a b).
Proof.
  unfold walk.
  destruct (Z.ltb_spec a b), (Z.ltb_spec (c - a) (c - b)); try lia.
  - rewrite py_range_up, py_range_down, map_map.
    replace (Z.to_nat (c - a + -1 - (c - b))) with (Z.to_nat (b - (a + 1))) by lia.
    apply map_ext. intros i. lia.
  - rewrite py_range_up, py_range_down, map_map.
    replace (Z.to_nat (c - b - (c - a + 1))) with (Z.to_nat (a + -1 - b)) by lia.
    apply map_ext. intros i. lia.
  - rewrite !py_range_down, map_map.
    replace (Z.to_nat (c - a + -1 - (c - b))) with (Z.to_nat (a + -1 - b)) by lia.
    replace (Z.to_nat (a + -1 - b)) with 0%nat by lia. reflexivity.
Qed.

Lemma filter_map_length {A B} (f : B -> bool) (g : A -> B) (l : list A) :
  List.length (filter f (map g l)) = List.length (filter (fun a => f (g a)) l).
Proof.
  induction l as [|a l IH]; cbn; [reflexivity|].
  destruct (f (g a)); cbn; rewrite IH; reflexivity.
Qed.

Lemma count_between_rotated (s : ChessState.t) (a b : Pos) :
  ChessChecker._count_between (map relabel_item s) (relabel a) (relabel b)
  = ChessChecker._count_between s a b.
Proof.
  rewrite !count_between_eq. destruct a as [sx sy], b as [ex ey].
  unfold relabel. cbn [fst snd].
  replace (8 - sx =? 8 - ex) with (sx =? ex)
    by (destruct (Z.eqb_spec sx ex), (Z.eqb_spec (8 - sx) (8 - ex)); lia || reflexivity).
  replace (9 - sy =? 9 - ey) with (sy =? ey)
    by (destruct (Z.eqb_spec sy ey), (Z.eqb_spec (9 - sy) (9 - ey)); lia || reflexivity).
  rewrite !walk_mirror, !filter_map_length.
  destruct (sx =? ex); [|destruct (sy =? ey); [|reflexivity]];
    do 3 f_equal; apply filter_ext; intros y.
  - apply (contains_rotated s (sx, y)).
  - apply (contains_rotated s (y, sy)).
Qed.

(** *** The checker on the rotated board, the verdict *)

Lemma on_down_side_negb (c : Color) (rf : bool) :
  ChessChecker.on_down_side c (negb rf) = negb (ChessChecker.on_down_side c rf).
Proof. destruct c, rf; reflexivity. Qed.

Lemma in_side_rotated (p : Pos) (c : Color) (rf : bool) :
  ChessChecker._check_in_side (relabel p) c (negb rf)
  = ChessChecker._check_in_side p c rf.
Proof.
  unfold ChessChecker._check_in_side. rewrite on_down_side_negb.
  destruct p as [x y]; unfold relabel; cbn [fst snd].
  destruct (ChessChecker.on_down_side c rf); cbn [negb];
    destruct (Z.leb_spec y 4), (Z.leb_spec 5 (9 - y)), (Z.leb_spec (9 - y) 4),
      (Z.leb_spec 5 y); try reflexivity; lia.
Qed.

Lemma in_palace_rotated (p : Pos) (c : Color) (rf : bool) :
  ChessChecker._check_in_palace (relabel p) c (negb rf)
  = ChessChecker._check_in_palace p c rf.
Proof.
  unfold ChessChecker._check_in_palace. rewrite on_down_side_negb.
  destruct p as [x y]; unfold relabel; cbn [fst snd].
  destruct (ChessChecker.on_down_side c rf); cbn [negb];
    repeat match goal with
      | |- context [?a <=? ?b] => destruct (Z.leb_spec a b)
      end; cbn; try reflexivity; lia.
Qed.

Lemma eqb_opp_0 (d : Z) : (- d =? 0) = (d =? 0).
Proof. destruct (Z.eqb_spec (- d) 0), (Z.eqb_spec d 0); try reflexivity; lia. Qed.

Lemma ltb_opp_r (d : Z) : (0 <? - d) = (d <? 0).
Proof. destruct (Z.ltb_spec 0 (- d)), (Z.ltb_spec d 0); try reflexivity; lia. Qed.

Lemma ltb_opp_l (d : Z) : (- d <? 0) = (0 <? d).
Proof. destruct (Z.ltb_spec (- d) 0), (Z.ltb_spec 0 d); try reflexivity; lia. Qed.

(** The two calls are equal outright here, where an exception carries the
    constant part of its message. *)
Lemma check_move_relabelled (s : ChessState.t) (start end_ : Pos) (rf : bool) :
  ChessState.wf s ->
  ChessChecker.check_move (ChessState.rotate_pieces s)
    (relabel start) (relabel end_) (negb rf)
  = ChessChecker.check_move s start end_ rf.
Proof.
  intros Hwf. rewrite (rotate_pieces_map s Hwf).
  unfold ChessChecker.check_move.
  rewrite !contains_rotated, !getitem_rotated, pos_eqb_relabel,
    !count_between_rotated.
  destruct (ChessState.__contains__ s (pos_obj start)); cbn [require rbind];
    [|reflexivity].
  destruct (pos_eqb start end_); cbn [negb require rbind]; [reflexivity|].
  destruct (ChessState.__getitem__ s (pos_obj start)) as [piece|e];
    cbn [rbind]; [|reflexivity].
  match goal with
  | |- rbind ?c _ = rbind ?c _ => destruct c as [[]|e]; cbn [rbind]; [|reflexivity]
  end.
  cbv zeta.
  rewrite !in_side_rotated, !in_palace_rotated, !on_down_side_negb.
  destruct start as [sx sy], end_ as [ex ey].
  unfold relabel at 1 2. cbn [fst snd]. cbv iota.
  replace (8 - ex - (8 - sx)) with (- (ex - sx)) by lia.
  replace (9 - ey - (9 - sy)) with (- (ey - sy)) by lia.
  set (dx := ex - sx). set (dy := ey - sy).
  rewrite !Z.abs_opp, !eqb_opp_0, !ltb_opp_r, !ltb_opp_l.
  f_equal.
  repeat match goal with
    | |- (if ?b then _ else _) = (if ?b then _ else _) =>
        destruct b; [try reflexivity|]
    end.
  - (* Knight *)
    destruct (ChessChecker.pair_among (Z.abs dx, Z.abs dy) [(1, 2); (2, 1)]) eqn:Es;
      cbn [require rbind]; [|reflexivity].
    apply knight_shape in Es.
    replace (if Z.abs dx =? 2 then (8 - sx + - dx / 2, 9 - sy)
             else (8 - sx, 9 - sy + - dy / 2))
      with (relabel (if Z.abs dx =? 2 then (sx + dx / 2, sy)
                     else (sx, sy + dy / 2))).
    + rewrite contains_rotated. reflexivity.
    + destruct (Z.eqb_spec (Z.abs dx) 2) as [E|E]; unfold relabel; cbn [fst snd].
      * rewrite (half_is_sign dx E), (half_is_sign (- dx)) by lia.
        rewrite Z.sgn_opp. f_equal; lia.
      * rewrite (half_is_sign dy), (half_is_sign (- dy)) by lia.
        rewrite Z.sgn_opp. f_equal; lia.
  - (* Elephant *)
    destruct (pos_eqb (Z.abs dx, Z.abs dy) (2, 2)) eqn:Es;
      cbn [require rbind]; [|reflexivity].
    apply pos_eqb_eq in Es. injection Es as Ex Ey.
    replace (8 - sx + - dx / 2, 9 - sy + - dy / 2)
      with (relabel (sx + dx / 2, sy + dy / 2)).
    + rewrite contains_rotated. reflexivity.
    + unfold relabel; cbn [fst snd].
      rewrite (half_is_sign dx Ex), (half_is_sign (- dx)) by lia.
      rewrite (half_is_sign dy Ey), (half_is_sign (- dy)) by lia.
      rewrite !Z.sgn_opp. f_equal; lia.
  - (* Pawn *)
    destruct (ChessChecker.on_down_side _ rf); cbn [negb side_eqb andb orb];
      destruct (dy <? 0), (0 <? dy); reflexivity.
Qed.

(** X14. Turning the board round and turning the flag over does not change
    the verdict of the checker: on the rotated board, with the opposite
    flag, [check_move] returns for the relabelled squares exactly when it
    returns for the squares themselves on the board as it stood, and it
    raises exactly when it raises there. The messages are left out: two
    of them print a square. *)
Theorem check_move_rotated (s : ChessState.t) (start end_ : Pos) (rf : bool) :
  ChessState.wf s ->
  (forall b,
      ChessChecker.check_move (ChessState.rotate_pieces s)
        (relabel start) (relabel end_) (negb rf) = Ok b <->
      ChessChecker.check_move s start end_ rf = Ok b)
  /\ is_ok (ChessChecker.check_move (ChessState.rotate_pieces s)
              (relabel start) (relabel end_) (negb rf))
     = is_ok (ChessChecker.check_move s start end_ rf).
Proof.
  intros Hwf. rewrite (check_move_relabelled s start end_ rf Hwf).
  split; [intros b; split; auto|reflexivity].
Qed.

(** ** ChessParser, continued *)

(** X15. The parser and the checker resolve sides alike: [detect_side]
    gives [down] exactly where the checker places the colour at the
    bottom; the two colours are always on opposite sides, and turning the
    flag over swaps them. *)
Theorem detect_side_agrees_with_checker (color : Color) (rf : bool) :
  ChessParser.detect_side color rf
  = (if ChessChecker.on_down_side color rf then down else up)
  /\ ChessParser.detect_side (other_color color) rf
     <> ChessParser.detect_side color rf
  /\ ChessParser.detect_side color (negb rf)
     <> ChessParser.detect_side color rf.
Proof. destruct color, rf; repeat split; discriminate. Qed.

Lemma chinese_idx_range (ch : pystr) (n : Z) :
  dict_get pystr_eqb ch ChessParser.CHINESE_IDX = Some n -> 1 <= n <= 9.
Proof.
  intros H. apply (dict_get_in pystr_eqb pystr_eqb_eq) in H. cbn in H.
  repeat (destruct H as [[= <- <-]|H]; [lia|]). contradiction.
Qed.

Lemma parse_col_idx_up (ch : pystr) (color : Color) (col : Z) :
  ChessParser.parse_col_idx ch color up = Ok col -> 0 <= col <= 8.
Proof.
  unfold ChessParser.parse_col_idx. cbn [side_eqb].
  destruct (color_eqb color red).
  - destruct (dict_get pystr_eqb ch ChessParser.CHINESE_IDX) as [n|] eqn:E;
      cbn; [|discriminate].
    apply chinese_idx_range in E. intros [= <-]. lia.
  - destruct (int_of_digits ch) as [n|]; cbn; [|discriminate].
    destruct (Z.leb_spec 0 (n - 1)), (Z.leb_spec (n - 1) 8); cbn;
      try discriminate. intros [= <-]. lia.
Qed.

Lemma parse_col_idx_mirror (ch : pystr) (color : Color) :
  ChessParser.parse_col_idx ch color down
  = (col <- ChessParser.parse_col_idx ch color up ;; Ok (8 - col)).
Proof.
  unfold ChessParser.parse_col_idx. cbn [side_eqb].
  match goal with |- rbind ?c _ = _ => destruct c; reflexivity end.
Qed.

Lemma parse_row_delta_down (ch : pystr) (color : Color) (d : Z) :
  ChessParser.parse_row_delta ch color down = Ok d ->
  0 <= d <= 9 /\ (color = red -> 1 <= d).
Proof.
  unfold ChessParser.parse_row_delta. cbn [side_eqb].
  destruct color; cbn [color_eqb].
  - destruct (dict_get pystr_eqb ch ChessParser.CHINESE_NUM) as [n|] eqn:E;
      cbn; [|discriminate].
    apply chinese_idx_range in E. intros [= <-]. lia.
  - destruct (int_of_digits ch) as [n|]; cbn; [|discriminate].
    destruct (Z.leb_spec 0 n), (Z.leb_spec n 9); cbn; try discriminate.
    intros [= <-]. split; [lia|discriminate].
Qed.

Lemma parse_row_delta_mirror (ch : pystr) (color : Color) :
  ChessParser.parse_row_delta ch color up
  = (d <- ChessParser.parse_row_delta ch color down ;; Ok (- d)).
Proof.
  unfold ChessParser.parse_row_delta. cbn [side_eqb].
  match goal with |- rbind ?c _ = _ => destruct c; reflexivity end.
Qed.

Lemma parse_col_idx_range (ch : pystr) (color : Color) (side : Side) (col : Z) :
  ChessParser.parse_col_idx ch color side = Ok col -> 0 <= col <= 8.
Proof.
  destruct side; intros H; [apply parse_col_idx_up in H; exact H|].
  rewrite parse_col_idx_mirror in H. apply rbind_ok in H.
  destruct H as (c & Hc & H).
  assert (E : col = 8 - c) by (cbv beta in H; congruence).
  apply parse_col_idx_up in Hc. lia.
Qed.

(** X16. A column that [parse_col_idx] returns is a column of the board,
    and the two sides read the same glyph as mirrored columns, [c] and
    [8 - c]. A step that [parse_row_delta] returns has between 0 and 9
    rows, at least 1 for red; it is positive or zero for the side [down]
    and the opposite number for the side [up]. *)
Theorem parse_col_and_row_ranges (ch : pystr) (color : Color) :
  (forall side col,
      ChessParser.parse_col_idx ch color side = Ok col -> 0 <= col <= 8)
  /\ (forall col,
        ChessParser.parse_col_idx ch color up = Ok col <->
        ChessParser.parse_col_idx ch color down = Ok (8 - col))
  /\ (forall d,
        ChessParser.parse_row_delta ch color down = Ok d ->
        0 <= d <= 9 /\ (color = red -> 1 <= d))
  /\ (forall d,
        ChessParser.parse_row_delta ch color down = Ok d <->
        ChessParser.parse_row_delta ch color up = Ok (- d)).
Proof.
  split; [|split; [|split]].
  - intros side col. apply parse_col_idx_range.
  - intros col. rewrite parse_col_idx_mirror.
    destruct (ChessParser.parse_col_idx ch color up) as [c|e]; cbn [rbind].
    + split; [intros [= ->]; reflexivity|].
      intros H. assert (8 - c = 8 - col) by congruence. f_equal; lia.
    + split; discriminate.
  - apply parse_row_delta_down.
  - intros d. rewrite parse_row_delta_mirror.
    destruct (ChessParser.parse_row_delta ch color down) as [c|e]; cbn [rbind].
    + split; [intros [= ->]; reflexivity|].
      intros H. assert (- c = - d) by congruence. f_equal; lia.
    + split; discriminate.
Qed.

Lemma red_pieces_values (ch v : pystr) :
  dict_get pystr_eqb ch ChessParser.RED_PIECES = Some v ->
  dict_get pystr_eqb ch ChessParser.BLACK_PIECES = None
  /\ In v ChessState.alphabet /\ piece_color v = red
  /\ In (lower v) ChessState.alphabet /\ piece_color (lower v) = black
  /\ upper v = v /\ lower (lower v) = lower v.
Proof.
  intros H. apply (dict_get_in pystr_eqb pystr_eqb_eq) in H. cbn in H.
  repeat (destruct H as [[= <- <-]|H]; [vm_compute; tauto|]). contradiction.
Qed.

Lemma black_pieces_values (ch v : pystr) :
  dict_get pystr_eqb ch ChessParser.BLACK_PIECES = Some v ->
  dict_get pystr_eqb ch ChessParser.RED_PIECES = None
  /\ In v ChessState.alphabet /\ piece_color v = black
  /\ In (upper v) ChessState.alphabet /\ piece_color (upper v) = red
  /\ lower v = v /\ lower (upper v) = v.
Proof.
  intros H. apply (dict_get_in pystr_eqb pystr_eqb_eq) in H. cbn in H.
  repeat (destruct H as [[= <- <-]|H]; [vm_compute; tauto|]). contradiction.
Qed.

Lemma parse_piece_char_sound (ch : pystr) (color : Color) (strict : bool)
  (piece : pystr) :
  ChessParser.parse_piece_char ch color strict = Ok piece ->
  In piece ChessState.alphabet /\ piece_color piece = color.
Proof.
  unfold ChessParser.parse_piece_char.
  destruct (dict_get pystr_eqb ch ChessParser.RED_PIECES) as [r|] eqn:Er.
  - destruct (red_pieces_values _ _ Er) as (-> & R1 & R2 & R3 & R4 & R5 & R6).
    destruct color, strict; cbn [color_eqb]; intros [= <-]; rewrite ?R5; auto.
  - destruct (dict_get pystr_eqb ch ChessParser.BLACK_PIECES) as [b|] eqn:Eb.
    + destruct (black_pieces_values _ _ Eb) as (_ & B1 & B2 & B3 & B4 & B5 & B6).
      destruct color, strict; cbn [color_eqb]; intros [= <-]; rewrite ?B5; auto.
    + destruct color, strict; discriminate.
Qed.

(** X17. A symbol that [parse_piece_char] returns is one of the fourteen
    symbols and has the colour asked for, in either mode. What strict mode
    accepts, the other mode accepts with the same symbol; the other mode
    also reads a glyph of the opposite colour, as the same kind of piece. *)
Theorem parse_piece_char_color (ch : pystr) (color : Color) :
  (forall strict piece,
      ChessParser.parse_piece_char ch color strict = Ok piece ->
      In piece ChessState.alphabet /\ piece_color piece = color)
  /\ (forall piece,
        ChessParser.parse_piece_char ch color true = Ok piece ->
        ChessParser.parse_piece_char ch color false = Ok piece)
  /\ (forall piece,
        ChessParser.parse_piece_char ch (other_color color) true = Ok piece ->
        exists piece',
          ChessParser.parse_piece_char ch color false = Ok piece'
          /\ lower piece' = lower piece).
Proof.
  unfold ChessParser.parse_piece_char.
  destruct (dict_get pystr_eqb ch ChessParser.RED_PIECES) as [r|] eqn:Er.
  - destruct (red_pieces_values _ _ Er) as (-> & R1 & R2 & R3 & R4 & R5 & R6).
    destruct color; cbn [color_eqb other_color];
      (split; [intros [] piece; intros [= <-]; rewrite ?R5; auto|]);
      (split; [intros piece; intros [= <-]; rewrite ?R5; reflexivity|]);
      intros piece; intros [= <-]; eexists; (split; [reflexivity|]);
      rewrite ?R5, ?R6; reflexivity.
  - destruct (dict_get pystr_eqb ch ChessParser.BLACK_PIECES) as [b|] eqn:Eb.
    + destruct (black_pieces_values _ _ Eb) as (_ & B1 & B2 & B3 & B4 & B5 & B6).
      destruct color; cbn [color_eqb other_color];
        (split; [intros [] piece; intros [= <-]; rewrite ?B5; auto|]);
        (split; [intros piece; intros [= <-]; rewrite ?B5; reflexivity|]);
        intros piece; intros [= <-]; eexists; (split; [reflexivity|]);
        rewrite ?B5, ?B6; reflexivity.
    + destruct color; cbn [color_eqb other_color];
        (split; [intros [] piece; discriminate|]);
        (split; [intros piece; discriminate|]);
        intros piece; discriminate.
Qed.

(** What [parse_cmd] has computed when it returns. *)
Lemma parse_cmd_inversion (g : bool) (s : ChessState.t) (cmd : pystr)
  (rotate_flag : option bool) (strict : bool) (start end_ : Pos) :
  ChessParser.parse_cmd g s cmd rotate_flag strict = Ok (start, end_) ->
  exists piece_ch op_type op_arg_ch color piece,
    ChessParser.detect_color cmd = Ok color
    /\ ChessParser.parse_piece_char piece_ch color strict = Ok piece
    /\ ChessState.__getitem__ s (pos_obj start) = Ok piece
    /\ ChessParser.end_of piece op_type op_arg_ch color
         (ChessParser.detect_side color (or_default rotate_flag g)) start
       = Ok end_.
Proof.
  unfold ChessParser.parse_cmd, ChessState.items. intros H.
  apply rbind_ok in H. destruct H as (its & Hits & H).
  apply rbind_ok in H. destruct H as (c0 & _ & H).
  apply rbind_ok in H.
  destruct H as ([[[piece_ch col_ch] op_type] op_arg] & _ & H).
  apply rbind_ok in H. destruct H as (color & Hcolor & H).
  apply rbind_ok in H. destruct H as (piece & Hpiece & H).
  apply rbind_ok in H. destruct H as (start' & Hstart & H).
  apply rbind_ok in H. destruct H as (end' & Hend & [= <- <-]).
  exists piece_ch, op_type, op_arg, color, piece.
  repeat split; try assumption.
  apply (items_of_sound _ _ _ Hits).
  assert (exists l, dict_get pystr_eqb piece (ChessParser.build_state_map its) = Some l
                    /\ In start' l) as (l & Hl & Hin).
  { destruct (negb _); [eapply start_default_in|eapply start_hard_in]; eassumption. }
  eapply build_state_map_sound; eassumption.
Qed.

(** X18. The piece that an accepted command moves is of the colour that
    the numerals of the command show, Arabic for black and Chinese for
    red, and is one of the fourteen symbols: [parse_cmd] never picks a
    piece of the other side. *)
Theorem parse_cmd_moves_own_piece (g : bool) (s : ChessState.t) (cmd : pystr)
  (rotate_flag : option bool) (strict : bool) (start end_ : Pos) :
  ChessParser.parse_cmd g s cmd rotate_flag strict = Ok (start, end_) ->
  exists color piece,
    ChessParser.detect_color cmd = Ok color
    /\ ChessState.__getitem__ s (pos_obj start) = Ok piece
    /\ In piece ChessState.alphabet
    /\ piece_color piece = color.
Proof.
  intros H. apply parse_cmd_inversion in H.
  destruct H as (piece_ch & op_type & op_arg & color & piece & H1 & H2 & H3 & _).
  exists color, piece.
  destruct (parse_piece_char_sound piece_ch color strict piece H2).
  auto.
Qed.

Lemma alphabet_kinds (piece : pystr) :
  In piece ChessState.alphabet ->
  (str_among (lower piece) [py "k"; py "r"; py "c"; py "p"] = true
   /\ In (lower piece) [py "k"; py "r"; py "c"; py "p"])
  \/ (str_among (lower piece) [py "k"; py "r"; py "c"; py "p"] = false
      /\ str_among (lower piece) [py "a"; py "e"] = true
      /\ (lower piece = py "a" /\ pystr_eqb (lower piece) (py "a") = true
          \/ lower piece = py "e" /\ pystr_eqb (lower piece) (py "a") = false))
  \/ (str_among (lower piece) [py "k"; py "r"; py "c"; py "p"] = false
      /\ str_among (lower piece) [py "a"; py "e"] = false
      /\ lower piece = py "h").
Proof.
  intros H. cbn in H.
  repeat (destruct H as [<-|H]; [vm_compute; tauto|]). contradiction.
Qed.

Lemma delta_unit_one (color : Color) (side : Side) (d : Z) :
  ChessParser.parse_row_delta
    (if color_eqb color red then [ChessParser.zh1] else py "1") color side
  = Ok d -> Z.abs d = 1.
Proof. destruct color, side; vm_compute; intros [= <-]; reflexivity. Qed.

Lemma delta_unit_two (color : Color) (side : Side) (d : Z) :
  ChessParser.parse_row_delta
    (if color_eqb color red then [ChessParser.zh2] else py "2") color side
  = Ok d -> Z.abs d = 2.
Proof. destruct color, side; vm_compute; intros [= <-]; reflexivity. Qed.

Lemma unit_row (unit op_type : pystr) (color : Color) (side : Side)
  (sy row n : Z) :
  (forall d, ChessParser.parse_row_delta unit color side = Ok d -> Z.abs d = n) ->
  (if pystr_eqb op_type [ChessParser.g_jin] then
     delta <- ChessParser.parse_row_delta unit color side ;;
     Ok (sy + delta)
   else if pystr_eqb op_type [ChessParser.g_tui] then
     delta <- ChessParser.parse_row_delta unit color side ;;
     Ok (sy - delta)
   else Raise (ValueError "Invalid operator")) = Ok row ->
  Z.abs (row - sy) = n.
Proof.
  intros Hd H.
  destruct (pystr_eqb op_type [ChessParser.g_jin]);
    [|destruct (pystr_eqb op_type [ChessParser.g_tui]); [|discriminate]];
    apply rbind_ok in H; destruct H as (d & Hdd & H);
    apply Hd in Hdd.
  - assert (row = sy + d) by congruence. lia.
  - assert (row = sy - d) by congruence. lia.
Qed.

Ltac not_this_kind K :=
  let E := fresh in
  intros E; rewrite ?E in K; vm_compute in K; discriminate.

Ltac not_these_kinds K :=
  let E := fresh in
  intros E; cbn [In] in E;
  repeat (destruct E as [E|E];
          [rewrite <- E in K; vm_compute in K; discriminate|]);
  contradiction.

(** X19. The squares of an accepted command. The starting square is
    occupied, hence on the board, and the column of the destination is
    always a column of the board. For a king, rook, cannon or pawn the
    destination is on the board, in the row or in the column of the start.
    For an advisor the row changes by one, for an elephant by two, and for
    a horse the displacement is one column and two rows or two columns and
    one row; these three rows are not checked against the board. *)
Theorem parse_cmd_geometry (g : bool) (s : ChessState.t) (cmd : pystr)
  (rotate_flag : option bool) (strict : bool) (start end_ : Pos) :
  ChessParser.parse_cmd g s cmd rotate_flag strict = Ok (start, end_) ->
  let dx := fst end_ - fst start in
  let dy := snd end_ - snd start in
  exists piece,
    ChessState.__getitem__ s (pos_obj start) = Ok piece
    /\ ChessState.in_range start = true
    /\ 0 <= fst end_ <= 8
    /\ (In (lower piece) [py "k"; py "r"; py "c"; py "p"] ->
        ChessState.in_range end_ = true /\ (dx = 0 \/ dy = 0))
    /\ (lower piece = py "a" -> Z.abs dy = 1)
    /\ (lower piece = py "e" -> Z.abs dy = 2)
    /\ (lower piece = py "h" ->
        (Z.abs dx = 1 /\ Z.abs dy = 2) \/ (Z.abs dx = 2 /\ Z.abs dy = 1)).
Proof.
  intros H dx dy. apply parse_cmd_inversion in H.
  destruct H as (piece_ch & op_type & op_arg & color & piece & H1 & H2 & H3 & H4).
  exists piece. split; [assumption|].
  pose proof (proj1 (getitem_ok _ _ _) H3) as [Hin _].
  split; [assumption|].
  pose proof (proj1 (in_range_bounds _) Hin) as Hb.
  destruct (parse_piece_char_sound piece_ch color strict piece H2)
    as [Halpha _].
  set (side := ChessParser.detect_side color (or_default rotate_flag g)) in *.
  pose proof (parse_col_idx_range op_arg color side) as Hcol.
  destruct start as [sx sy], end_ as [ex ey]. cbn [fst snd] in *.
  unfold ChessParser.end_of in H4. cbn [fst snd] in H4.
  destruct (alphabet_kinds piece Halpha)
    as [(K1 & K2)|[(K1 & K2 & K3)|(K1 & K2 & K3)]];
    rewrite K1 in H4; try rewrite K2 in H4.
  - (* king, rook, cannon, pawn *)
    assert (0 <= ex <= 8 /\ 0 <= ey <= 9 /\ (ex = sx \/ ey = sy)) as (Hx & Hy & Hal).
    { destruct (pystr_eqb op_type [ChessParser.g_ping]).
      - apply rbind_ok in H4. destruct H4 as (col & Hc & H4).
        apply Hcol in Hc. injection H4 as <- <-. lia.
      - destruct (pystr_eqb op_type [ChessParser.g_jin]);
          [|destruct (pystr_eqb op_type [ChessParser.g_tui]); [|discriminate]];
          apply rbind_ok in H4; destruct H4 as (d & _ & H4);
          apply rbind_ok in H4; destruct H4 as ([] & Hr & H4);
          injection H4 as <- <-;
          unfold require in Hr;
          match type of Hr with
          | (if ?b then _ else _) = _ => destruct b eqn:E; [|discriminate]
          end;
          apply andb_true_iff in E; destruct E as [E1 E2];
          apply Z.leb_le in E1, E2; lia. }
    split; [assumption|]. split.
    + intros _. split; [apply in_range_bounds; cbn [fst snd]; lia|].
      subst dx dy. lia.
    + split; [not_this_kind K1|]. split; not_this_kind K1.
  - (* advisor, elephant *)
    apply rbind_ok in H4. destruct H4 as (col & Hc & H4). apply Hcol in Hc.
    apply rbind_ok in H4. destruct H4 as (row & Hrow & H4).
    assert (ex = col /\ ey = row) as [-> ->] by (split; congruence).
    split; [assumption|]. split; [not_these_kinds K1|].
    destruct K3 as [[Ka Kb]|[Ka Kb]]; rewrite Kb in Hrow.
    + apply (unit_row _ _ _ _ _ _ 1 (delta_unit_one color side)) in Hrow.
      split; [intros _; exact Hrow|].
      split; [not_this_kind Kb|]. not_this_kind K2.
    + apply (unit_row _ _ _ _ _ _ 2 (delta_unit_two color side)) in Hrow.
      split; [not_this_kind Kb|].
      split; [intros _; exact Hrow|]. not_this_kind K2.
  - (* horse *)
    apply rbind_ok in H4. destruct H4 as (col & Hc & H4). apply Hcol in Hc.
    apply rbind_ok in H4. destruct H4 as (unit & Hunit & H4).
    apply rbind_ok in H4. destruct H4 as (row & Hrow & H4).
    assert (ex = col /\ ey = row) as [-> ->] by (split; congruence).
    split; [assumption|]. split; [not_these_kinds K1|].
    split; [not_this_kind K2|]. split; [not_this_kind K2|].
    intros _. subst dx dy.
    destruct (Z.eqb_spec (Z.abs (col - sx)) 1) as [E1|E1].
    + injection Hunit as <-.
      apply (unit_row _ _ _ _ _ _ 2 (delta_unit_two color side)) in Hrow. auto.
    + destruct (Z.eqb_spec (Z.abs (col - sx)) 2) as [E2|E2]; [|discriminate].
      injection Hunit as <-.
      apply (unit_row _ _ _ _ _ _ 1 (delta_unit_one color side)) in Hrow. auto.
Qed.

(** *** What the parser leaves to the checker *)

Lemma end_of_shape (piece op_type op_arg : pystr) (color : Color) (side : Side)
  (start end_ : Pos) :
  In piece ChessState.alphabet ->
  ChessState.in_range start = true ->
  ChessParser.end_of piece op_type op_arg color side start = Ok end_ ->
  parser_shape piece start end_.
Proof.
  intros Halpha Hin H4.
  apply in_range_bounds in Hin.
  pose proof (parse_col_idx_range op_arg color side) as Hcol.
  destruct start as [sx sy], end_ as [ex ey].
  unfold parser_shape. cbn [fst snd] in *.
  unfold ChessParser.end_of in H4. cbn [fst snd] in H4.
  destruct (alphabet_kinds piece Halpha)
    as [(K1 & K2)|[(K1 & K2 & K3)|(K1 & K2 & K3)]];
    rewrite K1 in *; try rewrite K2 in *.
  - (* king, rook, cannon, pawn *)
    assert (0 <= ex <= 8 /\ 0 <= ey <= 9 /\ (ex = sx \/ ey = sy)) as (Hx & Hy & Hal).
    { destruct (pystr_eqb op_type [ChessParser.g_ping]).
      - apply rbind_ok in H4. destruct H4 as (col & Hc & H4).
        apply Hcol in Hc. injection H4 as <- <-. lia.
      - destruct (pystr_eqb op_type [ChessParser.g_jin]);
          [|destruct (pystr_eqb op_type [ChessParser.g_tui]); [|discriminate]];
          apply rbind_ok in H4; destruct H4 as (d & _ & H4);
          apply rbind_ok in H4; destruct H4 as ([] & Hr & H4);
          injection H4 as <- <-;
          unfold require in Hr;
          match type of Hr with
          | (if ?b then _ else _) = _ => destruct b eqn:E; [|discriminate]
          end;
          apply andb_true_iff in E; destruct E as [E1 E2];
          apply Z.leb_le in E1, E2; lia. }
    split; [apply in_range_bounds; cbn [fst snd]; lia|lia].
  - (* advisor, elephant *)
    apply rbind_ok in H4. destruct H4 as (col & Hc & H4). apply Hcol in Hc.
    apply rbind_ok in H4. destruct H4 as (row & Hrow & H4).
    assert (ex = col /\ ey = row) as [-> ->] by (split; congruence).
    split; [assumption|].
    destruct K3 as [[Ka Kb]|[Ka Kb]]; rewrite Kb in *.
    + apply (unit_row _ _ _ _ _ _ 1 (delta_unit_one color side)) in Hrow.
      exact Hrow.
    + apply (unit_row _ _ _ _ _ _ 2 (delta_unit_two color side)) in Hrow.
      exact Hrow.
  - (* horse *)
    apply rbind_ok in H4. destruct H4 as (col & Hc & H4). apply Hcol in Hc.
    apply rbind_ok in H4. destruct H4 as (unit & Hunit & H4).
    apply rbind_ok in H4. destruct H4 as (row & Hrow & H4).
    assert (ex = col /\ ey = row) as [-> ->] by (split; congruence).
    split; [assumption|].
    destruct (Z.eqb_spec (Z.abs (col - sx)) 1) as [E1|E1].
    + injection Hunit as <-.
      apply (unit_row _ _ _ _ _ _ 2 (delta_unit_two color side)) in Hrow. auto.
    + destruct (Z.eqb_spec (Z.abs (col - sx)) 2) as [E2|E2]; [|discriminate].
      injection Hunit as <-.
      apply (unit_row _ _ _ _ _ _ 1 (delta_unit_one color side)) in Hrow. auto.
Qed.

Lemma alphabet_cases (piece : pystr) :
  In piece ChessState.alphabet ->
  (piece = py "R" \/ piece = py "r") \/ (piece = py "H" \/ piece = py "h")
  \/ (piece = py "E" \/ piece = py "e") \/ (piece = py "A" \/ piece = py "a")
  \/ (piece = py "K" \/ piece = py "k") \/ (piece = py "C" \/ piece = py "c")
  \/ (piece = py "P" \/ piece = py "p").
Proof.
  intros H. cbn in H.
  repeat (destruct H as [<-|H]; [vm_compute; tauto|]). contradiction.
Qed.

Lemma check_move_on_parsed (s : ChessState.t) (start end_ : Pos) (rf : bool)
  (piece : pystr) :
  ChessState.__getitem__ s (pos_obj start) = Ok piece ->
  In piece ChessState.alphabet ->
  parser_shape piece start end_ ->
  ChessChecker.check_move s start end_ rf = Ok true <->
  start <> end_
  /\ ~ captures_own s piece end_
  /\ left_to_checker s piece rf start end_.
Proof.
  intros Hget Halpha Hsh. generic_part s piece end_ Hget.
  pose proof (in_palace_spec end_ piece rf) as Hpal.
  pose proof (in_side_spec end_ piece rf) as Hside.
  unfold piece_color in Hpal, Hside.
  unfold parser_shape in Hsh. unfold left_to_checker.
  destruct start as [sx sy], end_ as [ex ey]. cbn [fst snd] in *.
  set (dx := ex - sx) in *. set (dy := ey - sy) in *.
  destruct (alphabet_cases piece Halpha)
    as [Hp|[Hp|[Hp|[Hp|[Hp|[Hp|Hp]]]]]].
  - (* rook *)
    assert (Hal : dx = 0 \/ dy = 0)
      by (destruct Hp; subst piece; vm_compute in Hsh; tauto).
    clear Hsh.
    destruct (ChessChecker._count_between s (sx, sy) (ex, ey)) as [cnt|e] eqn:Ec;
    destruct Hp; subst piece; eval_tests; cbv iota; fold dx dy;
      repeat (split_tests; cbn [rbind require negb andb orb]);
      finish_rule.
  - (* horse *)
    assert (Hs : (Z.abs dx = 1 /\ Z.abs dy = 2) \/ (Z.abs dx = 2 /\ Z.abs dy = 1))
      by (destruct Hp; subst piece; vm_compute in Hsh; tauto).
    clear Hsh.
    pose proof (proj2 (knight_shape _ _) Hs) as Es.
    unfold knight_leg. cbn [fst snd]. fold dx dy.
    assert (Hleg : (if Z.abs dx =? 2 then (sx + dx / 2, sy) else (sx, sy + dy / 2))
                   = (if Z.abs dx =? 2 then (sx + Z.sgn dx, sy)
                      else (sx, sy + Z.sgn dy))).
    { destruct (Z.eqb_spec (Z.abs dx) 2) as [E|E].
      - rewrite (half_is_sign dx E). reflexivity.
      - rewrite (half_is_sign dy) by lia. reflexivity. }
    destruct Hp; subst piece; eval_tests; cbv iota;
      fold dx dy; rewrite ?Es, Hleg; cbn [require rbind];
      destruct (ChessState.__contains__ s _); cbn;
      split; try discriminate; try tauto; intros (_ & _ & H); discriminate.
  - (* elephant *)
    assert (Hs : Z.abs dy = 2)
      by (destruct Hp; subst piece; vm_compute in Hsh; tauto).
    clear Hsh.
    unfold elephant_eye. cbn [fst snd]. fold dx dy.
    destruct (pos_eqb (Z.abs dx, Z.abs dy) (2, 2)) eqn:Es.
    + apply pos_eqb_eq in Es. injection Es as Ex Ey.
      rewrite <- (half_is_sign dx Ex), <- (half_is_sign dy Ey).
      destruct Hp; subst piece; eval_tests; cbv iota;
        fold dx dy; cbn [require rbind];
        destruct (ChessState.__contains__ s _); cbn [negb require rbind];
        try (split; [discriminate|intros (_ & _ & _ & H & _); discriminate]);
        destruct (ChessChecker._check_in_side _ _ _); cbn [require rbind];
        split; try discriminate; try tauto;
        try (intros _; repeat split; try assumption; tauto);
        intros (_ & _ & _ & _ & H); apply Hside in H; discriminate.
    + assert (Hx : Z.abs dx <> 2).
      { intros E1. rewrite E1, Hs in Es. discriminate. }
      destruct Hp; subst piece; eval_tests; cbv iota;
        fold dx dy; rewrite ?Es; cbn [require rbind];
        split; try discriminate; tauto.
  - (* advisor *)
    assert (Hs : Z.abs dy = 1)
      by (destruct Hp; subst piece; vm_compute in Hsh; tauto).
    clear Hsh.
    destruct (pos_eqb (Z.abs dx, Z.abs dy) (1, 1)) eqn:Es.
    + apply pos_eqb_eq in Es. injection Es as Ex Ey.
      destruct (ChessChecker._check_in_palace (ex, ey)
                  (if isupper piece then red else black) rf) eqn:Ep;
        destruct Hp; subst piece; eval_tests; cbv iota; fold dx dy;
        rewrite ?Ep; cbn [require rbind];
        (split; [try discriminate; intros _; repeat split; try assumption;
                 apply Hpal; reflexivity
                |try reflexivity; intros (_ & _ & _ & H); apply Hpal in H;
                 discriminate]).
    + assert (Hx : Z.abs dx <> 1).
      { intros E1. rewrite E1, Hs in Es. discriminate. }
      destruct Hp; subst piece; eval_tests; cbv iota;
        fold dx dy; rewrite ?Es; cbn [require rbind];
        split; try discriminate; tauto.
  - (* king *)
    clear Hsh. unfold orthogonal_step.
    destruct (ChessChecker.pair_among (Z.abs dx, Z.abs dy) [(1, 0); (0, 1)]) eqn:Es.
    + pose proof (proj1 (step_shape _ _) Es) as Hs.
      destruct (ChessChecker._check_in_palace (ex, ey)
                  (if isupper piece then red else black) rf) eqn:Ep;
        destruct Hp; subst piece; eval_tests; cbv iota; fold dx dy;
        rewrite ?Es, ?Ep; cbn [require rbind];
        (split; [try discriminate; intros _; repeat split; try assumption;
                 apply Hpal; reflexivity
                |try reflexivity; intros (_ & _ & _ & H); apply Hpal in H;
                 discriminate]).
    + assert (Hs : ~ ((Z.abs dx = 1 /\ Z.abs dy = 0) \/ (Z.abs dx = 0 /\ Z.abs dy = 1)))
        by (rewrite <- step_shape, Es; discriminate).
      destruct Hp; subst piece; eval_tests; cbv iota;
        fold dx dy; rewrite ?Es; cbn [require rbind];
        split; try discriminate; tauto.
  - (* cannon *)
    assert (Hal : dx = 0 \/ dy = 0)
      by (destruct Hp; subst piece; vm_compute in Hsh; tauto).
    clear Hsh.
    destruct (ChessChecker._count_between s (sx, sy) (ex, ey)) as [cnt|e] eqn:Ec;
    destruct (ChessState.__contains__ s (pos_obj (ex, ey)));
    destruct Hp; subst piece; eval_tests; cbv iota; fold dx dy;
      repeat (split_tests; cbn [rbind require negb andb orb]);
      finish_rule.
  - (* pawn *)
    clear Hsh. unfold orthogonal_step, backward, on_own_bank, resolved_side,
      piece_color.
    destruct Hp; subst piece; eval_tests; cbv iota;
      unfold ChessChecker.pair_among, existsb, pos_eqb,
        ChessChecker._check_in_side, ChessChecker.on_down_side;
      destruct rf; cbn [fst snd color_eqb side_eqb negb andb orb];
      split_tests; cbn; split;
      try discriminate; try (intros _; repeat split; try tauto; lia);
      try (intros (_ & _ & H1 & H2 & H3); exfalso; lia).
Qed.

(** C1. A command that [parse_cmd] accepts against a board moves a piece
    of the command's colour that stands on the returned start, along a
    path of the shape the parser builds for its kind; and [check_move] on
    the same board and pair, under whatever flag, succeeds exactly when
    the two squares differ, the destination holds no piece of the mover's
    colour, and the rest of the piece's rule holds, which the parser does
    not look at: a free path for a rook, the screen of a cannon, the leg
    of a horse, the step and the palace of a king, the column and the
    palace of an advisor, the column, the eye and the bank of an
    elephant, the step, the direction and the river of a pawn. *)
Theorem parse_cmd_then_check_move (g : bool) (s : ChessState.t) (cmd : pystr)
  (rotate_flag : option bool) (strict : bool) (start end_ : Pos) :
  ChessParser.parse_cmd g s cmd rotate_flag strict = Ok (start, end_) ->
  exists piece,
    ChessState.__getitem__ s (pos_obj start) = Ok piece
    /\ In piece ChessState.alphabet
    /\ ChessParser.detect_color cmd = Ok (piece_color piece)
    /\ parser_shape piece start end_
    /\ forall flag,
         is_ok (ChessChecker.check_move s start end_ flag) = true <->
         start <> end_
         /\ ~ captures_own s piece end_
         /\ left_to_checker s piece flag start end_.
Proof.
  intros H. apply parse_cmd_inversion in H.
  destruct H as (piece_ch & op_type & op_arg & color & piece & H1 & H2 & H3 & H4).
  destruct (parse_piece_char_sound piece_ch color strict piece H2)
    as [Halpha Hcolor].
  pose proof (proj1 (getitem_ok _ _ _) H3) as [Hin _].
  pose proof (end_of_shape _ _ _ _ _ _ _ Halpha Hin H4) as Hsh.
  exists piece. split; [exact H3|]. split; [exact Halpha|].
  split; [rewrite Hcolor; exact H1|]. split; [exact Hsh|].
  intros flag.
  rewrite <- (check_move_on_parsed s start end_ flag piece H3 Halpha Hsh).
  destruct (ChessChecker.check_move s start end_ flag) as [b|e] eqn:Ec.
  - destruct (check_move_returns_true _ _ _ _ _ Ec) as (-> & _).
    split; reflexivity.
  - split; discriminate.
Qed.

Lemma parse_cmd_then_check_move_witness :
  ChessParser.parse_cmd false ChessState._DEFALUT_STATE pao_er_ping_wu None false
  = Ok ((7, 2), (4, 2))
  /\ ChessChecker.check_move ChessState._DEFALUT_STATE (7, 2) (4, 2) false
     = Ok true
  /\ exists piece,
       ChessState.__getitem__ ChessState._DEFALUT_STATE (pos_obj (7, 2)) = Ok piece
       /\ In piece ChessState.alphabet
       /\ ChessParser.detect_color pao_er_ping_wu = Ok (piece_color piece)
       /\ parser_shape piece (7, 2) (4, 2)
       /\ forall flag,
            is_ok (ChessChecker.check_move ChessState._DEFALUT_STATE
                     (7, 2) (4, 2) flag) = true <->
            (7, 2) <> (4, 2)
            /\ ~ captures_own ChessState._DEFALUT_STATE piece (4, 2)
            /\ left_to_checker ChessState._DEFALUT_STATE piece flag (7, 2) (4, 2).
Proof.
  assert (H : ChessParser.parse_cmd false ChessState._DEFALUT_STATE
                pao_er_ping_wu None false = Ok ((7, 2), (4, 2)))
    by (vm_compute; reflexivity).
  split; [exact H|]. split; [vm_compute; reflexivity|].
  exact (parse_cmd_then_check_move false ChessState._DEFALUT_STATE
           pao_er_ping_wu None false (7, 2) (4, 2) H).
Defined.

Lemma check_alternation_spec (c : Color) (cmds checked : list pystr) :
  ChessParser.check_alternation c cmds = Ok checked
  <-> checked = cmds /\ colors_alternate c cmds.
Proof.
  revert c checked. induction cmds as [|cmd cmds IH]; intros c checked; cbn.
  - split; [intros [= <-]; auto|intros [-> _]; reflexivity].
  - destruct (ChessParser.detect_color cmd) as [c'|e]; cbn [rbind].
    + replace (if color_eqb c black then red else black) with (other_color c)
        by (destruct c; reflexivity).
      destruct (color_eqb c' c) eqn:E; cbn [require rbind].
      * assert (c' = c) as -> by (destruct c', c; congruence || discriminate).
        destruct (ChessParser.check_alternation (other_color c) cmds) as [l|e] eqn:El;
          cbn [rbind].
        -- apply IH in El. destruct El as [-> Ha].
           split; [intros [= <-]; auto|intros [-> _]; reflexivity].
        -- split; [discriminate|]. intros [-> [_ Ha]].
           assert (ChessParser.check_alternation (other_color c) cmds = Ok cmds)
             by (apply IH; auto). congruence.
      * split; [discriminate|]. intros [_ [[= ->] _]].
        destruct c; discriminate.
    + split; [discriminate|]. intros [_ [H _]]. discriminate.
Qed.

(** X20. What [normalize_cmds] returns is the list of the stripped,
    non-empty pieces of the text, unchanged, and it returns it exactly when
    the list is empty or its commands show alternating colours, starting
    with any; otherwise it raises. No command it returns is empty, so the
    filter of [exec] keeps them all. *)
Theorem normalize_cmds_alternates (ops : TextOps) (text : pystr)
  (cmds : list pystr) :
  let tokens :=
    map (strip ops)
      (filter (fun p => truthy (strip ops p))
         (split_separators ops (sub_turn_numbers ops text))) in
  (ChessParser.normalize_cmds ops text = Ok cmds <->
   cmds = tokens
   /\ (tokens = [] \/ exists c, colors_alternate c tokens))
  /\ (ChessParser.normalize_cmds ops text = Ok cmds ->
      filter truthy cmds = cmds).
Proof.
  intros tokens.
  assert (Hne : filter truthy tokens = tokens).
  { subst tokens.
    induction (split_separators ops (sub_turn_numbers ops text)) as [|p l IH];
      cbn; [reflexivity|].
    destruct (truthy (strip ops p)) eqn:E; cbn; [rewrite E, IH|]; auto. }
  assert (Hiff : ChessParser.normalize_cmds ops text = Ok cmds <->
                 cmds = tokens
                 /\ (tokens = [] \/ exists c, colors_alternate c tokens)).
  { unfold ChessParser.normalize_cmds. fold tokens.
    destruct tokens as [|cmd0 rest] eqn:Et.
    - split; [intros [= <-]; auto|intros [-> _]; reflexivity].
    - destruct (ChessParser.detect_color cmd0) as [c0|e] eqn:E0; cbn [rbind].
      + rewrite check_alternation_spec. split.
        * intros [-> Ha]. split; [reflexivity|]. right. exists c0. exact Ha.
        * intros [-> [Hn|[c Ha]]]; [discriminate|].
          split; [reflexivity|].
          assert (c = c0) as <- by (destruct Ha as [H _]; congruence).
          exact Ha.
      + split; [discriminate|].
        intros [_ [Hn|[c [H _]]]]; [discriminate|congruence]. }
  split; [exact Hiff|].
  intros H. apply Hiff in H. destruct H as [-> _]. exact Hne.
Qed.

(** ** ChessRecorder, continued *)

Section RecorderMore.
Import ChessRecorder.

(** What [move] has done when it returns. *)
Lemma move_ok (start end_ : Pos) (desc : option pystr) (self self' : t) :
  move start end_ desc self = (self', Ok tt) ->
  exists q node piece new,
    _history self = q ++ [node]
    /\ ChessChecker.check_move (state node) start end_ (_rotate_flag self)
       = Ok true
    /\ ChessState.__getitem__ (state node) (pos_obj start) = Ok piece
    /\ same_color (info_color (extra_info node)) (piece_color piece) = false
    /\ ChessState.move start end_ (state node) = (state new, Ok tt)
    /\ trace new = Some (start, end_)
    /\ info_color (extra_info new) = Some (piece_color piece)
    /\ info_desc (extra_info new)
       = match desc with
         | Some d => if truthy d then Some d else None
         | None => None
         end
    /\ extends self self' [new].
Proof.
  unfold move.
  destruct (back (_history self)) as [node|e] eqn:Eb; [|discriminate].
  destruct (ChessChecker.check_move _ _ _ _) as [b|e] eqn:Ec; [|discriminate].
  destruct (ChessState.__getitem__ _ _) as [piece|e] eqn:Eg; [|discriminate].
  destruct (same_color _ _) eqn:Es; [discriminate|].
  destruct (ChessState.move _ _ _) as [new_state [[]|e]] eqn:Em; [|discriminate].
  intros [= <-]. apply back_ok in Eb. destruct Eb as [q Hq].
  destruct (check_move_returns_true _ _ _ _ _ Ec) as (-> & _).
  exists q, node, piece.
  eexists (new_node new_state (Some (start, end_)) (Some _)).
  unfold extends, ChessState.deepcopy in *. cbn.
  repeat split; try assumption; try reflexivity.
Qed.

Lemma move_raise (start end_ : Pos) (desc : option pystr) (self self' : t)
  (e : exn) :
  move start end_ desc self = (self', Raise e) -> self' = self.
Proof.
  intros H. destruct (move_cases start end_ desc self)
    as [(node & piece & new & s1 & _ & _ & _ & _ & _ & _ & H')|[e' H']];
    rewrite H' in H; congruence.
Qed.

(** One step of a caller: either nothing is added, or one node that
    replays from the last. *)
Lemma Forall_app_one {A} (P : A -> Prop) (l : list A) (a : A) :
  Forall P l -> P a -> Forall P (l ++ [a]).
Proof. intros; apply Forall_app; auto. Qed.

Lemma Forall_pop (P : ChessNode -> Prop) (q : ChessNodeDeque) :
  Forall P q -> Forall P (pop q).
Proof.
  destruct (pop_cases q) as [(q' & n & Hq' & -> & ->)|[Hle ->]]; [|auto].
  intros H. apply Forall_app in H. tauto.
Qed.

Lemma Forall_pop_times (P : ChessNode -> Prop) (n : nat) (q : ChessNodeDeque) :
  Forall P q -> Forall P (pop_times n q).
Proof. revert q. induction n; intros q H; cbn; auto using Forall_pop. Qed.

Lemma Forall_pop_while (P : ChessNode -> Prop) (fuel : nat) (target : Z)
  (q q' : ChessNodeDeque) :
  pop_while_longer fuel target q = Some q' -> Forall P q -> Forall P q'.
Proof.
  revert q. induction fuel as [|fuel IH]; intros q; cbn; [discriminate|].
  destruct (target <? _).
  - intros H Hq. apply (IH _ H). apply Forall_pop; assumption.
  - intros [= <-]; auto.
Qed.

Lemma move_nodes (P : ChessNode -> Prop) (start end_ : Pos)
  (desc : option pystr) (self self' : t) (res : result unit) :
  (forall q node new,
      _history self = q ++ [node] -> P node ->
      ChessState.move start end_ (state node) = (state new, Ok tt) -> P new) ->
  move start end_ desc self = (self', res) ->
  Forall P (_history self) -> Forall P (_history self').
Proof.
  intros Hstep Hm HP. destruct res as [[]|e].
  - destruct (move_ok _ _ _ _ _ Hm)
      as (q & node & piece & new & Hq & _ & _ & _ & Hmv & _ & _ & _ & He & _).
    rewrite He. apply Forall_app_one; [assumption|].
    apply (Hstep q node new Hq); [|assumption].
    rewrite Hq in HP. apply Forall_app in HP. destruct HP as [_ HP].
    inversion HP; assumption.
  - apply move_raise in Hm. subst. assumption.
Qed.

(** A property of histories that [pop] and a returning [move] keep is kept
    by every call, returning or raising. *)
Lemma call_keeps (ops : TextOps) (Inv : ChessNodeDeque -> Prop) :
  (forall q, Inv q -> Inv (pop q)) ->
  (forall start end_ desc self self',
      move start end_ desc self = (self', Ok tt) ->
      Inv (_history self) -> Inv (_history self')) ->
  forall c self self' res,
    call ops c self = Some (self', res) ->
    Inv (_history self) -> Inv (_history self').
Proof.
  intros Hpop Hmove.
  assert (Hm : forall start end_ desc self self' res,
             move start end_ desc self = (self', res) ->
             Inv (_history self) -> Inv (_history self')).
  { intros start end_ desc self self' [[]|e] H; [eapply Hmove; eassumption|].
    apply move_raise in H. subst. auto. }
  assert (Hc : forall g strict cmd self self' res,
             exec_cmd g strict cmd self = (self', res) ->
             Inv (_history self) -> Inv (_history self')).
  { intros g strict cmd self self' res. unfold exec_cmd.
    destruct (back (_history self)) as [node|e]; [|intros [= <- <-]; auto].
    destruct (ChessParser.parse_cmd _ _ _ _ _) as [[start end_]|[]];
      try (intros [= <- <-]; auto; fail).
    apply Hm. }
  assert (Hl : forall g strict cmds self self' res,
             exec_loop g strict cmds self = (self', res) ->
             Inv (_history self) -> Inv (_history self')).
  { intros g strict cmds. induction cmds as [|cmd cmds IH]; intros self self' res; cbn.
    - intros [= <- <-]; auto.
    - unfold sbind.
      destruct (exec_cmd g strict cmd self) as [s1 [[]|e]] eqn:E.
      + intros H Hq. apply (IH _ _ _ H). eapply Hc; eassumption.
      + intros [= <- <-] Hq. eapply Hc; eassumption. }
  assert (Hpt : forall n q, Inv q -> Inv (pop_times n q)).
  { induction n; intros q H; cbn; auto. }
  assert (Hpw : forall fuel target q q',
             pop_while_longer fuel target q = Some q' -> Inv q -> Inv q').
  { induction fuel as [|fuel IH]; intros target q q'; cbn; [discriminate|].
    destruct (target <? _).
    - intros H Hq. apply (IH _ _ _ H). auto.
    - intros [= <-]; auto. }
  intros c self self' res.
  destruct c as [start end_ desc|g cmds strict|name|fuel name|steps|]; cbn.
  - intros [= H]. eapply Hm; eassumption.
  - unfold exec, sbind, reads. intros [= H]. revert H.
    destruct cmds as [text|l|];
      [destruct (ChessParser.normalize_cmds ops text)| |];
      try (intros [= <- <-]; auto; fail); apply Hl.
  - intros [= <- <-]; auto.
  - unfold rollback_to_checkpoint.
    destruct (dict_get _ _ _); [|intros [= <- <-]; auto].
    destruct (pop_while_longer _ _ _) eqn:E; [|discriminate].
    intros [= <- <-] Hq. cbn. eapply Hpw; eassumption.
  - unfold rollback. destruct (steps <? 0); intros [= <- <-]; auto.
    cbn. apply Hpt.
  - intros [= <- <-]; auto.
Qed.

Lemma state_init_valid (g empty : bool) (rotate : option bool) :
  ChessState.valid (ChessState.__init__ g empty rotate).
Proof.
  unfold ChessState.__init__.
  assert (H : ChessState.valid (if empty then [] else ChessState._DEFALUT_STATE)).
  { destruct empty; [|apply default_state_valid].
    split; [constructor|]. split; intros p v []. }
  destruct rotate as [[]|]; [| |destruct g]; try exact H;
    apply rotate_pieces_valid; exact H.
Qed.

(** X21. The boards of a history stay valid: the recorder that the
    constructor builds from the standard layout, or from a valid board,
    holds a valid board, and after any call, returning or raising, every
    node of the history still holds a valid board if every node did. *)
Theorem history_boards_stay_valid (ops : TextOps) :
  (forall g rotate_flag,
      Forall node_valid (_history (__init__ g None rotate_flag)))
  /\ (forall g st rotate_flag,
        ChessState.valid st ->
        Forall node_valid (_history (__init__ g (Some st) rotate_flag)))
  /\ (forall c self self' res,
        call ops c self = Some (self', res) ->
        Forall node_valid (_history self) ->
        Forall node_valid (_history self')).
Proof.
  split; [|split].
  - intros g rf. constructor; [|constructor].
    apply state_init_valid.
  - intros g st rf Hst. cbn. constructor; [exact Hst|constructor].
  - apply call_keeps.
    + apply Forall_pop.
    + intros start end_ desc self self' Hm HP.
      destruct (move_ok _ _ _ _ _ Hm)
        as (q & node & piece & new & Hq & _ & _ & _ & Hmv & _ & _ & _ & He & _).
      rewrite He. apply Forall_app_one; [assumption|].
      unfold node_valid. eapply move_valid; [exact Hmv|].
      rewrite Hq in HP. apply Forall_app in HP. destruct HP as [_ HP].
      inversion HP; assumption.
Qed.

Lemma replays_app_one (q : ChessNodeDeque) (node n : ChessNode) :
  replays (q ++ [node]) ->
  replays [node; n] ->
  replays ((q ++ [node]) ++ [n]).
Proof.
  intros Hq Hn. induction q as [|a q IH].
  - exact Hn.
  - destruct q as [|b q].
    + cbn in *. destruct Hq as [H1 _]. split; [exact H1|exact Hn].
    + cbn [app replays] in *. destruct Hq as [H1 H2].
      split; [exact H1|exact (IH H2)].
Qed.

Lemma replays_prefix (q1 q2 : ChessNodeDeque) :
  replays (q1 ++ q2) -> replays q1.
Proof.
  induction q1 as [|a q1 IH]; [intros _; exact I|].
  destruct q1 as [|b q1]; [intros _; exact I|].
  cbn [app replays] in *. intros [H1 H2].
  split; [exact H1|exact (IH H2)].
Qed.

(** X22. The history of a reachable recorder replays: its first node has
    no trace and no metadata, and every later node carries the trace of a
    move that [check_move] accepts on the board of the node before it,
    the colour of the piece that stood on the start of that trace, and
    the board that [ChessState.move] makes of the board before it. *)
Theorem history_replays (ops : TextOps) (self : t) :
  reachable ops self ->
  root_is_initial (_history self) /\ replays (_history self).
Proof.
  induction 1 as [g st rf|c self self' res Hr IH Hc].
  - cbn. auto.
  - revert IH. apply (call_keeps ops (fun q => root_is_initial q /\ replays q))
      with (c := c) (res := res); [| |exact Hc].
    + intros q [H1 H2].
      destruct (pop_cases q) as [(q' & n & Hq' & -> & ->)|[Hle ->]]; [|auto].
      split; [|eapply replays_prefix; eassumption].
      destruct q'; [contradiction|exact H1].
    + intros start end_ desc s1 s2 Hm [H1 H2].
      destruct (move_ok _ _ _ _ _ Hm)
        as (q & node & piece & new & Hq & Hck & Hg & _ & Hmv & Ht & Hcol & _ & He & _).
      rewrite He, Hq in *. split.
      * destruct q; exact H1.
      * apply replays_app_one; [assumption|].
        cbn. split; [|exact I].
        exists start, end_, (_rotate_flag s1), piece. auto.
Qed.

Lemma state_move_ok_iff (s : ChessState.t) (start end_ : Pos) (piece : pystr) :
  ChessState.valid s ->
  ChessState.__getitem__ s (pos_obj start) = Ok piece ->
  (exists s', ChessState.move start end_ s = (s', Ok tt))
  <-> ChessState.in_range end_ = true.
Proof.
  intros (Hwf & Hr & Hv) Hget.
  pose proof (proj1 (getitem_ok _ _ _) Hget) as [Hin Hd].
  assert (Hpv : ChessState.str_in piece ChessState._VALID_PIECES = true).
  { apply (Hv start piece). apply (dict_get_in pos_eqb pos_eqb_eq). exact Hd. }
  unfold ChessState.move, dict_mem. rewrite Hd. cbn [negb].
  unfold sbind, reads. rewrite Hget, setitem_pos, Hpv.
  destruct (ChessState.in_range end_) eqn:He.
  - rewrite delitem_pos, Hin.
    assert (dict_mem pos_eqb start (dict_set pos_eqb end_ piece s) = true) as ->.
    { unfold dict_mem. destruct (pos_eqb start end_) eqn:E.
      - apply pos_eqb_eq in E. subst.
        rewrite (dict_get_set_same pos_eqb pos_eqb_eq). reflexivity.
      - apply pos_eqb_neq in E.
        rewrite (dict_get_set_other pos_eqb pos_eqb_eq), Hd by assumption.
        reflexivity. }
    split; [reflexivity|eauto].
  - split; [intros [s' H]; discriminate|discriminate].
Qed.

(** X23. When the last board is valid, [move] returns exactly when
    [check_move] accepts the move on it, the destination is on the board,
    and the colour recorded in the last node is not the colour of the
    piece on [start]. The second condition is not implied by the first:
    [check_move] accepts a rook step from (0, 0) to (0, -1). *)
Theorem move_returns_iff (start end_ : Pos) (desc : option pystr) (self : t)
  (node : ChessNode) :
  back (_history self) = Ok node ->
  ChessState.valid (state node) ->
  (snd (move start end_ desc self) = Ok tt <->
   exists piece,
     ChessChecker.check_move (state node) start end_ (_rotate_flag self)
     = Ok true
     /\ ChessState.__getitem__ (state node) (pos_obj start) = Ok piece
     /\ ChessState.in_range end_ = true
     /\ info_color (extra_info node) <> Some (piece_color piece))
  /\ ChessChecker.check_move [((0, 0), py "R")] (0, 0) (0, -1) false = Ok true.
Proof.
  intros Hb Hv. split; [|vm_compute; reflexivity].
  unfold move. rewrite Hb.
  destruct (ChessChecker.check_move _ _ _ _) as [b|e] eqn:Ec.
  - destruct (check_move_returns_true _ _ _ _ _ Ec) as (-> & piece & Hg).
    rewrite Hg.
    pose proof (state_move_ok_iff _ start end_ piece Hv Hg) as Hmv.
    unfold ChessState.deepcopy.
    destruct (same_color _ _) eqn:Es.
    + cbn. split; [discriminate|]. intros (p & _ & Hp & _ & Hc).
      exfalso. apply Hc. assert (p = piece) as -> by congruence.
      destruct (info_color (extra_info node)) as [c|]; [|discriminate].
      cbn in Es. destruct c, (piece_color piece); try discriminate; reflexivity.
    + apply same_color_false in Es.
      destruct (ChessState.move start end_ (state node)) as [s' [[]|e]] eqn:Em;
        cbn [snd].
      * split; [|reflexivity]. intros _. exists piece.
        repeat split; auto. apply Hmv. eauto.
      * split; [discriminate|]. intros (p & _ & _ & He & _).
        apply Hmv in He. destruct He as [s2 He]. congruence.
  - cbn. split; [discriminate|]. intros (p & H & _). discriminate.
Qed.

Lemma pop_times_add (n m : nat) (q : ChessNodeDeque) :
  pop_times (n + m) q = pop_times m (pop_times n q).
Proof. revert q. induction n as [|n IH]; intros q; cbn; auto. Qed.

(** X24. Rollbacks add up: rolling back [a] steps and then [b] steps
    leaves the recorder that rolling back [a + b] steps leaves, and a
    rollback of no step leaves the recorder as it is. *)
Theorem rollback_composes (a b : Z) (self : t) :
  0 <= a -> 0 <= b ->
  (rollback a ;;~ rollback b) self = rollback (a + b) self
  /\ rollback 0 self = (self, Ok tt).
Proof.
  intros Ha Hb. split.
  - unfold sbind, rollback.
    destruct (Z.ltb_spec a 0), (Z.ltb_spec b 0), (Z.ltb_spec (a + b) 0); try lia.
    unfold with_history. cbn [_history _rotate_flag _checkpoints].
    rewrite Z2Nat.inj_add, pop_times_add by assumption. reflexivity.
  - unfold rollback. cbn. rewrite with_history_same. reflexivity.
Qed.

Lemma pop_while_firstn (q : ChessNodeDeque) (target : Z) :
  1 <= target ->
  forall fuel, (List.length q < fuel)%nat ->
    pop_while_longer fuel target q
    = Some (firstn (Z.to_nat target) q).
Proof.
  intros Ht. induction q as [|n q IH] using rev_ind; intros fuel Hf.
  - destruct fuel; [lia|]. cbn.
    destruct (Z.ltb_spec target 0); [lia|]. rewrite firstn_nil. reflexivity.
  - destruct fuel; [lia|]. cbn [pop_while_longer].
    rewrite length_app in *. cbn [List.length] in *.
    destruct (Z.ltb_spec target (Z.of_nat (List.length q + 1))).
    + assert (q <> []) by (destruct q; [cbn in *; lia|discriminate]).
      rewrite pop_app by assumption.
      rewrite IH by lia. rewrite firstn_app.
      replace (Z.to_nat target - List.length q)%nat with 0%nat by lia.
      cbn. rewrite app_nil_r. reflexivity.
    + rewrite firstn_all2; [reflexivity|]. rewrite length_app. cbn. lia.
Qed.

Lemma pop_while_zero (q : ChessNodeDeque) (fuel : nat) :
  q <> [] -> pop_while_longer fuel 0 q = None.
Proof.
  revert q. induction fuel as [|fuel IH]; intros q Hq; cbn; [reflexivity|].
  destruct (Z.ltb_spec 0 (Z.of_nat (List.length q))) as [H|H].
  - apply IH. intros E.
    assert (1 <= List.length (pop q))%nat; [|rewrite E in *; cbn in *; lia].
    apply pop_nonempty. lia.
  - destruct q; [contradiction|cbn in H; lia].
Qed.

Lemma checkpoints_positive (ops : TextOps) (self : t) :
  reachable ops self ->
  forall name target,
    dict_get pystr_eqb name (_checkpoints self) = Some target -> 1 <= target.
Proof.
  induction 1 as [g st rf|c self self' res Hr IH Hc]; [discriminate|].
  pose proof (proj2 (proj2 (proj2 (rollback_keeps_root ops))) _ Hr) as Hlen.
  destruct c as [start end_ desc|g cmds strict|name0|fuel name0|steps|];
    cbn in Hc.
  - injection Hc as Hc. destruct (move_extends _ _ _ _ _ _ Hc) as (? & (_ & _ & ->) & _).
    exact IH.
  - injection Hc as Hc. destruct (exec_extends _ _ _ _ _ _ _ Hc) as (? & (_ & _ & ->) & _).
    exact IH.
  - injection Hc as <- _. cbn. intros name target.
    destruct (pystr_eqb name name0) eqn:E.
    + apply pystr_eqb_eq in E. subst.
      rewrite (dict_get_set_same pystr_eqb pystr_eqb_eq). intros [= <-]. lia.
    + rewrite (dict_get_set_other pystr_eqb pystr_eqb_eq); [apply IH|].
      intros ->. rewrite (proj2 (pystr_eqb_eq name0 name0) eq_refl) in E.
      discriminate.
  - unfold rollback_to_checkpoint in Hc.
    destruct (dict_get _ _ _); [|injection Hc as <- _; exact IH].
    destruct (pop_while_longer _ _ _); [|discriminate].
    injection Hc as <- _. exact IH.
  - unfold rollback in Hc. destruct (steps <? 0); injection Hc as <- _; exact IH.
  - injection Hc as <- _. exact IH.
Qed.

(** X25. In a reachable recorder every checkpoint records a length of at
    least one, and [rollback_to_checkpoint] of a recorded name ends: with
    enough fuel it returns, and the history is cut to its first [target]
    nodes, or left whole when it is not longer than that, as after a
    rollback below the checkpoint. A recorded length of zero, which no
    call sequence produces, would keep the loop running for ever. *)
Theorem rollback_to_checkpoint_ends (ops : TextOps) :
  (forall self name target,
      reachable ops self ->
      dict_get pystr_eqb name (_checkpoints self) = Some target ->
      1 <= target
      /\ forall fuel, (List.length (_history self) < fuel)%nat ->
           rollback_to_checkpoint fuel name self
           = Some (with_history self (firstn (Z.to_nat target) (_history self)),
                   Ok tt))
  /\ (forall self name fuel,
        dict_get pystr_eqb name (_checkpoints self) = Some 0 ->
        _history self <> [] ->
        rollback_to_checkpoint fuel name self = None).
Proof.
  split.
  - intros self name target Hr Hg.
    pose proof (checkpoints_positive ops self Hr name target Hg) as Ht.
    split; [exact Ht|]. intros fuel Hf.
    unfold rollback_to_checkpoint. rewrite Hg.
    rewrite pop_while_firstn by assumption. reflexivity.
  - intros self name fuel Hg Hq. unfold rollback_to_checkpoint.
    rewrite Hg, pop_while_zero by assumption. reflexivity.
Qed.

Lemma new_node_same (n : ChessNode) :
  new_node (state n) (trace n) (Some (extra_info n)) = n.
Proof. destruct n; reflexivity. Qed.

Lemma deque_deepcopy_same (q : ChessNodeDeque) :
  q <> [] -> deque_deepcopy q = Ok q.
Proof.
  intros Hq. unfold deque_deepcopy. destruct q as [|n q]; [contradiction|].
  cbn [front rbind]. f_equal.
  rewrite <- (map_id (n :: q)) at 2. apply map_ext. apply new_node_same.
Qed.

(** X26. [deepcopy] of a recorder with nodes returns a recorder with the
    same history and the same checkpoints, and [derive] one whose only
    node holds the last board, without trace, metadata or checkpoints. In
    both the flag passes through the constructor: it is the flag of the
    original or, if that is [False], the process-wide default. So under a
    default of [True] the copy of an unrotated recorder is a rotated one.
    On a recorder without nodes both raise [IndexError]. *)
Theorem deepcopy_and_derive (g : bool) (self : t) :
  (_history self <> [] ->
   exists copy node,
     deepcopy g self = Ok copy
     /\ _history copy = _history self
     /\ _checkpoints copy = _checkpoints self
     /\ _rotate_flag copy = _rotate_flag self || g
     /\ back (_history self) = Ok node
     /\ derive g self
        = Ok {| _history := [new_node (state node) None None];
                _rotate_flag := _rotate_flag self || g;
                _checkpoints := [] |})
  /\ (_history self = [] ->
      deepcopy g self = Raise IndexError /\ derive g self = Raise IndexError).
Proof.
  split.
  - intros Hq. destruct self as [q rf cp]. cbn [_history] in *.
    destruct (back q) as [node|e] eqn:Eb;
      [|apply back_nil_raises in Eb; contradiction].
    exists {| _history := q; _rotate_flag := rf || g; _checkpoints := cp |}, node.
    assert (Hrf : or_default (Some rf) g = rf || g) by (destruct rf; reflexivity).
    unfold deepcopy, derive, last. cbn [_history _rotate_flag _checkpoints].
    rewrite deque_deepcopy_same, Eb by assumption.
    destruct q as [|root q]; [contradiction|].
    cbn [front rbind __init__ _rotate_flag]. rewrite Hrf.
    repeat split; reflexivity.
  - intros Hq. unfold deepcopy, derive, last. rewrite Hq. split; reflexivity.
Qed.

Lemma exec_loop_tagged (g strict : bool) (cmds : list pystr) (self self' : t) :
  filter truthy cmds = cmds ->
  exec_loop g strict cmds self = (self', Ok tt) ->
  exists added, extends self self' added /\ tagged cmds added.
Proof.
  revert self. induction cmds as [|cmd cmds IH]; intros self Hf; cbn.
  - intros [= <-]. exists []. split; [apply extends_refl|exact I].
  - cbn in Hf. destruct (truthy cmd) eqn:Et.
    2:{ exfalso. assert (List.length (filter truthy cmds) <= List.length cmds)%nat
          by apply filter_length_le.
        rewrite Hf in H. cbn in H. lia. }
    injection Hf as Hf.
    unfold sbind. destruct (exec_cmd g strict cmd self) as [s1 [[]|e]] eqn:E;
      [|discriminate].
    intros H. destruct (IH _ Hf H) as (added & He & Ht).
    unfold exec_cmd in E.
    destruct (back (_history self)) as [node|e]; [|discriminate].
    destruct (ChessParser.parse_cmd _ _ _ _ _) as [[start end_]|[]];
      try discriminate.
    destruct (move_ok _ _ _ _ _ E)
      as (q & nd & piece & new & _ & _ & _ & _ & _ & Htr & _ & Hdesc & Hext).
    exists ([new] ++ added). split; [eapply extends_trans; eassumption|].
    cbn. rewrite Hdesc, Et, Htr. repeat split; auto. discriminate.
Qed.

(** X27. When [exec] returns on a list of commands, the history has one
    more node for each non-empty command, in order, each with a trace and
    with its command as description. *)
Theorem exec_records_commands (ops : TextOps) (g strict : bool)
  (cmds : list pystr) (self self' : t) :
  exec ops g (CmdsSeq cmds) strict self = (self', Ok tt) ->
  exists added,
    extends self self' added
    /\ tagged (filter truthy cmds) added
    /\ List.length added = List.length (filter truthy cmds).
Proof.
  unfold exec, sbind, reads. intros H.
  destruct (exec_loop_tagged g strict (filter truthy cmds) self self') as (added & He & Ht).
  - clear H. induction cmds as [|c cmds IH]; cbn; [reflexivity|].
    destruct (truthy c) eqn:E; cbn; [rewrite E, IH|]; auto.
  - exact H.
  - exists added. split; [assumption|]. split; [assumption|].
    destruct (exec_loop_extends _ _ _ _ _ _ H) as (added' & He' & _ & Hl).
    destruct He as (E1 & _), He' as (E2 & _). rewrite E1 in E2.
    apply app_inv_head in E2. subst. auto.
Qed.
End RecorderMore.

(** *** The parser on the rotated board *)

Lemma items_rotated (s : ChessState.t) :
  ChessState.items (map relabel_item s)
  = rmap (map relabel_item) (ChessState.items s).
Proof.
  unfold ChessState.items. rewrite keys_relabel.
  induction (dict_keys s) as [|k ks IH]; [reflexivity|].
  cbn [map ChessState.items_of]. rewrite getitem_rotated.
  destruct (ChessState.__getitem__ s (pos_obj k)) as [v|e]; [|reflexivity].
  cbn [rbind]. rewrite IH.
  destruct (ChessState.items_of s ks) as [rest|e]; reflexivity.
Qed.

Lemma dict_get_relabel_lists (k : pystr) (m : pydict pystr (list Pos)) :
  dict_get pystr_eqb k (relabel_lists m)
  = option_map (map relabel) (dict_get pystr_eqb k m).
Proof.
  induction m as [|[k' l] m IH]; cbn; [reflexivity|].
  destruct (pystr_eqb k k'); [reflexivity|exact IH].
Qed.

Lemma dict_set_relabel_lists (k : pystr) (l : list Pos)
  (m : pydict pystr (list Pos)) :
  dict_set pystr_eqb k (map relabel l) (relabel_lists m)
  = relabel_lists (dict_set pystr_eqb k l m).
Proof.
  induction m as [|[k' l'] m IH]; cbn; [reflexivity|].
  destruct (pystr_eqb k k'); cbn; [reflexivity|].
  f_equal. exact IH.
Qed.

Lemma setdefault_append_rotated (v : pystr) (p : Pos)
  (m : pydict pystr (list Pos)) :
  ChessParser.setdefault_append v (relabel p) (relabel_lists m)
  = relabel_lists (ChessParser.setdefault_append v p m).
Proof.
  unfold ChessParser.setdefault_append. rewrite dict_get_relabel_lists.
  destruct (dict_get pystr_eqb v m) as [l|]; cbn [option_map].
  - rewrite <- dict_set_relabel_lists, map_app. reflexivity.
  - rewrite <- dict_set_relabel_lists. reflexivity.
Qed.

Lemma build_state_map_rotated (its : list (Pos * pystr)) :
  ChessParser.build_state_map (map relabel_item its)
  = relabel_lists (ChessParser.build_state_map its).
Proof.
  unfold ChessParser.build_state_map.
  change (@nil (pystr * list Pos)) with (relabel_lists []) at 1.
  generalize (@nil (pystr * list Pos)) as acc.
  induction its as [|[p v] its IH]; intros acc; [reflexivity|].
  cbn [map fold_left relabel_item fst snd].
  rewrite setdefault_append_rotated. apply IH.
Qed.

Lemma detect_side_negb (color : Color) (rf : bool) :
  ChessParser.detect_side color (negb rf)
  = opposite (ChessParser.detect_side color rf).
Proof. destruct color, rf; reflexivity. Qed.

Lemma parse_col_idx_opposite (ch : pystr) (color : Color) (side : Side) :
  ChessParser.parse_col_idx ch color (opposite side)
  = (c <- ChessParser.parse_col_idx ch color side ;; Ok (8 - c)).
Proof.
  unfold ChessParser.parse_col_idx.
  match goal with |- rbind ?r _ = _ => destruct r as [c|e]; [|reflexivity] end.
  destruct side; cbn [rbind side_eqb opposite]; f_equal; lia.
Qed.

Lemma parse_row_delta_opposite (ch : pystr) (color : Color) (side : Side) :
  ChessParser.parse_row_delta ch color (opposite side)
  = (d <- ChessParser.parse_row_delta ch color side ;; Ok (- d)).
Proof.
  unfold ChessParser.parse_row_delta.
  match goal with |- rbind ?r _ = _ => destruct r as [c|e]; [|reflexivity] end.
  destruct side; cbn [rbind side_eqb opposite]; f_equal; lia.
Qed.

Lemma find_relabel (c : Z) (l : list Pos) :
  find (fun p => fst p =? 8 - c) (map relabel l)
  = option_map relabel (find (fun p => fst p =? c) l).
Proof.
  induction l as [|[x y] l IH]; [reflexivity|].
  cbn [map find relabel fst snd].
  replace (8 - x =? 8 - c) with (x =? c)
    by (destruct (Z.eqb_spec x c), (Z.eqb_spec (8 - x) (8 - c)); try reflexivity; lia).
  destruct (x =? c); [reflexivity|exact IH].
Qed.

Lemma start_default_rotated (m : pydict pystr (list Pos))
  (piece col_ch : pystr) (color : Color) (side : Side) :
  ChessParser.start_default (relabel_lists m) piece col_ch color (opposite side)
  = rmap relabel (ChessParser.start_default m piece col_ch color side).
Proof.
  unfold ChessParser.start_default. rewrite dict_get_relabel_lists.
  destruct (dict_get pystr_eqb piece m) as [positions|]; [|reflexivity].
  cbn [option_map]. rewrite parse_col_idx_opposite.
  destruct (ChessParser.parse_col_idx col_ch color side) as [c|e]; [|reflexivity].
  cbn [rbind]. rewrite find_relabel.
  destruct (find (fun p => fst p =? c) positions); reflexivity.
Qed.

Lemma insert_by_map {A B} (f : A -> B) (k : A -> Z) (k' : B -> Z) (a : A)
  (l : list A) :
  (forall x y, (k' (f x) <=? k' (f y)) = (k x <=? k y)) ->
  insert_by k' (f a) (map f l) = map f (insert_by k a l).
Proof.
  intros H. induction l as [|b l IH]; [reflexivity|].
  cbn [map insert_by]. rewrite H.
  destruct (k a <=? k b); [reflexivity|]. cbn [map]. f_equal. exact IH.
Qed.

Lemma sort_by_map {A B} (f : A -> B) (k : A -> Z) (k' : B -> Z) (l : list A) :
  (forall x y, (k' (f x) <=? k' (f y)) = (k x <=? k y)) ->
  sort_by k' (map f l) = map f (sort_by k l).
Proof.
  intros H. unfold sort_by. induction l as [|a l IH]; [reflexivity|].
  cbn [map fold_right]. rewrite IH. apply insert_by_map, H.
Qed.

Lemma nodup_map_length (f : Z -> Z) (l : list Z) :
  (forall x y, f x = f y -> x = y) ->
  List.length (nodup Z.eq_dec (map f l)) = List.length (nodup Z.eq_dec l).
Proof.
  intros Hf. induction l as [|a l IH]; [reflexivity|].
  cbn [map nodup].
  destruct (in_dec Z.eq_dec (f a) (map f l)) as [Hi|Hi],
           (in_dec Z.eq_dec a l) as [Hj|Hj]; cbn [List.length].
  - exact IH.
  - exfalso. apply in_map_iff in Hi. destruct Hi as (b & E & Hb).
    apply Hf in E. subst. contradiction.
  - exfalso. apply Hi, in_map, Hj.
  - f_equal. exact IH.
Qed.

Lemma sorted_rotated (side : Side) (l : list Pos) :
  (if side_eqb (opposite side) down
   then sort_by (fun p => - snd p) (map relabel l)
   else sort_by (fun p => snd p) (map relabel l))
  = map relabel
      (if side_eqb side down then sort_by (fun p => - snd p) l
       else sort_by (fun p => snd p) l).
Proof.
  destruct side; cbn [opposite side_eqb]; apply sort_by_map;
    intros [x1 y1] [x2 y2]; cbn [relabel fst snd];
    match goal with
    | |- (?a <=? ?b) = (?c <=? ?d) =>
        destruct (Z.leb_spec a b), (Z.leb_spec c d); try reflexivity; lia
    end.
Qed.

Lemma start_hard_rotated (m : pydict pystr (list Pos)) (piece mark : pystr)
  (side : Side) :
  ChessParser.start_hard (relabel_lists m) piece mark (opposite side)
  = rmap relabel (ChessParser.start_hard m piece mark side).
Proof.
  unfold ChessParser.start_hard. rewrite dict_get_relabel_lists.
  destruct (dict_get pystr_eqb piece m) as [positions|]; [|reflexivity].
  cbn [option_map]. cbv zeta.
  assert (E : map fst (map relabel positions)
              = map (fun x => 8 - x) (map fst positions))
    by (rewrite !map_map; reflexivity).
  rewrite E, nodup_map_length by (intros; lia).
  destruct (negb (1 <? Z.of_nat (List.length (nodup Z.eq_dec (map fst positions)))));
    [|reflexivity].
  cbn [require rbind]. rewrite sorted_rotated.
  set (sorted := if side_eqb side down then _ else _).
  rewrite length_map, <- map_rev, !nth_error_map. unfold Pos in *.
  destruct (pystr_eqb mark [ChessParser.g_qian]).
  { destruct (negb (Z.of_nat (List.length sorted) <? 2)); [|reflexivity].
    cbn [require rbind]. destruct (nth_error sorted 0); reflexivity. }
  destruct (pystr_eqb mark [ChessParser.g_hou]).
  { destruct (negb (Z.of_nat (List.length sorted) <? 2)); [|reflexivity].
    cbn [require rbind]. destruct (nth_error (rev sorted) 0); reflexivity. }
  destruct (negb (Z.of_nat (List.length sorted) <? 3)); [|reflexivity].
  cbn [require rbind]. destruct (nth_error sorted 1); reflexivity.
Qed.

Lemma row_in_range_mirror (r : Z) :
  (0 <=? 9 - r) && (9 - r <=? 9) = (0 <=? r) && (r <=? 9).
Proof.
  destruct (Z.leb_spec 0 (9 - r)), (Z.leb_spec (9 - r) 9),
    (Z.leb_spec 0 r), (Z.leb_spec r 9); cbn; try reflexivity; lia.
Qed.

Lemma signed_row_rotated (op_type delta_unit : pystr) (color : Color)
  (side : Side) (y : Z) :
  (if pystr_eqb op_type [ChessParser.g_jin] then
     delta <- ChessParser.parse_row_delta delta_unit color (opposite side) ;;
     Ok (9 - y + delta)
   else if pystr_eqb op_type [ChessParser.g_tui] then
     delta <- ChessParser.parse_row_delta delta_unit color (opposite side) ;;
     Ok (9 - y - delta)
   else Raise (ValueError "Invalid operator"))
  = rmap (fun r => 9 - r)
      (if pystr_eqb op_type [ChessParser.g_jin] then
         delta <- ChessParser.parse_row_delta delta_unit color side ;;
         Ok (y + delta)
       else if pystr_eqb op_type [ChessParser.g_tui] then
         delta <- ChessParser.parse_row_delta delta_unit color side ;;
         Ok (y - delta)
       else Raise (ValueError "Invalid operator")).
Proof.
  rewrite parse_row_delta_opposite.
  destruct (ChessParser.parse_row_delta delta_unit color side) as [d|e];
    destruct (pystr_eqb op_type [ChessParser.g_jin]);
    [| |reflexivity|]; try destruct (pystr_eqb op_type [ChessParser.g_tui]);
    try reflexivity; unfold rmap; cbn [rbind]; f_equal; lia.
Qed.

Lemma end_of_rotated (piece op_type op_arg_ch : pystr) (color : Color)
  (side : Side) (start : Pos) :
  ChessParser.end_of piece op_type op_arg_ch color (opposite side) (relabel start)
  = rmap relabel (ChessParser.end_of piece op_type op_arg_ch color side start).
Proof.
  destruct start as [x y]. unfold ChessParser.end_of. cbn [relabel fst snd].
  destruct (str_among (lower piece) [py "k"; py "r"; py "c"; py "p"]).
  { destruct (pystr_eqb op_type [ChessParser.g_ping]).
    { rewrite parse_col_idx_opposite.
      destruct (ChessParser.parse_col_idx op_arg_ch color side); reflexivity. }
    destruct (pystr_eqb op_type [ChessParser.g_jin]).
    { rewrite parse_row_delta_opposite.
      destruct (ChessParser.parse_row_delta op_arg_ch color side) as [d|e];
        [|reflexivity].
      cbn [rbind]. cbv zeta.
      replace (9 - y + - d) with (9 - (y + d)) by lia.
      rewrite row_in_range_mirror.
      destruct ((0 <=? y + d) && (y + d <=? 9)); reflexivity. }
    destruct (pystr_eqb op_type [ChessParser.g_tui]); [|reflexivity].
    rewrite parse_row_delta_opposite.
    destruct (ChessParser.parse_row_delta op_arg_ch color side) as [d|e];
      [|reflexivity].
    cbn [rbind]. cbv zeta.
    replace (9 - y - - d) with (9 - (y - d)) by lia.
    rewrite row_in_range_mirror.
    destruct ((0 <=? y - d) && (y - d <=? 9)); reflexivity. }
  destruct (str_among (lower piece) [py "a"; py "e"]).
  { rewrite parse_col_idx_opposite.
    destruct (ChessParser.parse_col_idx op_arg_ch color side) as [c|e];
      [|reflexivity].
    cbn [rbind]. cbv zeta. rewrite signed_row_rotated.
    match goal with
    | |- context [rmap (fun r => 9 - r) ?t] => destruct t; reflexivity
    end. }
  rewrite parse_col_idx_opposite.
  destruct (ChessParser.parse_col_idx op_arg_ch color side) as [c|e];
    [|reflexivity].
  cbn [rbind].
  replace (Z.abs (8 - c - (8 - x))) with (Z.abs (c - x)) by lia.
  destruct (Z.abs (c - x) =? 1).
  { cbn [rbind]. rewrite signed_row_rotated.
    match goal with
    | |- context [rmap (fun r => 9 - r) ?t] => destruct t; reflexivity
    end. }
  destruct (Z.abs (c - x) =? 2); [|reflexivity].
  cbn [rbind]. rewrite signed_row_rotated.
  match goal with
  | |- context [rmap (fun r => 9 - r) ?t] => destruct t; reflexivity
  end.
Qed.

Lemma parse_cmd_relabelled (g : bool) (s : ChessState.t) (cmd : pystr)
  (rf rf' : option bool) (strict : bool) :
  or_default rf' g = negb (or_default rf g) ->
  ChessParser.parse_cmd g (map relabel_item s) cmd rf' strict
  = rmap relabel_arrow (ChessParser.parse_cmd g s cmd rf strict).
Proof.
  intros Hf. unfold ChessParser.parse_cmd. cbv zeta. rewrite Hf, items_rotated.
  destruct (ChessState.items s) as [its|e]; [|reflexivity].
  unfold rmap at 1. cbn [rbind]. rewrite build_state_map_rotated.
  destruct (char_at cmd 0) as [c0|e]; [|reflexivity]. cbn [rbind].
  match goal with
  | |- rbind ?t _ = _ => destruct t as [[[[piece_ch col_ch] op_type] op_arg_ch]|e];
                         [|reflexivity]
  end.
  cbn [rbind].
  destruct (ChessParser.detect_color cmd) as [color|e]; [|reflexivity].
  cbn [rbind]. rewrite detect_side_negb.
  destruct (ChessParser.parse_piece_char piece_ch color strict) as [piece|e];
    [|reflexivity].
  cbn [rbind].
  rewrite start_default_rotated, start_hard_rotated.
  match goal with
  | |- rbind (if ?b then rmap relabel ?u else rmap relabel ?v) _ = _ =>
      destruct b; [destruct u as [start|e]|destruct v as [start|e]];
      try reflexivity; unfold rmap at 1; cbn [rbind];
      rewrite end_of_rotated;
      match goal with
      | |- context [rmap relabel ?r] => destruct r; reflexivity
      end
  end.
Qed.

(** X28. Turning the board round and turning the flag over turns the arrow
    round: [parse_cmd] returns [(start, end_)] for a command on a board
    exactly when, on the rotated board and under the opposite flag, it
    returns the two relabelled squares for the same command; and it raises
    on the one exactly when it raises on the other. *)
Theorem parse_cmd_rotated (g : bool) (s : ChessState.t) (cmd : pystr)
  (rf rf' : option bool) (strict : bool) :
  ChessState.wf s ->
  or_default rf' g = negb (or_default rf g) ->
  (forall start end_,
      ChessParser.parse_cmd g s cmd rf strict = Ok (start, end_) <->
      ChessParser.parse_cmd g (ChessState.rotate_pieces s) cmd rf' strict
      = Ok (relabel start, relabel end_))
  /\ is_ok (ChessParser.parse_cmd g (ChessState.rotate_pieces s) cmd rf' strict)
     = is_ok (ChessParser.parse_cmd g s cmd rf strict).
Proof.
  intros Hwf Hf. rewrite (rotate_pieces_map s Hwf).
  rewrite (parse_cmd_relabelled g s cmd rf rf' strict Hf).
  destruct (ChessParser.parse_cmd g s cmd rf strict) as [[a b]|e];
    unfold rmap, relabel_arrow; cbn [rbind fst snd is_ok].
  - split; [|reflexivity]. intros start end_. split.
    + intros [= <- <-]. reflexivity.
    + intros H.
      assert (Ha : relabel a = relabel start) by congruence.
      assert (Hb : relabel b = relabel end_) by congruence.
      apply relabel_injective in Ha, Hb. subst. reflexivity.
  - split; [|reflexivity]. intros start end_. split; discriminate.
Qed.

(** *** Loading a board *)

Section LoadMore.
Variable literal_eval : pystr -> result pyval.

Lemma load_items_sound (data : pydict pystr pyval) :
  forall st st' : ChessState.t,
    ChessStateIO.load_items literal_eval data st = (st', Ok tt) ->
    ChessState.valid st ->
    ChessState.valid st'
    /\ (List.length st' <= List.length st + List.length data)%nat
    /\ forall p v,
         dict_get pos_eqb p st' = Some v ->
         dict_get pos_eqb p st = Some v
         \/ exists key k,
              In (key, PStr v) data
              /\ literal_eval key = Ok k
              /\ ChessState._check_key k = Ok p.
Proof.
  induction data as [|[key piece] data IH]; intros st st'.
  - cbn. intros [= <-] Hv. split; [exact Hv|]. split; [lia|]. auto.
  - cbn [ChessStateIO.load_items]. unfold sbind at 1, reads.
    destruct (literal_eval key) as [k|e] eqn:Ek; [|discriminate].
    unfold sbind.
    destruct (ChessState.__setitem__ k piece st) as [st1 [[]|e]] eqn:Es;
      [|discriminate].
    intros Hl Hv.
    pose proof (setitem_valid _ _ _ _ _ Es Hv) as Hv1.
    destruct (IH _ _ Hl Hv1) as (Hv' & Hlen & Hfrom).
    unfold ChessState.__setitem__ in Es.
    destruct (ChessState._check_key k) as [p0|e] eqn:Ec; [|discriminate].
    destruct (ChessState._check_piece piece) as [v0|e] eqn:Ep; [|discriminate].
    assert (Epiece : piece = PStr v0).
    { unfold ChessState._check_piece in Ep. destruct piece; try discriminate.
      destruct (ChessState.str_in x ChessState._VALID_PIECES); [|discriminate].
      congruence. }
    injection Es as <-.
    split; [exact Hv'|]. split.
    + rewrite (dict_set_length pos_eqb) in Hlen. cbn [List.length].
      destruct (dict_mem pos_eqb p0 st); lia.
    + intros p v Hg. destruct (Hfrom p v Hg) as [H1|(key' & k' & Hin & Hk)].
      * destruct (pos_eqb p p0) eqn:E.
        -- apply pos_eqb_eq in E. subst p.
           rewrite (dict_get_set_same pos_eqb pos_eqb_eq) in H1.
           injection H1 as <-. right. exists key, k. subst piece.
           split; [left; reflexivity|]. split; assumption.
        -- apply pos_eqb_neq in E.
           rewrite (dict_get_set_other pos_eqb pos_eqb_eq) in H1 by exact E.
           left. exact H1.
      * right. exists key', k'. split; [right; exact Hin|exact Hk].
Qed.

(** X29. A board that [load_from_dict] returns is valid, whatever the
    dictionary and whatever [literal_eval] makes of its keys; it has at
    most as many pieces as the dictionary has entries, and each of its
    pieces is the string of an entry whose key evaluates to the position,
    as [_check_key] reads it. *)
Theorem load_from_dict_valid (g : bool) (data : pydict pystr pyval)
  (s : ChessState.t) :
  ChessStateIO.load_from_dict literal_eval g data = Ok s ->
  ChessState.valid s
  /\ ChessState.__len__ s <= Z.of_nat (List.length data)
  /\ forall p v,
       ChessState.__getitem__ s (pos_obj p) = Ok v ->
       exists key k,
         In (key, PStr v) data
         /\ literal_eval key = Ok k
         /\ ChessState._check_key k = Ok p.
Proof.
  unfold ChessStateIO.load_from_dict.
  assert (E0 : ChessState.__init__ g true None = [])
    by (destruct g; reflexivity).
  destruct (ChessStateIO.load_items literal_eval data
              (ChessState.__init__ g true None)) as [st' [[]|e]] eqn:El;
    [|discriminate].
  intros [= <-].
  destruct (load_items_sound _ _ _ El (state_init_valid g true None))
    as (Hv & Hlen & Hfrom).
  rewrite E0 in Hlen. cbn [List.length] in Hlen.
  split; [exact Hv|]. split; [unfold ChessState.__len__; lia|].
  intros p v Hg. rewrite getitem_pos in Hg.
  destruct (ChessState.in_range p); [|discriminate].
  destruct (dict_get pos_eqb p st') as [w|] eqn:Ew; [|discriminate].
  injection Hg as ->.
  destruct (Hfrom p v Ew) as [H|H]; [|exact H].
  rewrite E0 in H. discriminate.
Qed.
End LoadMore.

(** *** Moving there and back *)

(** X30. Moving there and back: on a valid board a piece moved from [a] to
    another square [b] of the board and then back is on [a] again, [b] is
    left empty, and every other square reads as before; both calls
    return. A piece that stood on [b] is not put back. *)
Theorem move_there_and_back (s : ChessState.t) (a b : Pos) (piece : pystr) :
  ChessState.valid s ->
  ChessState.__getitem__ s (pos_obj a) = Ok piece ->
  ChessState.in_range b = true ->
  a <> b ->
  exists s1 s2,
    ChessState.move a b s = (s1, Ok tt)
    /\ ChessState.move b a s1 = (s2, Ok tt)
    /\ ChessState.__getitem__ s2 (pos_obj a) = Ok piece
    /\ ChessState.__contains__ s2 (pos_obj b) = false
    /\ forall p, p <> b ->
         ChessState.__getitem__ s2 (pos_obj p)
         = ChessState.__getitem__ s (pos_obj p).
Proof.
  intros Hv Hg Hb Hab.
  rewrite getitem_pos in Hg.
  destruct (ChessState.in_range a) eqn:Ha; [|discriminate].
  destruct (dict_get pos_eqb a s) as [w|] eqn:Ew; [|discriminate].
  injection Hg as ->.
  assert (Hp : ChessState.str_in piece ChessState._VALID_PIECES = true).
  { destruct Hv as (_ & _ & Hc). eapply Hc.
    apply (dict_get_in pos_eqb pos_eqb_eq). exact Ew. }
  destruct (move_relocates s a b piece (proj1 Hv) Ha Hb Hab Ew Hp)
    as (s1 & E1 & G1b & G1a & G1).
  pose proof (move_valid _ _ _ _ _ E1 Hv) as Hv1.
  destruct (move_relocates s1 b a piece (proj1 Hv1) Hb Ha
              (fun H => Hab (eq_sym H)) G1b Hp)
    as (s2 & E2 & G2a & G2b & G2).
  exists s1, s2. split; [exact E1|]. split; [exact E2|].
  split; [rewrite getitem_pos, Ha, G2a; reflexivity|].
  split; [unfold ChessState.__contains__; rewrite getitem_pos, Hb, G2b;
          reflexivity|].
  intros p Hpb. rewrite !getitem_pos.
  destruct (ChessState.in_range p); [|reflexivity].
  destruct (pos_eqb p a) eqn:E.
  - apply pos_eqb_eq in E. subst p. rewrite G2a, Ew. reflexivity.
  - apply pos_eqb_neq in E. rewrite G2, G1 by assumption. reflexivity.
Qed.

(** ** Instances on concrete boards *)

Lemma setitem_then_getitem_witness :
  ChessState.in_range (4, 4) = true
  /\ ChessState.str_in (py "P") ChessState._VALID_PIECES = true
  /\ exists s',
       ChessState.__setitem__ (pos_obj (4, 4)) (PStr (py "P"))
         ChessState._DEFALUT_STATE = (s', Ok tt)
       /\ ChessState.__getitem__ s' (pos_obj (4, 4)) = Ok (py "P")
       /\ forall q, q <> (4, 4) ->
            ChessState.__getitem__ s' (pos_obj q)
            = ChessState.__getitem__ ChessState._DEFALUT_STATE (pos_obj q).
Proof.
  split; [reflexivity|]. split; [reflexivity|].
  exact (proj1 (setitem_then_getitem ChessState._DEFALUT_STATE (4, 4) (py "P"))
           eq_refl eq_refl).
Defined.

Lemma delitem_removes_witness :
  ChessState.wf ChessState._DEFALUT_STATE
  /\ ChessState.__contains__ ChessState._DEFALUT_STATE (pos_obj (0, 0)) = true
  /\ exists s',
       ChessState.__delitem__ (pos_obj (0, 0)) ChessState._DEFALUT_STATE
       = (s', Ok tt)
       /\ ChessState.__contains__ s' (pos_obj (0, 0)) = false
       /\ forall q, q <> (0, 0) ->
            ChessState.__getitem__ s' (pos_obj q)
            = ChessState.__getitem__ ChessState._DEFALUT_STATE (pos_obj q).
Proof.
  assert (H : ChessState.wf ChessState._DEFALUT_STATE)
    by (apply distinct_NoDup; vm_compute; reflexivity).
  split; [exact H|]. split; [reflexivity|].
  exact (proj1 (delitem_removes ChessState._DEFALUT_STATE (0, 0)) H eq_refl).
Defined.

Lemma validated_interface_keeps_board_valid_witness :
  ChessState.valid ChessState._DEFALUT_STATE
  /\ forall start end_ s' r,
       ChessState.move start end_ ChessState._DEFALUT_STATE = (s', r) ->
       ChessState.valid s'.
Proof.
  assert (H : ChessState.valid ChessState._DEFALUT_STATE)
    by apply default_state_valid.
  split; [exact H|].
  exact (proj2 (proj2 (validated_interface_keeps_board_valid
                         ChessState._DEFALUT_STATE H))).
Defined.

Lemma rotate_pieces_keeps_board_valid_witness :
  ChessState.valid ChessState._DEFALUT_STATE
  /\ ChessState.valid (ChessState.rotate_pieces ChessState._DEFALUT_STATE)
  /\ ChessState.__len__ (ChessState.rotate_pieces ChessState._DEFALUT_STATE)
     = ChessState.__len__ ChessState._DEFALUT_STATE.
Proof.
  assert (H : ChessState.valid ChessState._DEFALUT_STATE)
    by apply default_state_valid.
  split; [exact H|].
  exact (rotate_pieces_keeps_board_valid ChessState._DEFALUT_STATE H).
Defined.

Lemma swap_pieces_involution_witness :
  ChessState.wf ChessState._DEFALUT_STATE
  /\ ChessState.swap_pieces (ChessState.swap_pieces ChessState._DEFALUT_STATE)
     = ChessState._DEFALUT_STATE.
Proof.
  assert (H : ChessState.wf ChessState._DEFALUT_STATE)
    by (apply distinct_NoDup; vm_compute; reflexivity).
  split; [exact H|].
  exact (proj1 (proj2 (swap_pieces_involution ChessState._DEFALUT_STATE H))).
Defined.

Lemma swap_pieces_flips_colors_witness :
  ChessState.valid ChessState._DEFALUT_STATE
  /\ ChessState.values_in_alphabet ChessState._DEFALUT_STATE
  /\ ChessState.valid (ChessState.swap_pieces ChessState._DEFALUT_STATE).
Proof.
  destruct default_state_valid as [H1 H2].
  split; [exact H1|]. split; [exact H2|].
  exact (proj1 (proj1 swap_pieces_flips_colors ChessState._DEFALUT_STATE H1 H2)).
Defined.

Lemma count_between_spec_witness :
  (fst (0, 0) = fst (0, 5) \/ snd (0, 0) = snd (0, 5))
  /\ exists n,
       ChessChecker._count_between ChessState._DEFALUT_STATE (0, 0) (0, 5) = Ok n
       /\ 0 <= n
       /\ ChessChecker._count_between ChessState._DEFALUT_STATE (0, 5) (0, 0) = Ok n
       /\ (n = 0 <->
           forall p, strictly_between (0, 0) (0, 5) p ->
                     ChessState.__contains__ ChessState._DEFALUT_STATE (pos_obj p)
                     = false).
Proof.
  split; [left; reflexivity|].
  exact (proj2 (count_between_spec ChessState._DEFALUT_STATE (0, 0) (0, 5))
           (or_introl eq_refl)).
Defined.

Lemma rook_rule_witness :
  ChessState.__getitem__ [((0, 0), py "R")] (pos_obj (0, 0)) = Ok (py "R")
  /\ (ChessChecker.check_move [((0, 0), py "R")] (0, 0) (0, 5) false = Ok true
      <->
      (0, 0) <> (0, 5)
      /\ ~ captures_own [((0, 0), py "R")] (py "R") (0, 5)
      /\ (fst (0, 5) = fst (0, 0) \/ snd (0, 5) = snd (0, 0))
      /\ ChessChecker._count_between [((0, 0), py "R")] (0, 0) (0, 5) = Ok 0).
Proof.
  split; [reflexivity|].
  exact (rook_rule [((0, 0), py "R")] (0, 0) (0, 5) false (py "R")
           eq_refl (or_introl eq_refl)).
Defined.

Lemma cannon_rule_witness :
  ChessState.__getitem__ [((1, 2), py "C")] (pos_obj (1, 2)) = Ok (py "C")
  /\ (ChessChecker.check_move [((1, 2), py "C")] (1, 2) (1, 5) false = Ok true
      <->
      (1, 2) <> (1, 5)
      /\ ~ captures_own [((1, 2), py "C")] (py "C") (1, 5)
      /\ (fst (1, 5) = fst (1, 2) \/ snd (1, 5) = snd (1, 2))
      /\ ChessChecker._count_between [((1, 2), py "C")] (1, 2) (1, 5)
         = Ok (if ChessState.__contains__ [((1, 2), py "C")] (pos_obj (1, 5))
               then 1 else 0)).
Proof.
  split; [reflexivity|].
  exact (cannon_rule [((1, 2), py "C")] (1, 2) (1, 5) false (py "C")
           eq_refl (or_introl eq_refl)).
Defined.

Lemma knight_rule_witness :
  ChessState.__getitem__ [((1, 0), py "H")] (pos_obj (1, 0)) = Ok (py "H")
  /\ (ChessChecker.check_move [((1, 0), py "H")] (1, 0) (2, 2) false = Ok true
      <->
      (1, 0) <> (2, 2)
      /\ ~ captures_own [((1, 0), py "H")] (py "H") (2, 2)
      /\ ((Z.abs (2 - 1) = 1 /\ Z.abs (2 - 0) = 2)
          \/ (Z.abs (2 - 1) = 2 /\ Z.abs (2 - 0) = 1))
      /\ ChessState.__contains__ [((1, 0), py "H")]
           (pos_obj (knight_leg (1, 0) (2, 2))) = false).
Proof.
  split; [reflexivity|].
  exact (knight_rule [((1, 0), py "H")] (1, 0) (2, 2) false (py "H")
           eq_refl (or_introl eq_refl)).
Defined.

Lemma elephant_rule_witness :
  ChessState.__getitem__ [((2, 4), py "E")] (pos_obj (2, 4)) = Ok (py "E")
  /\ (ChessChecker.check_move [((2, 4), py "E")] (2, 4) (0, 2) false = Ok true
      <->
      (2, 4) <> (0, 2)
      /\ ~ captures_own [((2, 4), py "E")] (py "E") (0, 2)
      /\ (Z.abs (0 - 2) = 2 /\ Z.abs (2 - 4) = 2)
      /\ ChessState.__contains__ [((2, 4), py "E")]
           (pos_obj (elephant_eye (2, 4) (0, 2))) = false
      /\ on_own_bank (resolved_side (py "E") false) 2).
Proof.
  split; [reflexivity|].
  exact (elephant_rule [((2, 4), py "E")] (2, 4) (0, 2) false (py "E")
           eq_refl (or_introl eq_refl)).
Defined.

Lemma palace_rule_witness :
  ChessState.__getitem__ [((3, 0), py "K")] (pos_obj (3, 0)) = Ok (py "K")
  /\ (ChessChecker.check_move [((3, 0), py "K")] (3, 0) (3, 1) false = Ok true
      <->
      (3, 0) <> (3, 1)
      /\ ~ captures_own [((3, 0), py "K")] (py "K") (3, 1)
      /\ orthogonal_step (3 - 3) (1 - 0)
      /\ in_palace (resolved_side (py "K") false) (3, 1)).
Proof.
  split; [reflexivity|].
  exact (proj1 (palace_rule [((3, 0), py "K")] (3, 0) (3, 1) false (py "K")
                  eq_refl) (or_introl eq_refl)).
Defined.

Lemma check_move_generic_preconditions_witness :
  ChessChecker.check_move [((0, 0), py "R")] (0, 0) (0, 5) false = Ok true
  /\ true = true
  /\ (0, 0) <> (0, 5)
  /\ exists piece,
       ChessState.__getitem__ [((0, 0), py "R")] (pos_obj (0, 0)) = Ok piece
       /\ ~ captures_own [((0, 0), py "R")] piece (0, 5).
Proof.
  split; [reflexivity|].
  exact (check_move_generic_preconditions [((0, 0), py "R")] (0, 0) (0, 5)
           false true eq_refl).
Defined.

Lemma check_move_rotated_witness :
  ChessState.wf ChessState._DEFALUT_STATE
  /\ (ChessChecker.check_move (ChessState.rotate_pieces ChessState._DEFALUT_STATE)
        (relabel (7, 2)) (relabel (4, 2)) (negb false) = Ok true <->
      ChessChecker.check_move ChessState._DEFALUT_STATE (7, 2) (4, 2) false
      = Ok true).
Proof.
  assert (H : ChessState.wf ChessState._DEFALUT_STATE)
    by (apply distinct_NoDup; vm_compute; reflexivity).
  split; [exact H|].
  exact (proj1 (check_move_rotated ChessState._DEFALUT_STATE (7, 2) (4, 2)
                  false H) true).
Defined.

Lemma parse_col_and_row_ranges_witness :
  ChessParser.parse_col_idx [ChessParser.zh2] red down = Ok 7
  /\ 0 <= 7 <= 8.
Proof.
  split; [reflexivity|].
  exact (proj1 (parse_col_and_row_ranges [ChessParser.zh2] red) down 7 eq_refl).
Defined.

Lemma parse_piece_char_color_witness :
  ChessParser.parse_piece_char [ChessParser.g_che] black false = Ok (py "r")
  /\ In (py "r") ChessState.alphabet
  /\ piece_color (py "r") = black.
Proof.
  split; [reflexivity|].
  exact (proj1 (parse_piece_char_color [ChessParser.g_che] black)
           false (py "r") eq_refl).
Defined.

Lemma parse_cmd_moves_own_piece_witness :
  ChessParser.parse_cmd false rook_beside_horse che_jiu_ping_ba (Some false) false
  = Ok ((0, 0), (1, 0))
  /\ exists color piece,
       ChessParser.detect_color che_jiu_ping_ba = Ok color
       /\ ChessState.__getitem__ rook_beside_horse (pos_obj (0, 0)) = Ok piece
       /\ In piece ChessState.alphabet
       /\ piece_color piece = color.
Proof.
  assert (H : ChessParser.parse_cmd false rook_beside_horse che_jiu_ping_ba
                (Some false) false = Ok ((0, 0), (1, 0)))
    by (vm_compute; reflexivity).
  split; [exact H|].
  exact (parse_cmd_moves_own_piece false rook_beside_horse che_jiu_ping_ba
           (Some false) false (0, 0) (1, 0) H).
Defined.

Lemma parse_cmd_geometry_witness :
  ChessParser.parse_cmd false rook_beside_horse che_jiu_ping_ba (Some false) false
  = Ok ((0, 0), (1, 0))
  /\ exists piece,
       ChessState.__getitem__ rook_beside_horse (pos_obj (0, 0)) = Ok piece
       /\ ChessState.in_range (0, 0) = true
       /\ 0 <= 1 <= 8
       /\ (In (lower piece) [py "k"; py "r"; py "c"; py "p"] ->
           ChessState.in_range (1, 0) = true /\ (1 - 0 = 0 \/ 0 - 0 = 0))
       /\ (lower piece = py "a" -> Z.abs (0 - 0) = 1)
       /\ (lower piece = py "e" -> Z.abs (0 - 0) = 2)
       /\ (lower piece = py "h" ->
           (Z.abs (1 - 0) = 1 /\ Z.abs (0 - 0) = 2)
           \/ (Z.abs (1 - 0) = 2 /\ Z.abs (0 - 0) = 1)).
Proof.
  assert (H : ChessParser.parse_cmd false rook_beside_horse che_jiu_ping_ba
                (Some false) false = Ok ((0, 0), (1, 0)))
    by (vm_compute; reflexivity).
  split; [exact H|].
  exact (parse_cmd_geometry false rook_beside_horse che_jiu_ping_ba
           (Some false) false (0, 0) (1, 0) H).
Defined.

Lemma normalize_cmds_alternates_witness :
  ChessParser.normalize_cmds bare_ops pao_er_ping_wu = Ok [pao_er_ping_wu]
  /\ filter truthy [pao_er_ping_wu] = [pao_er_ping_wu].
Proof.
  assert (H : ChessParser.normalize_cmds bare_ops pao_er_ping_wu
              = Ok [pao_er_ping_wu]) by (vm_compute; reflexivity).
  split; [exact H|].
  exact (proj2 (normalize_cmds_alternates bare_ops pao_er_ping_wu
                  [pao_er_ping_wu]) H).
Defined.

Lemma history_boards_stay_valid_witness :
  ChessState.valid ChessState._DEFALUT_STATE
  /\ Forall node_valid
       (ChessRecorder._history
          (ChessRecorder.__init__ false (Some ChessState._DEFALUT_STATE) None)).
Proof.
  assert (H : ChessState.valid ChessState._DEFALUT_STATE)
    by apply default_state_valid.
  split; [exact H|].
  exact (proj1 (proj2 (history_boards_stay_valid bare_ops))
           false ChessState._DEFALUT_STATE None H).
Defined.

Lemma history_replays_witness :
  ChessRecorder.reachable bare_ops
    (fst (ChessRecorder.move (0, 3) (0, 4) None
            (ChessRecorder.__init__ false None None)))
  /\ root_is_initial
       (ChessRecorder._history
          (fst (ChessRecorder.move (0, 3) (0, 4) None
                  (ChessRecorder.__init__ false None None))))
  /\ replays
       (ChessRecorder._history
          (fst (ChessRecorder.move (0, 3) (0, 4) None
                  (ChessRecorder.__init__ false None None)))).
Proof.
  assert (H : ChessRecorder.reachable bare_ops
                (fst (ChessRecorder.move (0, 3) (0, 4) None
                        (ChessRecorder.__init__ false None None)))).
  { apply (ChessRecorder.reach_call bare_ops
             (ChessRecorder.CallMove (0, 3) (0, 4) None)
             (ChessRecorder.__init__ false None None) _ (Ok tt)).
    - apply ChessRecorder.reach_init.
    - vm_compute. reflexivity. }
  split; [exact H|].
  exact (history_replays bare_ops _ H).
Defined.

Lemma move_returns_iff_witness :
  ChessRecorder.back (ChessRecorder._history (ChessRecorder.__init__ false None None))
  = Ok (ChessRecorder.new_node ChessState._DEFALUT_STATE None None)
  /\ ChessState.valid
       (ChessRecorder.state
          (ChessRecorder.new_node ChessState._DEFALUT_STATE None None))
  /\ (snd (ChessRecorder.move (0, 3) (0, 4) None
             (ChessRecorder.__init__ false None None)) = Ok tt
      <->
      exists piece,
        ChessChecker.check_move ChessState._DEFALUT_STATE (0, 3) (0, 4) false
        = Ok true
        /\ ChessState.__getitem__ ChessState._DEFALUT_STATE (pos_obj (0, 3))
           = Ok piece
        /\ ChessState.in_range (0, 4) = true
        /\ None <> Some (piece_color piece)).
Proof.
  assert (H : ChessState.valid ChessState._DEFALUT_STATE)
    by apply default_state_valid.
  split; [reflexivity|]. split; [exact H|].
  exact (proj1 (move_returns_iff (0, 3) (0, 4) None
                  (ChessRecorder.__init__ false None None)
                  (ChessRecorder.new_node ChessState._DEFALUT_STATE None None)
                  eq_refl H)).
Defined.

Lemma rollback_composes_witness :
  0 <= 1 /\ 0 <= 1
  /\ List.length (ChessRecorder._history after_black_pawn) = 3%nat
  /\ (ChessRecorder.rollback 1 ;;~ ChessRecorder.rollback 1) after_black_pawn
     = ChessRecorder.rollback (1 + 1) after_black_pawn
  /\ List.length
       (ChessRecorder._history
          (fst (ChessRecorder.rollback (1 + 1) after_black_pawn))) = 1%nat.
Proof.
  split; [lia|]. split; [lia|]. split; [vm_compute; reflexivity|].
  split; [|vm_compute; reflexivity].
  exact (proj1 (rollback_composes 1 1 after_black_pawn ltac:(lia) ltac:(lia))).
Defined.

Lemma rollback_to_checkpoint_ends_witness :
  ChessRecorder.reachable bare_ops checkpoint_then_move
  /\ dict_get pystr_eqb (py "a") (ChessRecorder._checkpoints checkpoint_then_move)
     = Some 2
  /\ List.length (ChessRecorder._history checkpoint_then_move) = 3%nat
  /\ List.length
       (firstn (Z.to_nat 2) (ChessRecorder._history checkpoint_then_move))
     = 2%nat
  /\ 1 <= 2
  /\ forall fuel,
       (List.length (ChessRecorder._history checkpoint_then_move) < fuel)%nat ->
       ChessRecorder.rollback_to_checkpoint fuel (py "a") checkpoint_then_move
       = Some (ChessRecorder.with_history checkpoint_then_move
                 (firstn (Z.to_nat 2)
                    (ChessRecorder._history checkpoint_then_move)),
               Ok tt).
Proof.
  assert (Hc : dict_get pystr_eqb (py "a")
                 (ChessRecorder._checkpoints checkpoint_then_move) = Some 2)
    by (vm_compute; reflexivity).
  split; [exact checkpoint_then_move_reachable|]. split; [exact Hc|].
  split; [vm_compute; reflexivity|]. split; [vm_compute; reflexivity|].
  exact (proj1 (rollback_to_checkpoint_ends bare_ops) checkpoint_then_move
           (py "a") 2 checkpoint_then_move_reachable Hc).
Defined.

Lemma deepcopy_and_derive_witness :
  ChessRecorder._history (ChessRecorder.__init__ false None None) <> []
  /\ exists copy node,
       ChessRecorder.deepcopy true (ChessRecorder.__init__ false None None)
       = Ok copy
       /\ ChessRecorder._history copy
          = ChessRecorder._history (ChessRecorder.__init__ false None None)
       /\ ChessRecorder._checkpoints copy
          = ChessRecorder._checkpoints (ChessRecorder.__init__ false None None)
       /\ ChessRecorder._rotate_flag copy
          = ChessRecorder._rotate_flag (ChessRecorder.__init__ false None None)
            || true
       /\ ChessRecorder.back
            (ChessRecorder._history (ChessRecorder.__init__ false None None))
          = Ok node
       /\ ChessRecorder.derive true (ChessRecorder.__init__ false None None)
          = Ok {| ChessRecorder._history :=
                    [ChessRecorder.new_node (ChessRecorder.state node) None None];
                  ChessRecorder._rotate_flag :=
                    ChessRecorder._rotate_flag
                      (ChessRecorder.__init__ false None None) || true;
                  ChessRecorder._checkpoints := [] |}.
Proof.
  assert (H : ChessRecorder._history (ChessRecorder.__init__ false None None) <> [])
    by discriminate.
  split; [exact H|].
  exact (proj1 (deepcopy_and_derive true (ChessRecorder.__init__ false None None)) H).
Defined.

Lemma exec_records_commands_witness :
  let self := ChessRecorder.__init__ false None None in
  let self' :=
    fst (ChessRecorder.exec bare_ops false
           (ChessRecorder.CmdsSeq [pao_er_ping_wu]) false self) in
  ChessRecorder.exec bare_ops false (ChessRecorder.CmdsSeq [pao_er_ping_wu])
    false self = (self', Ok tt)
  /\ exists added,
       ChessRecorder.extends self self' added
       /\ tagged (filter truthy [pao_er_ping_wu]) added
       /\ List.length added = List.length (filter truthy [pao_er_ping_wu]).
Proof.
  cbv zeta.
  assert (H : ChessRecorder.exec bare_ops false
                (ChessRecorder.CmdsSeq [pao_er_ping_wu]) false
                (ChessRecorder.__init__ false None None)
              = (fst (ChessRecorder.exec bare_ops false
                        (ChessRecorder.CmdsSeq [pao_er_ping_wu]) false
                        (ChessRecorder.__init__ false None None)), Ok tt))
    by (vm_compute; reflexivity).
  split; [exact H|].
  exact (exec_records_commands bare_ops false false [pao_er_ping_wu] _ _ H).
Defined.

Lemma parse_cmd_rotated_witness :
  ChessState.wf rook_beside_horse
  /\ or_default (Some true) false = negb (or_default (Some false) false)
  /\ (ChessParser.parse_cmd false rook_beside_horse che_jiu_ping_ba
        (Some false) false = Ok ((0, 0), (1, 0))
      <->
      ChessParser.parse_cmd false (ChessState.rotate_pieces rook_beside_horse)
        che_jiu_ping_ba (Some true) false
      = Ok (relabel (0, 0), relabel (1, 0))).
Proof.
  assert (H : ChessState.wf rook_beside_horse)
    by (apply distinct_NoDup; vm_compute; reflexivity).
  split; [exact H|]. split; [reflexivity|].
  exact (proj1 (parse_cmd_rotated false rook_beside_horse che_jiu_ping_ba
                  (Some false) (Some true) false H eq_refl) (0, 0) (1, 0)).
Defined.

Lemma load_from_dict_valid_witness :
  ChessStateIO.load_from_dict literal_eval_digits false
    (ChessStateIO.save_to_dict rook_beside_horse) = Ok rook_beside_horse
  /\ ChessState.valid rook_beside_horse
  /\ ChessState.__len__ rook_beside_horse
     <= Z.of_nat (List.length (ChessStateIO.save_to_dict rook_beside_horse)).
Proof.
  assert (H : ChessStateIO.load_from_dict literal_eval_digits false
                (ChessStateIO.save_to_dict rook_beside_horse)
              = Ok rook_beside_horse) by (vm_compute; reflexivity).
  split; [exact H|].
  destruct (load_from_dict_valid literal_eval_digits false _ _ H) as (Hv & Hl & _).
  split; [exact Hv|exact Hl].
Defined.

Lemma move_there_and_back_witness :
  ChessState.valid ChessState._DEFALUT_STATE
  /\ ChessState.__getitem__ ChessState._DEFALUT_STATE (pos_obj (0, 0))
     = Ok (py "R")
  /\ ChessState.in_range (0, 1) = true
  /\ (0, 0) <> (0, 1)
  /\ exists s1 s2,
       ChessState.move (0, 0) (0, 1) ChessState._DEFALUT_STATE = (s1, Ok tt)
       /\ ChessState.move (0, 1) (0, 0) s1 = (s2, Ok tt)
       /\ ChessState.__getitem__ s2 (pos_obj (0, 0)) = Ok (py "R")
       /\ ChessState.__contains__ s2 (pos_obj (0, 1)) = false
       /\ forall p, p <> (0, 1) ->
            ChessState.__getitem__ s2 (pos_obj p)
            = ChessState.__getitem__ ChessState._DEFALUT_STATE (pos_obj p).
Proof.
  assert (H : ChessState.valid ChessState._DEFALUT_STATE)
    by apply default_state_valid.
  assert (N : (0, 0) <> (0, 1)) by discriminate.
  split; [exact H|]. split; [reflexivity|]. split; [reflexivity|].
  split; [exact N|].
  exact (move_there_and_back ChessState._DEFALUT_STATE (0, 0) (0, 1) (py "R")
           H eq_refl eq_refl N).
Defined.
